(** * yieldX: position ledger and reallocation pipeline

    A shallow embedding of

    - [contracts/YieldOptimizer.sol]: the on-chain position ledger
      ([deposit], [withdraw], [optimizePosition]), in module [Ledger];
    - [backend/src/services/GlueXYieldsService.ts],
      [YieldOptimizationService.ts], [RouterWhitelistHelper] and the
      yield-optimization part of [DatabaseService.ts]: the off-chain
      decision engine and executor, in module [Backend].

    Definitions come first (modules [Ledger], [LedgerTest], [Backend],
    [BackendTest], then [Governance] and [BackendRest] for the rest of the
    contract and of the services); the properties follow in [LedgerFacts],
    [BackendFacts], [LedgerMore] and [BackendMore]. *)

From Stdlib Require Import ZArith NArith QArith Qround Qabs Lqa String Ascii List Bool.
From Stdlib Require Import Strings.Byte Sorting.Sorted.
From stdpp Require Import gmap strings list pretty.

(* ===================================================================== *)
(** * The on-chain ledger: YieldOptimizer.sol                            *)
(* ===================================================================== *)

Module Ledger.

Local Open Scope N_scope.

(** [address] is a 160-bit and [uint256] a 256-bit unsigned integer.  The
    contract performs a single arithmetic operation on them
    ([position.shares -= _shares], checked since Solidity 0.8), which is
    written out below with its underflow panic. *)
Definition address := N.
Definition uint256 := N.

(** [struct Position] *)
Record Position := mkPosition {
  vault : address;
  asset : address;
  shares : uint256;
  assets : uint256;
  active : bool
}.

(** [struct OptimizeParams] *)
Record OptimizeParams := mkOptimizeParams {
  routers : list address;
  calldatas : list (list byte);
  inputTokens : list address;
  outputTokens : list address;
  inputAmounts : list uint256;
  targetVault : address;
  minSharesOut : uint256
}.

(** Contract storage.  A Solidity [mapping] is total: a missing key reads
    as the zero value ([positionsOf], [isWhitelisted] below). *)
Record Storage := mkStorage {
  userPositions : gmap address (list Position);
  whitelistedVaults : gmap address bool;
  whitelistedRouters : gmap address bool;
  paused : bool
}.

Definition positionsOf (s : Storage) (user : address) : list Position :=
  default [] (userPositions s !! user).

Definition isWhitelisted (m : gmap address bool) (a : address) : bool :=
  default false (m !! a).

(** What a called contract answers: it returns, or it reverts with a
    reason of its own, which a high-level call and [SafeERC20] pass on to
    the caller of the ledger. *)
Inductive Answer (A : Type) :=
| Returned (a : A)
| Reverts (reason : string).
Arguments Returned {A}.
Arguments Reverts {A}.

(** What a called contract can write in the ledger while it runs.  The
    three entry points are [nonReentrant], so a callee cannot enter them;
    the setters are [onlyOwner] and not [nonReentrant], so a callee that is
    the owner can call [whitelistVault] or [addGlueXVault],
    [whitelistRouter] and [setPaused].  (The other setters write nothing
    that the entry points read.) *)
Inductive SetterCall :=
| SetVault (_vault : address) (_enabled : bool)
| SetRouter (_router : address) (_enabled : bool)
| SetPaused (_paused : bool).

(** The storage after one such call; [whitelistVault], [addGlueXVault] and
    [whitelistRouter] revert for the zero address. *)
Definition setter (w : SetterCall) (s : Storage) : Storage :=
  match w with
  | SetVault a b =>
      if a =? 0 then s
      else mkStorage (userPositions s) (<[a := b]> (whitelistedVaults s))
                     (whitelistedRouters s) (paused s)
  | SetRouter a b =>
      if a =? 0 then s
      else mkStorage (userPositions s) (whitelistedVaults s)
                     (<[a := b]> (whitelistedRouters s)) (paused s)
  | SetPaused b =>
      mkStorage (userPositions s) (whitelistedVaults s) (whitelistedRouters s) b
  end.

Definition reenter (ws : list SetterCall) (s : Storage) : Storage :=
  fold_left (fun s w => setter w s) ws s.

(** The contracts the ledger calls: ERC-4626 vaults, ERC-20 tokens and swap
    routers.  They are opaque to the ledger, so they are an interface over
    an abstract world state.  A view function returns a value or reverts; a
    function that can change state returns its value, the new world and
    the setter calls it made on the ledger meanwhile.  Every call is made
    by the ledger itself ([msg.sender = address(this)] there). *)
Record Externals (World : Type) := mkExternals {
  (* IERC4626(v).asset() *)
  vault_asset : address -> World -> Answer address;
  (* IERC4626(v).deposit(assets, receiver) *)
  vault_deposit : address -> uint256 -> address -> World
                  -> Answer (uint256 * World * list SetterCall);
  (* IERC4626(v).redeem(shares, receiver, owner) *)
  vault_redeem : address -> uint256 -> address -> address -> World
                 -> Answer (uint256 * World * list SetterCall);
  (* IERC4626(v).convertToAssets(shares) *)
  vault_convertToAssets : address -> uint256 -> World -> Answer uint256;
  (* IERC20(t).safeTransferFrom(from, to, amount) *)
  token_safeTransferFrom : address -> address -> address -> uint256 -> World
                           -> Answer (unit * World * list SetterCall);
  (* IERC20(t).safeIncreaseAllowance(spender, amount) *)
  token_safeIncreaseAllowance : address -> address -> uint256 -> World
                                -> Answer (unit * World * list SetterCall);
  (* IERC20(t).balanceOf(account) *)
  token_balanceOf : address -> address -> World -> Answer uint256;
  (* router.call(calldata), a low-level call: [None] is [success = false],
     whose reason is dropped *)
  router_call : address -> list byte -> World -> option (World * list SetterCall)
}.

Arguments vault_asset {World}.
Arguments vault_deposit {World}.
Arguments vault_redeem {World}.
Arguments vault_convertToAssets {World}.
Arguments token_safeTransferFrom {World}.
Arguments token_safeIncreaseAllowance {World}.
Arguments token_balanceOf {World}.
Arguments router_call {World}.

Section Contract.

Context {World : Type}.
Variable ext : Externals World.
(** [address(this)] *)
Variable this : address.

(** The whole chain state a transaction can change. *)
Record Chain := mkChain {
  storage : Storage;
  world : World
}.

(** The body of a transaction is run step by step.  [Revert] keeps the
    state reached at the failing statement, so that the order of checks and
    storage writes can be reasoned about; [transact] below is the EVM rule
    that throws that state away. *)
Inductive Result (A : Type) :=
| Ok (a : A) (c : Chain)
| Revert (reason : string) (c : Chain).
Arguments Ok {A}.
Arguments Revert {A}.

Definition Tx (A : Type) := Chain -> Result A.

Definition ret {A} (a : A) : Tx A := fun c => Ok a c.

Definition bind {A B} (m : Tx A) (k : A -> Tx B) : Tx B :=
  fun c => match m c with
           | Ok a c' => k a c'
           | Revert e c' => Revert e c'
           end.

Notation "x <- m ;; k" := (bind m (fun x => k))
  (at level 100, m at next level, right associativity).
Notation "m ;;; k" := (bind m (fun _ => k))
  (at level 100, right associativity).

Definition require (cond : bool) (reason : string) : Tx unit :=
  fun c => if cond then Ok tt c else Revert reason c.

Definition sload : Tx Storage := fun c => Ok (storage c) c.

Definition sstore (f : Storage -> Storage) : Tx unit :=
  fun c => Ok tt (mkChain (f (storage c)) (world c)).

(** A call of a view function: the callee's revert is passed on with its
    reason. *)
Definition staticcall {A} (f : World -> Answer A) : Tx A :=
  fun c => match f (world c) with
           | Returned a => Ok a c
           | Reverts e => Revert e c
           end.

(** A call that may change state: the outside world is the one the callee
    leaves, and the ledger's storage has the setter calls of the callee
    applied.  The callee's revert is passed on with its reason. *)
Definition call {A} (f : World -> Answer (A * World * list SetterCall)) : Tx A :=
  fun c => match f (world c) with
           | Returned (a, w, ws) => Ok a (mkChain (reenter ws (storage c)) w)
           | Reverts e => Revert e c
           end.

(** Outcome of a transaction as the rest of the chain sees it. *)
Inductive Outcome (A : Type) :=
| Success (a : A)
| Reverted (reason : string).
Arguments Success {A}.
Arguments Reverted {A}.

(** EVM transaction semantics: a revert restores the state the transaction
    started from. *)
Definition transact {A} (m : Tx A) (c : Chain) : Chain * Outcome A :=
  match m c with
  | Ok a c' => (c', Success a)
  | Revert e _ => (c, Reverted e)
  end.

(** ** Access to [userPositions[user][i]] *)

Definition positionsLength (user : address) : Tx uint256 :=
  s <- sload ;; ret (N.of_nat (length (positionsOf s user))).

(** Read through a [Position storage] pointer; an index out of bounds is
    the array-access panic. *)
Definition loadPosition (user : address) (i : uint256) : Tx Position :=
  s <- sload ;;
  match positionsOf s user !! N.to_nat i with
  | Some p => ret p
  | None => fun c => Revert "Panic(0x32)" c
  end.

Definition setPositions (user : address) (ps : list Position) (s : Storage) : Storage :=
  mkStorage (<[user := ps]> (userPositions s))
            (whitelistedVaults s) (whitelistedRouters s) (paused s).

(** [userPositions[user][i] = q] *)
Definition writeAt (user : address) (i : uint256) (q : Position) (s : Storage) : Storage :=
  setPositions user (<[N.to_nat i := q]> (positionsOf s user)) s.

(** Write one field through a [Position storage] pointer. *)
Definition storePosition (user : address) (i : uint256) (f : Position -> Position) : Tx unit :=
  p <- loadPosition user i ;;
  sstore (writeAt user i (f p)).

Definition pushPosition (user : address) (p : Position) : Tx unit :=
  sstore (fun s => setPositions user (positionsOf s user ++ [p]) s).

Definition set_vault (v : address) (p : Position) : Position :=
  mkPosition v (asset p) (shares p) (assets p) (active p).
Definition set_asset (a : address) (p : Position) : Position :=
  mkPosition (vault p) a (shares p) (assets p) (active p).
Definition set_shares (n : uint256) (p : Position) : Position :=
  mkPosition (vault p) (asset p) n (assets p) (active p).
Definition set_assets (n : uint256) (p : Position) : Position :=
  mkPosition (vault p) (asset p) (shares p) n (active p).
Definition set_active (b : bool) (p : Position) : Position :=
  mkPosition (vault p) (asset p) (shares p) (assets p) b.

(** Checked subtraction of Solidity 0.8. *)
Definition checked_sub (a b : uint256) : Tx uint256 :=
  if a <? b then (fun c => Revert "Panic(0x11)" c) else ret (a - b).

(** ** [deposit(_vault, _amount, _minSharesOut)]

    [sender] is [msg.sender] and [value] is [msg.value].  The [emit]
    statements of the three functions write no storage and are left out. *)
Definition deposit (sender : address) (value : uint256)
    (_vault : address) (_amount _minSharesOut : uint256) : Tx uint256 :=
  s <- sload ;;
  require (negb (paused s)) "Contract paused" ;;;
  require (isWhitelisted (whitelistedVaults s) _vault) "Vault not whitelisted" ;;;
  require (0 <? _amount) "Invalid amount" ;;;
  asset <- staticcall (vault_asset ext _vault) ;;
  require (value =? 0) "ETH not accepted, only ERC-20 tokens supported" ;;;
  require (negb (asset =? 0)) "Native ETH not supported" ;;;
  call (token_safeTransferFrom ext asset sender this _amount) ;;;
  call (token_safeIncreaseAllowance ext asset _vault _amount) ;;;
  shares <- call (vault_deposit ext _vault _amount this) ;;
  require (_minSharesOut <=? shares) "Insufficient shares" ;;;
  pushPosition sender (mkPosition _vault asset shares _amount true) ;;;
  ret shares.

(** ** [withdraw(_positionIndex, _shares, _minAssetsOut)] *)
Definition withdraw (sender : address)
    (_positionIndex _shares _minAssetsOut : uint256) : Tx uint256 :=
  s <- sload ;;
  require (negb (paused s)) "Contract paused" ;;;
  len <- positionsLength sender ;;
  require (_positionIndex <? len) "Invalid position" ;;;
  position <- loadPosition sender _positionIndex ;;
  require (active position) "Position inactive" ;;;
  require ((0 <? _shares) && (_shares <=? shares position)) "Invalid shares" ;;;
  assets <- call (vault_redeem ext (vault position) _shares this sender) ;;
  require (_minAssetsOut <=? assets) "Insufficient assets" ;;;
  (* position.shares -= _shares; *)
  p1 <- loadPosition sender _positionIndex ;;
  rest <- checked_sub (shares p1) _shares ;;
  storePosition sender _positionIndex (set_shares rest) ;;;
  (* position.assets = vault.convertToAssets(position.shares); *)
  p2 <- loadPosition sender _positionIndex ;;
  value <- staticcall (vault_convertToAssets ext (vault position) (shares p2)) ;;
  storePosition sender _positionIndex (set_assets value) ;;;
  (* if (position.shares == 0) position.active = false; *)
  p3 <- loadPosition sender _positionIndex ;;
  (if shares p3 =? 0
   then storePosition sender _positionIndex (set_active false)
   else ret tt) ;;;
  ret assets.

(** The swap loop of [optimizePosition], over the indices [idxs]. *)
Fixpoint swapLegs (_params : OptimizeParams) (idxs : list nat) : Tx unit :=
  match idxs with
  | [] => ret tt
  | i :: rest =>
      match routers _params !! i, calldatas _params !! i,
            inputTokens _params !! i, outputTokens _params !! i,
            inputAmounts _params !! i with
      | Some router, Some calldata, Some inputToken, Some _, Some inputAmount =>
          s <- sload ;;
          require (isWhitelisted (whitelistedRouters s) router) "Router not whitelisted" ;;;
          require (negb (inputToken =? 0)) "Native ETH not supported" ;;;
          call (token_safeIncreaseAllowance ext inputToken router inputAmount) ;;;
          (* (bool success, ) = router.call(calldata); require(success, ...) *)
          (fun c => match router_call ext router calldata (world c) with
                    | Some (w, ws) => Ok tt (mkChain (reenter ws (storage c)) w)
                    | None => Revert "Swap failed" c
                    end) ;;;
          swapLegs _params rest
      | _, _, _, _, _ => fun c => Revert "Panic(0x32)" c
      end
  end.

(** ** [optimizePosition(_positionIndex, _params)] *)
Definition optimizePosition (sender : address)
    (_positionIndex : uint256) (_params : OptimizeParams) : Tx uint256 :=
  s <- sload ;;
  require (negb (paused s)) "Contract paused" ;;;
  len <- positionsLength sender ;;
  require (_positionIndex <? len) "Invalid position" ;;;
  require (isWhitelisted (whitelistedVaults s) (targetVault _params))
          "Target vault not whitelisted" ;;;
  position <- loadPosition sender _positionIndex ;;
  require (active position) "Position inactive" ;;;
  let fromVault := vault position in
  let toVault := targetVault _params in
  (* Redeem all shares from current vault *)
  assetsRedeemed <- call (vault_redeem ext fromVault (shares position) this this) ;;
  (if (0 <? length (routers _params))%nat
   then
     require ((length (routers _params) =? length (calldatas _params))%nat &&
              (length (routers _params) =? length (inputTokens _params))%nat &&
              (length (routers _params) =? length (outputTokens _params))%nat &&
              (length (routers _params) =? length (inputAmounts _params))%nat)
             "Array length mismatch" ;;;
     swapLegs _params (seq 0 (length (routers _params)))
   else ret tt) ;;;
  (* Get target asset and balance *)
  targetAsset <- staticcall (vault_asset ext toVault) ;;
  require (negb (targetAsset =? 0)) "Native ETH not supported" ;;;
  targetAssetBalance <- staticcall (token_balanceOf ext targetAsset this) ;;
  require (0 <? targetAssetBalance) "No assets after swap" ;;;
  (* Approve and deposit to target vault *)
  call (token_safeIncreaseAllowance ext targetAsset toVault targetAssetBalance) ;;;
  newShares <- call (vault_deposit ext toVault targetAssetBalance this) ;;
  require (minSharesOut _params <=? newShares) "Insufficient shares" ;;;
  (* Update position *)
  storePosition sender _positionIndex (set_vault toVault) ;;;
  storePosition sender _positionIndex (set_asset targetAsset) ;;;
  storePosition sender _positionIndex (set_shares newShares) ;;;
  storePosition sender _positionIndex (set_assets targetAssetBalance) ;;;
  ret newShares.

(** [getUserPositions(_user)] *)
Definition getUserPositions (c : Chain) (_user : address) : list Position :=
  positionsOf (storage c) _user.

(** The three state-changing entry points, as one type of operation. *)
Inductive Op :=
| Deposit (value : uint256) (_vault : address) (_amount _minSharesOut : uint256)
| Withdraw (_positionIndex _shares _minAssetsOut : uint256)
| OptimizePosition (_positionIndex : uint256) (_params : OptimizeParams).

Definition exec (sender : address) (op : Op) : Tx uint256 :=
  match op with
  | Deposit value v a m => deposit sender value v a m
  | Withdraw i n m => withdraw sender i n m
  | OptimizePosition i p => optimizePosition sender i p
  end.

(** ** Vocabulary of the properties *)

(** [wp m Qok Qrev c]: running [m] from [c] ends in a state that satisfies
    [Qok] when it returns and [Qrev] when it reverts. *)
Definition wp {A} (m : Tx A) (Qok : A -> Chain -> Prop) (Qrev : string -> Chain -> Prop)
    (c : Chain) : Prop :=
  match m c with
  | Ok a c' => Qok a c'
  | Revert e c' => Qrev e c'
  end.

Definition positionAt (c : Chain) (user : address) (i : uint256) : option Position :=
  positionsOf (storage c) user !! N.to_nat i.

(** The invariant of a Position as the data model words it: no active
    position without shares, and [assets] is the vault's present valuation
    of [shares]. *)
Definition PositionInvariant (c : Chain) : Prop :=
  forall (user : address) (i : uint256) (p : Position),
    positionAt c user i = Some p ->
    (shares p = 0 -> active p = false) /\
    vault_convertToAssets ext (vault p) (shares p) (world c) = Returned (assets p).

(** Its first half alone. *)
Definition SharesInvariant (c : Chain) : Prop :=
  forall (user : address) (i : uint256) (p : Position),
    positionAt c user i = Some p -> shares p = 0 -> active p = false.

(** The operation creates shares ([deposit], [optimizePosition]) and the
    vault has minted none: it has returned [r = 0]. *)
Definition mintedNone (op : Op) (r : uint256) : Prop :=
  match op with
  | Withdraw _ _ _ => False
  | _ => r = 0
  end.

(** No callee of [ext] calls a setter of the ledger (as when the owner is
    none of the vaults, tokens and routers). *)
Definition Quiet : Prop :=
  (forall v a r w x w' ws, vault_deposit ext v a r w = Returned (x, w', ws) -> ws = []) /\
  (forall v n r o w x w' ws, vault_redeem ext v n r o w = Returned (x, w', ws) -> ws = []) /\
  (forall t f o a w x w' ws,
      token_safeTransferFrom ext t f o a w = Returned (x, w', ws) -> ws = []) /\
  (forall t sp a w x w' ws,
      token_safeIncreaseAllowance ext t sp a w = Returned (x, w', ws) -> ws = []) /\
  (forall r cd w w' ws, router_call ext r cd w = Some (w', ws) -> ws = []).

(** The chain [c1] on which the swap loop of [optimizePosition] starts and
    the chain [c2] it leaves: with legs, the array check has passed and
    the loop has returned; without, nothing is done. *)
Definition legsDone (_params : OptimizeParams) (c1 c2 : Chain) : Prop :=
  if (0 <? length (routers _params))%nat
  then
    length (calldatas _params) = length (routers _params) /\
    length (inputTokens _params) = length (routers _params) /\
    length (outputTokens _params) = length (routers _params) /\
    length (inputAmounts _params) = length (routers _params) /\
    swapLegs _params (seq 0 (length (routers _params))) c1 = Ok tt c2
  else c2 = c1.

(** Some callee of [ext] reverts with the reason [e]. *)
Definition CalleeReverts (e : string) : Prop :=
  (exists v w, vault_asset ext v w = Reverts e) \/
  (exists v a r w, vault_deposit ext v a r w = Reverts e) \/
  (exists v n r o w, vault_redeem ext v n r o w = Reverts e) \/
  (exists v n w, vault_convertToAssets ext v n w = Reverts e) \/
  (exists t f o a w, token_safeTransferFrom ext t f o a w = Reverts e) \/
  (exists t sp a w, token_safeIncreaseAllowance ext t sp a w = Reverts e) \/
  (exists t a w, token_balanceOf ext t a w = Reverts e).

End Contract.

Arguments Ok {World A}.
Arguments Revert {World A}.
Arguments Success {A}.
Arguments Reverted {A}.
Arguments mkChain {World}.
Arguments storage {World}.
Arguments world {World}.

End Ledger.

(* ===================================================================== *)
(** * A small concrete world for the ledger                              *)
(* ===================================================================== *)

(** Fixed-rate vaults over two tokens, with balances kept in finite maps.
    It instantiates [Ledger.Externals] so that the ledger can be run on
    concrete transactions. *)
Module LedgerTest.

Import Ledger.
Local Open Scope N_scope.

Record World := mkWorld {
  (* balances: (token, holder) -> amount *)
  bal : gmap (address * address) N;
  (* vault shares: (vault, holder) -> shares *)
  held : gmap (address * address) N
}.

Definition balOf (w : World) (token holder : address) : N :=
  default 0 (bal w !! (token, holder)).
Definition heldOf (w : World) (v holder : address) : N :=
  default 0 (held w !! (v, holder)).

Definition ledger : address := 50.
Definition alice : address := 7.
Definition tokenA : address := 1.
Definition tokenB : address := 2.
Definition vaultA2 : address := 100.   (* tokenA, one share is worth 2 *)
Definition vaultB : address := 200.    (* tokenB, one share is worth 1 *)
Definition vaultA1 : address := 300.   (* tokenA, one share is worth 1 *)
Definition badRouter : address := 900. (* every call fails *)
Definition okRouter : address := 901.  (* turns the ledger's tokenA into tokenB *)
Definition ownerRouter : address := 902. (* owns the ledger: pauses it when called *)

(** The underlying asset and the value of one share, per vault. *)
Definition vaultInfo (v : address) : option (address * N) :=
  if v =? vaultA2 then Some (tokenA, 2)
  else if v =? vaultB then Some (tokenB, 1)
  else if v =? vaultA1 then Some (tokenA, 1)
  else None.

Definition move (token from to : address) (amount : N) (w : World) : option World :=
  if amount <=? balOf w token from
  then
    let b1 := <[(token, from) := balOf w token from - amount]> (bal w) in
    let b2 := <[(token, to) := default 0 (b1 !! (token, to)) + amount]> b1 in
    Some (mkWorld b2 (held w))
  else None.

Definition t_deposit (v : address) (amount : N) (receiver : address) (w : World)
  : option (N * World) :=
  match vaultInfo v with
  | Some (token, rate) =>
      match move token ledger v amount w with
      | Some w1 =>
          let sh := amount / rate in
          Some (sh, mkWorld (bal w1) (<[(v, receiver) := heldOf w1 v receiver + sh]> (held w1)))
      | None => None
      end
  | None => None
  end.

Definition t_redeem (v : address) (sh : N) (receiver owner : address) (w : World)
  : option (N * World) :=
  match vaultInfo v with
  | Some (token, rate) =>
      if sh <=? heldOf w v owner
      then
        let w1 := mkWorld (bal w) (<[(v, owner) := heldOf w v owner - sh]> (held w)) in
        match move token v receiver (sh * rate) w1 with
        | Some w2 => Some (sh * rate, w2)
        | None => None
        end
      else None
  | None => None
  end.

Definition t_router (router : address) (_ : list byte) (w : World)
  : option (World * list SetterCall) :=
  if router =? okRouter
  then
    let a := balOf w tokenA ledger in
    let b1 := <[(tokenA, ledger) := 0]> (bal w) in
    Some (mkWorld (<[(tokenB, ledger) := balOf w tokenB ledger + a]> b1) (held w), [])
  else if router =? badRouter then None
  else if router =? ownerRouter then Some (w, [SetPaused true])
  else Some (w, []).

(** The answer of a callee that calls no setter of the ledger. *)
Definition views {A} (reason : string) (o : option A) : Answer A :=
  match o with
  | Some a => Returned a
  | None => Reverts reason
  end.

Definition returns {A} (reason : string) (o : option (A * World))
  : Answer (A * World * list SetterCall) :=
  match o with
  | Some (a, w) => Returned (a, w, [])
  | None => Reverts reason
  end.

Definition testExt : Externals World :=
  mkExternals World
    (fun v _ => views "not a vault" (fst <$> vaultInfo v))
    (fun v amount receiver w => returns "ERC4626: deposit refused" (t_deposit v amount receiver w))
    (fun v sh receiver owner w =>
       returns "ERC4626: redeem more than max" (t_redeem v sh receiver owner w))
    (fun v sh _ => views "not a vault" ((fun i => sh * snd i) <$> vaultInfo v))
    (fun token from to amount w =>
       returns "ERC20: insufficient balance" ((fun w' => (tt, w')) <$> move token from to amount w))
    (fun _ _ _ w => Returned (tt, w, []))
    (fun token holder w => Returned (balOf w token holder))
    t_router.

(** The same callees, none of which calls back into the ledger. *)
Definition quietExt : Externals World :=
  mkExternals World
    (vault_asset testExt) (vault_deposit testExt) (vault_redeem testExt)
    (vault_convertToAssets testExt) (token_safeTransferFrom testExt)
    (token_safeIncreaseAllowance testExt) (token_balanceOf testExt)
    (fun router calldata w =>
       (fun answer => (fst answer, [])) <$> t_router router calldata w).

Definition allVaults : gmap address bool :=
  <[vaultA2 := true]> (<[vaultB := true]> (<[vaultA1 := true]> ∅)).

Definition allRouters : gmap address bool :=
  <[badRouter := true]> (<[okRouter := true]> (<[ownerRouter := true]> ∅)).

Definition emptyStorage : Storage := mkStorage ∅ allVaults allRouters false.

(** Alice owns 10 of token A and nothing is deposited yet. *)
Definition genesis : Chain (World := World) :=
  mkChain emptyStorage (mkWorld (<[(tokenA, alice) := 10]> ∅) ∅).

(** Alice holds one position of 5 shares in [vaultA2] (the shares are kept
    by the ledger), and the ledger also holds 7 stray units of token B. *)
Definition funded : Chain (World := World) :=
  mkChain
    (mkStorage (<[alice := [mkPosition vaultA2 tokenA 5 10 true]]> ∅)
               allVaults allRouters false)
    (mkWorld (<[(tokenA, vaultA2) := 10]> (<[(tokenB, ledger) := 7]> ∅))
             (<[(vaultA2, ledger) := 5]> ∅)).

(** Alice keeps the 5 shares of her position herself, which is what
    [withdraw] redeems from ([owner = msg.sender]). *)
Definition selfHeld : Chain (World := World) :=
  mkChain
    (mkStorage (<[alice := [mkPosition vaultA2 tokenA 5 10 true]]> ∅)
               allVaults allRouters false)
    (mkWorld (<[(tokenA, vaultA2) := 10]> ∅) (<[(vaultA2, alice) := 5]> ∅)).

(** As [funded], without the stray token B. *)
Definition clean : Chain (World := World) :=
  mkChain
    (mkStorage (<[alice := [mkPosition vaultA2 tokenA 5 10 true]]> ∅)
               allVaults allRouters false)
    (mkWorld (<[(tokenA, vaultA2) := 10]> ∅) (<[(vaultA2, ledger) := 5]> ∅)).

Definition noLegs (target : address) (minShares : N) : OptimizeParams :=
  mkOptimizeParams [] [] [] [] [] target minShares.

Definition oneLeg (router target : address) (amount minShares : N) : OptimizeParams :=
  mkOptimizeParams [router] [[]] [tokenA] [tokenB] [amount] target minShares.

Definition twoLegs (router1 router2 target : address) (amount minShares : N)
  : OptimizeParams :=
  mkOptimizeParams [router1; router2] [[]; []] [tokenA; tokenB] [tokenB; tokenA]
                   [amount; amount] target minShares.

Definition run {A} (m : Tx (World := World) A) (c : Chain) : Chain * Outcome A :=
  transact m c.

End LedgerTest.

(* ===================================================================== *)
(** * The off-chain engine: GlueXYieldsService.ts,
      YieldOptimizationService.ts, RouterWhitelistHelper, DatabaseService *)
(* ===================================================================== *)

Module Backend.

Local Open Scope Q_scope.

(** ** JavaScript numbers *)

Definition Qltb (x y : Q) : bool := (Qnum x * QDen y <? Qnum y * QDen x)%Z.

(** A [number] is an IEEE 754 binary64 value: not-a-number, one of the two
    infinities, or a finite value, kept as the rational it denotes.  The
    two zeros are the one [Finite 0]: the code divides by the length of an
    array that is not empty only, and never prints a number, so that the
    sign of a zero cannot be observed. *)
Inductive number :=
| NaN
| Infinity (negative : bool)
| Finite (q : Q).

(** [2 ^ e] *)
Definition pow2 (e : Z) : Q :=
  match e with
  | Zneg p => 1 # (2 ^ p)
  | _ => inject_Z (2 ^ e)
  end.

(** The exponent [e] with [2 ^ e <= a < 2 ^ (e + 1)], for a positive [a]. *)
Definition ilog2 (a : Q) : Z :=
  let e := (Z.log2 (Qnum a) - Z.log2 (Zpos (Qden a)))%Z in
  if Qle_bool (pow2 e) a then e else (e - 1)%Z.

(** Rounding of an exact result to binary64: to the nearest value with a
    53-bit significand (fewer below [2 ^ -1022]), to the one with an even
    significand on a tie, and to an infinity from [2 ^ 1024 - 2 ^ 970]
    on. *)
Definition round64 (q : Q) : number :=
  if Qeq_bool q 0 then Finite 0
  else
    let a := Qabs q in
    let e := Z.max (ilog2 a) (-1022) in
    let ulp := pow2 (e - 52) in
    let t := a / ulp in
    let m := Qfloor t in
    let m' := match t - inject_Z m ?= 1 # 2 with
              | Lt => m
              | Gt => (m + 1)%Z
              | Eq => if Z.even m then m else (m + 1)%Z
              end in
    let v := inject_Z m' * ulp in
    if Qle_bool (pow2 1024) v then Infinity (Qltb q 0)
    else Finite (Qred (if Qltb q 0 then - v else v)).

(** The double written as the decimal fraction [n / d]. *)
Definition literal (n : Z) (d : positive) : number := round64 (n # d).

(** [array.length] as a number. *)
Definition ofNat (n : nat) : number := Finite (inject_Z (Z.of_nat n)).

Definition fneg (x : number) : number :=
  match x with
  | NaN => NaN
  | Infinity s => Infinity (negb s)
  | Finite q => Finite (- q)
  end.

(** [x + y] *)
Definition fadd (x y : number) : number :=
  match x, y with
  | NaN, _ | _, NaN => NaN
  | Infinity s, Infinity s' => if Bool.eqb s s' then Infinity s else NaN
  | Infinity s, Finite _ | Finite _, Infinity s => Infinity s
  | Finite a, Finite b => round64 (a + b)
  end.

(** [x - y] *)
Definition fsub (x y : number) : number := fadd x (fneg y).

(** [x / y]; a zero divisor is taken as [+0]. *)
Definition fdiv (x y : number) : number :=
  match x, y with
  | NaN, _ | _, NaN => NaN
  | Infinity _, Infinity _ => NaN
  | Infinity s, Finite b => Infinity (xorb s (Qltb b 0))
  | Finite _, Infinity _ => Finite 0
  | Finite a, Finite b =>
      if Qeq_bool b 0
      then if Qeq_bool a 0 then NaN else Infinity (Qltb a 0)
      else round64 (a / b)
  end.

(** [x < y]: false when one of them is [NaN]. *)
Definition flt (x y : number) : bool :=
  match x, y with
  | NaN, _ | _, NaN => false
  | Infinity s, Infinity s' => s && negb s'
  | Infinity s, Finite _ => s
  | Finite _, Infinity s' => negb s'
  | Finite a, Finite b => Qltb a b
  end.

(** [x <= y]: false when one of them is [NaN]. *)
Definition fle (x y : number) : bool :=
  match x, y with
  | NaN, _ | _, NaN => false
  | Infinity s, Infinity s' => s || negb s'
  | Infinity s, Finite _ => s
  | Finite _, Infinity s' => negb s'
  | Finite a, Finite b => Qle_bool a b
  end.

(** [x === 0] *)
Definition isZero (x : number) : bool :=
  match x with
  | Finite q => Qeq_bool q 0
  | _ => false
  end.

(** [!x]: zero and [NaN] are falsy. *)
Definition falsy (x : number) : bool :=
  match x with
  | NaN => true
  | Infinity _ => false
  | Finite q => Qeq_bool q 0
  end.

(** [bigint.toString()] *)
Definition toString (n : N) : string := pretty n.

(** [String.prototype.toLowerCase] on the ASCII letters (the strings that
    are compared are hexadecimal addresses). *)
Definition lower_ascii (c : ascii) : ascii :=
  let n := nat_of_ascii c in
  if ((65 <=? n) && (n <=? 90))%nat then ascii_of_nat (n + 32) else c.

Fixpoint toLowerCase (s : string) : string :=
  match s with
  | EmptyString => EmptyString
  | String c r => String (lower_ascii c) (toLowerCase r)
  end.

(** [a || b] on an optional number: [undefined], [0] and [NaN] are
    falsy. *)
Definition orNum (a : option number) (b : number) : number :=
  match a with
  | Some x => if falsy x then b else x
  | None => b
  end.

(** [a || b] on an optional string: [undefined] and the empty string are
    falsy. *)
Definition orStr (a : option string) (b : string) : string :=
  match a with
  | Some EmptyString | None => b
  | Some x => x
  end.

(** ** Data *)

(** [interface YieldOpportunity] ([tvl] and [riskLevel] are never set). *)
Record YieldOpportunity := mkYieldOpportunity {
  opp_vault : string;
  opp_asset : string;
  opp_apy : number;
  opp_apr : number;
  opp_timestamp : N
}.

Record APYPoint := mkAPYPoint {
  pt_timestamp : N;
  pt_apy : number;
  pt_apr : number
}.

(** [HistoricalAPYResponse['data']] *)
Record APYData := mkAPYData {
  data_vault : option string;
  data_asset : option string;
  historicalAPY : list APYPoint;
  averageAPY : option number;
  currentAPY : option number
}.

Record HistoricalAPYResponse := mkHistoricalAPYResponse {
  apy_success : bool;
  apy_data : option APYData;
  apy_error : option string
}.

(** A position as [getUserPositions] of the contract returns it. *)
Record ChainPosition := mkChainPosition {
  cp_vault : string;
  cp_asset : string;
  cp_shares : N;
  cp_assets : N;
  cp_active : bool
}.

(** [interface UserPosition]; the decimal strings [shares] and [assets]
    are kept as the numbers they print. *)
Record UserPosition := mkUserPosition {
  userAddress : string;
  positionIndex : nat;
  vault : string;
  asset : string;
  shares : N;
  assets : N;
  apy : option number;
  active : bool
}.

(** The [error] of a result: the two skip messages, or the message of a
    caught exception. *)
Inductive Failure :=
| BelowThreshold (apyDifference threshold : number)
| AlreadyInBestVault
| Caught (message : string).

(** [interface OptimizationResult] *)
Record OptimizationResult := mkOptimizationResult {
  success : bool;
  res_userAddress : string;
  res_positionIndex : Z;
  fromVault : string;
  toVault : string;
  assetsReallocated : N;
  newShares : N;
  newAPY : number;
  previousAPY : number;
  transactionHash : option string;
  error : option Failure
}.

(** The argument tuple of the contract's [optimizePosition]. *)
Record OptimizeArgs := mkOptimizeArgs {
  routers : list string;
  calldatas : list string;
  inputTokens : list string;
  outputTokens : list string;
  inputAmounts : list N;
  targetVault : string;
  minSharesOut : N
}.

(** [IYieldOptimization]: the OptimizationRecord of the store. *)
Record YieldOptimization := mkYieldOptimization {
  yo_userAddress : string;
  yo_positionIndex : Z;
  yo_fromVault : string;
  yo_toVault : string;
  yo_assetsReallocated : N;
  yo_previousAPY : number;
  yo_newAPY : number;
  yo_transactionHash : option string;
  yo_timestamp : N
}.

Record QuoteParams := mkQuoteParams {
  chainID : string;
  inputToken : string;
  outputToken : string;
  q_userAddress : string;
  outputReceiver : string;
  inputAmount : string
}.

(** [quote.data.result] *)
Record QuoteResult := mkQuoteResult {
  router : string;
  calldata : string
}.

(** [QuoteResponse], with [quote.data?.result] read out. *)
Record QuoteResponse := mkQuoteResponse {
  q_success : bool;
  q_result : option QuoteResult
}.

Inductive ReceiptStatus := status_success | status_reverted.

(** Result of an awaited call: a value or a thrown error with its
    message. *)
Inductive Res (A : Type) :=
| Val (a : A)
| Throw (message : string).
Arguments Val {A}.
Arguments Throw {A}.

(** What lies outside the process: the yield and quote HTTP services, the
    chain behind the viem clients, the MongoDB collections and the clock.
    Each call may answer differently every time, so it is a transition on
    an abstract outside state [X]. *)
Record Services (X : Type) := mkServices {
  (* GlueXYieldsService.getHistoricalAPY({chainID, vault, lpTokenAddress: vault}) *)
  getHistoricalAPY : string -> string -> X -> Res HistoricalAPYResponse * X;
  (* client.readContract(getUserPositions, [user]) *)
  readUserPositions : string -> X -> Res (list ChainPosition) * X;
  (* client.readContract(whitelistedRouters, [router]) *)
  readWhitelistedRouters : string -> X -> Res bool * X;
  (* keeperWallet.writeContract(whitelistRouter, [router, enabled]) *)
  writeWhitelistRouter : string -> bool -> X -> Res string * X;
  (* keeperWallet.writeContract(optimizePosition, [index, params]) *)
  writeOptimizePosition : N -> OptimizeArgs -> X -> Res string * X;
  (* client.waitForTransactionReceipt({hash}) *)
  waitForTransactionReceipt : string -> X -> Res ReceiptStatus * X;
  (* GlueXservice.getQuote(params) *)
  getQuote : QuoteParams -> X -> Res QuoteResponse * X;
  (* yieldOptimization.save() *)
  document_save : YieldOptimization -> X -> Res unit * X;
  (* YieldPosition.find({active: true}).distinct("userAddress") *)
  distinctActiveUsers : X -> Res (list string) * X;
  (* Date.now() *)
  Date_now : X -> N
}.

Arguments getHistoricalAPY {X}.
Arguments readUserPositions {X}.
Arguments readWhitelistedRouters {X}.
Arguments writeWhitelistRouter {X}.
Arguments writeOptimizePosition {X}.
Arguments waitForTransactionReceipt {X}.
Arguments getQuote {X}.
Arguments document_save {X}.
Arguments distinctActiveUsers {X}.
Arguments Date_now {X}.

(** [const GLUEX_VAULTS] of YieldOptimizationService.ts *)
Definition GLUEX_VAULTS : list string :=
  [ "0xe25514992597786e07872e6c5517fe1906c0cadd";
    "0xcdc3975df9d1cf054f44ed238edfb708880292ea";
    "0x8f9291606862eef771a97e5b71e4b98fd1fa216a";
    "0x9f75eac57d1c6f7248bd2aede58c95689f3827f7";
    "0x63cf7ee583d9954febf649ad1c40c97a6493b1be" ]%string.

Section Service.

Context {X : Type}.
Variable svc : Services X.
(** [this.optimizerContract] *)
Variable optimizerContract : string.

(** The state of the process and of what it talks to: the outside state,
    the [YieldOptimization] collection of the store, the service's
    [optimizationThreshold] field, and two histories that the properties
    speak about: the argument tuples handed to
    [keeperWallet.writeContract] for [optimizePosition], and the answers to
    the waits for the receipts of these transactions. *)
Record State := mkState {
  ext : X;
  yieldOptimizations : list YieldOptimization;
  optimizationThreshold : number;
  submitted : list (N * OptimizeArgs);
  receipts : list (Res ReceiptStatus)
}.

(** An [async] function: it changes the state and returns or throws.  The
    state reached when it throws stays (nothing is rolled back). *)
Definition M (A : Type) := State -> Res A * State.

Definition ret {A} (a : A) : M A := fun s => (Val a, s).

Definition throw {A} (message : string) : M A := fun s => (Throw message, s).

Definition bind {A B} (m : M A) (k : A -> M B) : M B :=
  fun s => match m s with
           | (Val a, s') => k a s'
           | (Throw e, s') => (Throw e, s')
           end.

Notation "x <- m ;; k" := (bind m (fun x => k))
  (at level 100, m at next level, right associativity).
Notation "m ;;; k" := (bind m (fun _ => k))
  (at level 100, right associativity).

(** [try { m } catch (error) { h error.message }] *)
Definition tryCatch {A} (m : M A) (h : string -> M A) : M A :=
  fun s => match m s with
           | (Val a, s') => (Val a, s')
           | (Throw e, s') => h e s'
           end.

(** An awaited call to the outside. *)
Definition await {A} (f : X -> Res A * X) : M A :=
  fun s => let (r, x) := f (ext s) in
           (r, mkState x (yieldOptimizations s) (optimizationThreshold s)
                       (submitted s) (receipts s)).

Definition now : M N := fun s => (Val (Date_now svc (ext s)), s).

Definition getThreshold : M number := fun s => (Val (optimizationThreshold s), s).

(** [setOptimizationThreshold(threshold)] *)
Definition setOptimizationThreshold (threshold : number) : M unit :=
  fun s => (Val tt, mkState (ext s) (yieldOptimizations s) threshold
                            (submitted s) (receipts s)).

(** ** GlueXYieldsService *)

(** [historicalAPY.reduce((acc, point) => acc + point.apy, 0)] *)
Definition sumApy (points : list APYPoint) : number :=
  fold_left (fun acc point => fadd acc (pt_apy point)) points (Finite 0).

(** [sum / historicalAPY.length] *)
Definition seriesAverage (points : list APYPoint) : number :=
  fdiv (sumApy points) (ofNat (length points)).

(** The yield that the loop of [getYieldOpportunities] reads off the data
    of a reply. *)
Definition usableApy (d : APYData) : number :=
  let apy := orNum (currentAPY d) (orNum (averageAPY d) (Finite 0)) in
  if isZero apy && (0 <? length (historicalAPY d))%nat
  then seriesAverage (historicalAPY d)
  else apy.

(** The body of the [for (const vault of vaultAddresses)] loop of
    [getYieldOpportunities]: the opportunities after this vault. *)
Definition fetchVault (chainID vault : string) (opportunities : list YieldOpportunity)
  : M (list YieldOpportunity) :=
  tryCatch
    (response <- await (getHistoricalAPY svc chainID vault) ;;
     match apy_success response, apy_data response with
     | true, Some d =>
         let apy := usableApy d in
         if flt (Finite 0) apy
         then
           t <- now ;;
           ret (opportunities ++
                [mkYieldOpportunity vault (orStr (data_asset d) "unknown")
                                    apy (orNum (currentAPY d) apy) t])
         else ret opportunities
     | _, _ => ret opportunities
     end)
    (fun _ => ret opportunities).

Fixpoint fetchAll (chainID : string) (vaultAddresses : list string)
    (opportunities : list YieldOpportunity) : M (list YieldOpportunity) :=
  match vaultAddresses with
  | [] => ret opportunities
  | vault :: rest =>
      opportunities' <- fetchVault chainID vault opportunities ;;
      fetchAll chainID rest opportunities'
  end.

(** [opportunities.sort((a, b) => b.apy - a.apy)]: [Array.prototype.sort]
    is stable, so this is the stable sort by descending [apy], written as
    an insertion sort: an element goes before the first one that is not
    strictly greater.  The yields in the list are positive; for such
    numbers [b.apy - a.apy] is positive exactly when [a.apy < b.apy] (the
    difference of two doubles is not rounded to zero, and the [NaN] that
    two infinities give counts as [0]). *)
Fixpoint insertByApy (x : YieldOpportunity) (l : list YieldOpportunity)
  : list YieldOpportunity :=
  match l with
  | [] => [x]
  | y :: r => if flt (opp_apy x) (opp_apy y) then y :: insertByApy x r else x :: l
  end.

Definition sortByApyDesc (l : list YieldOpportunity) : list YieldOpportunity :=
  foldr insertByApy [] l.

(** [getYieldOpportunities(vaultAddresses, chainID)] *)
Definition getYieldOpportunities (vaultAddresses : list string) (chainID : string)
  : M (list YieldOpportunity) :=
  opportunities <- fetchAll chainID vaultAddresses [] ;;
  ret (sortByApyDesc opportunities).

Definition sameAsset (asset : string) (opp : YieldOpportunity) : bool :=
  String.eqb (toLowerCase (opp_asset opp)) (toLowerCase asset).

(** [findBestYieldForAsset(asset, vaultAddresses, chainID)] *)
Definition findBestYieldForAsset (asset : string) (vaultAddresses : list string)
    (chainID : string) : M (option YieldOpportunity) :=
  opportunities <- getYieldOpportunities vaultAddresses chainID ;;
  let assetOpportunities :=
    match asset with
    | EmptyString => opportunities
    | _ => List.filter (sameAsset asset) opportunities
    end in
  ret (head assetOpportunities).

(** ** RouterWhitelistHelper *)

Definition isRouterWhitelisted (routerAddress : string) : M bool :=
  tryCatch (await (readWhitelistedRouters svc routerAddress))
           (fun _ => ret false).

Definition whitelistRouter (routerAddress : string) : M bool :=
  tryCatch
    (isWhitelisted <- isRouterWhitelisted routerAddress ;;
     if isWhitelisted then ret true
     else
       txhash <- await (writeWhitelistRouter svc routerAddress true) ;;
       receipt <- await (waitForTransactionReceipt svc txhash) ;;
       match receipt with
       | status_success => ret true
       | status_reverted => ret false
       end)
    (fun _ => ret false).

Definition ensureRouterWhitelisted (routerAddress : string) : M bool :=
  isWhitelisted <- isRouterWhitelisted routerAddress ;;
  if isWhitelisted then ret true else whitelistRouter routerAddress.

(** ** DatabaseService *)

(** [saveYieldOptimization(optimization)]: the document is in the
    collection once [save()] has returned. *)
Definition saveYieldOptimization (o : YieldOptimization) : M YieldOptimization :=
  let doc :=
    mkYieldOptimization
      (toLowerCase (yo_userAddress o)) (yo_positionIndex o)
      (toLowerCase (yo_fromVault o)) (toLowerCase (yo_toVault o))
      (yo_assetsReallocated o) (yo_previousAPY o) (yo_newAPY o)
      (option_map toLowerCase (yo_transactionHash o)) (yo_timestamp o) in
  tryCatch
    (await (document_save svc doc) ;;;
     (fun s => (Val doc, mkState (ext s) (yieldOptimizations s ++ [doc])
                                 (optimizationThreshold s) (submitted s) (receipts s))))
    (fun e => throw e).

(** [getUsersWithYieldPositions()] *)
Definition getUsersWithYieldPositions : M (list string) :=
  tryCatch (await (distinctActiveUsers svc)) (fun _ => ret []).

(** ** YieldOptimizationService *)

(** The callback of [positions.map] in [getUserPositions].  [Promise.all]
    starts the callbacks in index order; they are run one after the other
    here. *)
Fixpoint enrich (userAddress : string) (index : nat) (positions : list ChainPosition)
  : M (list UserPosition) :=
  match positions with
  | [] => ret []
  | position :: rest =>
      opportunities <- getYieldOpportunities [cp_vault position] "hyperevm" ;;
      let currentAPY :=
        match opportunities with
        | o :: _ => opp_apy o
        | [] => Finite 0
        end in
      others <- enrich userAddress (S index) rest ;;
      ret (mkUserPosition userAddress index (cp_vault position) (cp_asset position)
                          (cp_shares position) (cp_assets position)
                          (Some currentAPY) (cp_active position) :: others)
  end.

(** [getUserPositions(userAddress)] *)
Definition getUserPositions (userAddress : string) : M (list UserPosition) :=
  tryCatch
    (positions <- await (readUserPositions svc userAddress) ;;
     enrich userAddress 0 positions)
    (fun _ => ret []).

(** [findBestYieldOpportunity(currentAsset?)] *)
Definition findBestYieldOpportunity (currentAsset : option string)
  : M (option YieldOpportunity) :=
  findBestYieldForAsset (orStr currentAsset "") GLUEX_VAULTS "hyperevm".

(** The result returned by the two early [return]s of [optimizePosition]. *)
Definition skipped (user : string) (index : Z) (currentPosition : UserPosition)
    (currentAPY : number) (bestOpportunity : YieldOpportunity) (why : Failure)
  : OptimizationResult :=
  mkOptimizationResult false user index
    (vault currentPosition) (opp_vault bestOpportunity) 0 0
    (opp_apy bestOpportunity) currentAPY None (Some why).

(** [private optimizationThreshold: number = 0.5] *)
Definition defaultThreshold : number := Finite (1 # 2).

(** What the first half of [optimizePosition] decides. *)
Inductive Decision :=
| Skip (result : OptimizationResult)
| Proceed (currentPosition : UserPosition) (currentAPY : number)
          (bestOpportunity : YieldOpportunity).

(** The two gates of [optimizePosition]: the threshold and the
    same-vault check, in the order of the source. *)
Definition decide (threshold : number) (user : string) (index : Z)
    (currentPosition : UserPosition) (currentAPY : number)
    (bestOpportunity : YieldOpportunity) : Decision :=
  let apyDifference := fsub (opp_apy bestOpportunity) currentAPY in
  if flt apyDifference threshold
  then Skip (skipped user index currentPosition currentAPY bestOpportunity
                     (BelowThreshold apyDifference threshold))
  else if String.eqb (toLowerCase (opp_vault bestOpportunity))
                     (toLowerCase (vault currentPosition))
  then Skip (skipped user index currentPosition currentAPY bestOpportunity
                     AlreadyInBestVault)
  else Proceed currentPosition currentAPY bestOpportunity.

(** [positions[positionIndex]]: [undefined] outside the array. *)
Definition at_index {A} (l : list A) (index : Z) : option A :=
  if (index <? 0)%Z then None else l !! Z.to_nat index.

(** [optimizePosition], from its start to the same-vault check.  The
    index is an integer: the REST route refuses what [parseInt] does not
    read, and the batch passes the indices of the array.  For a negative
    index [positions[positionIndex]] is [undefined], and reading its
    [active] throws a [TypeError] (the message is the one of V8). *)
Definition evaluate (user : string) (index : Z) : M Decision :=
  positions <- getUserPositions user ;;
  if (Z.of_nat (length positions) <=? index)%Z
  then throw "Invalid or inactive position"
  else
  match at_index positions index with
  | None => throw "Cannot read properties of undefined (reading 'active')"
  | Some currentPosition =>
      if negb (active currentPosition) then throw "Invalid or inactive position"
      else
        let currentAPY := orNum (apy currentPosition) (Finite 0) in
        bestOpportunity <- findBestYieldOpportunity (Some (asset currentPosition)) ;;
        match bestOpportunity with
        | None => throw "No yield opportunities found"
        | Some best =>
            threshold <- getThreshold ;;
            ret (decide threshold user index currentPosition currentAPY best)
        end
  end.

(** [keeperWallet.writeContract] for [optimizePosition]; the argument
    tuple is recorded in [submitted]. *)
Definition submitOptimizePosition (index : N) (args : OptimizeArgs) : M string :=
  (fun s => (Val tt, mkState (ext s) (yieldOptimizations s) (optimizationThreshold s)
                             (submitted s ++ [(index, args)]) (receipts s))) ;;;
  await (writeOptimizePosition svc index args).

(** [this.client.waitForTransactionReceipt({hash: txhash})] for that
    transaction; the answer is recorded in [receipts]. *)
Definition awaitReceipt (txhash : string) : M ReceiptStatus :=
  fun s => let (r, x) := waitForTransactionReceipt svc txhash (ext s) in
           (r, mkState x (yieldOptimizations s) (optimizationThreshold s)
                       (submitted s) (receipts s ++ [r])).

(** The swap legs prepared by [optimizePosition]. *)
Definition prepareSwap (currentPosition : UserPosition) (bestOpportunity : YieldOpportunity)
  : M (list string * list string * list string * list string * list N) :=
  let needsSwap :=
    negb (String.eqb (toLowerCase (asset currentPosition))
                     (toLowerCase (opp_asset bestOpportunity))) in
  if needsSwap
  then
    quote <- await (getQuote svc
                      (mkQuoteParams "hyperevm" (asset currentPosition)
                         (opp_asset bestOpportunity) optimizerContract optimizerContract
                         (toString (assets currentPosition)))) ;;
    match q_success quote, q_result quote with
    | true, Some result =>
        let routerAddress := router result in
        routerWhitelisted <- ensureRouterWhitelisted routerAddress ;;
        if negb routerWhitelisted
        then throw ("Router " ++ routerAddress
                    ++ " is not whitelisted and could not be whitelisted automatically. Please whitelist manually.")
        else ret ([routerAddress], [calldata result], [asset currentPosition],
                  [opp_asset bestOpportunity], [assets currentPosition])
    | _, _ => throw "Failed to get swap quote"
    end
  else ret ([], [], [], [], []).

(** [optimizePosition], from the swap preparation to its last [return]. *)
Definition execute (user : string) (index : Z) (currentPosition : UserPosition)
    (currentAPY : number) (bestOpportunity : YieldOpportunity) : M OptimizationResult :=
  legs <- prepareSwap currentPosition bestOpportunity ;;
  let '(routers, calldatas, inputTokens, outputTokens, inputAmounts) := legs in
  (* const minSharesOut = "0"; *)
  let minSharesOut := 0%N in
  (* BigInt(positionIndex) *)
  txhash <- submitOptimizePosition (Z.to_N index)
              (mkOptimizeArgs routers calldatas inputTokens outputTokens inputAmounts
                              (opp_vault bestOpportunity) minSharesOut) ;;
  receipt <- awaitReceipt txhash ;;
  match receipt with
  | status_success =>
      t <- now ;;
      saveYieldOptimization
        (mkYieldOptimization user index (vault currentPosition)
           (opp_vault bestOpportunity) (assets currentPosition) currentAPY
           (opp_apy bestOpportunity) (Some txhash) t) ;;;
      ret (mkOptimizationResult true user index (vault currentPosition)
             (opp_vault bestOpportunity) (assets currentPosition) 0
             (opp_apy bestOpportunity) currentAPY (Some txhash) None)
  | status_reverted => throw "Transaction failed"
  end.

(** The result built in the [catch] of [optimizePosition]. *)
Definition failed (user : string) (index : Z) (message : string) : OptimizationResult :=
  mkOptimizationResult false user index "" "" 0 0 (Finite 0) (Finite 0) None
                       (Some (Caught message)).

(** [optimizePosition(userAddress, positionIndex)] *)
Definition optimizePosition (user : string) (index : Z) : M OptimizationResult :=
  tryCatch
    (d <- evaluate user index ;;
     match d with
     | Skip result => ret result
     | Proceed currentPosition currentAPY bestOpportunity =>
         execute user index currentPosition currentAPY bestOpportunity
     end)
    (fun errorMessage => ret (failed user index errorMessage)).

(** What a run of [optimizeAllPositions] has counted, and the results of
    its [optimizePosition] calls in order (the function itself only logs
    the two counts). *)
Record Batch := mkBatch {
  optimizedCount : nat;
  skippedCount : nat;
  results : list OptimizationResult
}.

(** [for (const position of positions)] *)
Fixpoint forPositions (user : string) (positions : list UserPosition) (b : Batch) : M Batch :=
  match positions with
  | [] => ret b
  | position :: rest =>
      if negb (active position) then forPositions user rest b
      else
        result <- optimizePosition user (Z.of_nat (positionIndex position)) ;;
        forPositions user rest
          (if success result
           then mkBatch (S (optimizedCount b)) (skippedCount b) (results b ++ [result])
           else mkBatch (optimizedCount b) (S (skippedCount b)) (results b ++ [result]))
  end.

(** [for (const userAddress of users)] *)
Fixpoint forUsers (users : list string) (b : Batch) : M Batch :=
  match users with
  | [] => ret b
  | user :: rest =>
      positions <- getUserPositions user ;;
      b' <- forPositions user positions b ;;
      forUsers rest b'
  end.

(** [optimizeAllPositions()]; [None] is the [catch] branch. *)
Definition optimizeAllPositions : M (option Batch) :=
  tryCatch
    (users <- getUsersWithYieldPositions ;;
     b <- forUsers users (mkBatch 0 0 []) ;;
     ret (Some b))
    (fun _ => ret None).

(** ** Vocabulary of the properties *)

(** [o] is the entry of [l] with the highest [apy], the first of them when
    several have it; [None] when [l] is empty. *)
Definition BestOf (l : list YieldOpportunity) (o : option YieldOpportunity) : Prop :=
  match o with
  | None => l = []
  | Some x =>
      exists l1 l2,
        l = l1 ++ x :: l2 /\
        Forall (fun y => flt (opp_apy y) (opp_apy x) = true) l1 /\
        Forall (fun y => fle (opp_apy y) (opp_apy x) = true) l2
  end.

(** Sorted by descending [apy]. *)
Definition Descending (l : list YieldOpportunity) : Prop :=
  Sorted.StronglySorted (fun a b => fle (opp_apy b) (opp_apy a) = true) l.

(** With a positive yield. *)
Definition positive (o : YieldOpportunity) : Prop := flt (Finite 0) (opp_apy o) = true.

(** With a yield that is a number. *)
Definition numeric (o : YieldOpportunity) : Prop := opp_apy o <> NaN.

(** [m] leaves the store, the threshold and the two histories as they
    are: it only talks to the outside. *)
Definition ReadOnly {A} (m : M A) : Prop :=
  forall st,
    yieldOptimizations (snd (m st)) = yieldOptimizations st /\
    optimizationThreshold (snd (m st)) = optimizationThreshold st /\
    submitted (snd (m st)) = submitted st /\
    receipts (snd (m st)) = receipts st.

(** From [st] to [st']: the threshold is the same, the store has only
    received new documents at its end, and every call that was submitted
    in between has [minSharesOut = 0]. *)
Definition Grows (st st' : State) : Prop :=
  optimizationThreshold st' = optimizationThreshold st /\
  (exists docs, yieldOptimizations st' = yieldOptimizations st ++ docs) /\
  (exists calls, submitted st' = submitted st ++ calls /\
                 Forall (fun call => minSharesOut (snd call) = 0%N) calls).

(** The reading of a vault is of no use: the query throws, reports a
    failure, carries no data, or its yield is not positive. *)
Definition noOpportunity (r : Res HistoricalAPYResponse) : Prop :=
  match r with
  | Throw _ => True
  | Val response =>
      match apy_success response, apy_data response with
      | true, Some d => flt (Finite 0) (usableApy d) = false
      | _, _ => True
      end
  end.

(** The state with another outside. *)
Definition withExt (x : X) (s : State) : State :=
  mkState x (yieldOptimizations s) (optimizationThreshold s) (submitted s) (receipts s).

(** What the reading [r] of [vault], taken at time [t], offers: an
    opportunity with the yield read off the data when that is positive,
    and nothing when the query throws, reports a failure, carries no data,
    or gives no positive yield. *)
Definition opportunityOf (vault : string) (t : N) (r : Res HistoricalAPYResponse)
  : option YieldOpportunity :=
  match r with
  | Throw _ => None
  | Val response =>
      match apy_success response, apy_data response with
      | true, Some d =>
          if flt (Finite 0) (usableApy d)
          then Some (mkYieldOpportunity vault (orStr (data_asset d) "unknown")
                       (usableApy d) (orNum (currentAPY d) (usableApy d)) t)
          else None
      | _, _ => None
      end
  end.

(** The vaults are asked one after the other, from the outside [x]; each
    one whose reading offers an opportunity is listed, in the order of the
    vaults.  The second component is the outside after the last query. *)
Fixpoint gather (chainID : string) (vaults : list string) (x : X)
  : list YieldOpportunity * X :=
  match vaults with
  | [] => ([], x)
  | vault :: rest =>
      let (r, x1) := getHistoricalAPY svc chainID vault x in
      let (others, x2) := gather chainID rest x1 in
      (option_list (opportunityOf vault (Date_now svc x1) r) ++ others, x2)
  end.

(** The document that [optimizePosition] saves for a move of [pos] to
    [best] that was confirmed, as the store keeps it. *)
Definition recordOf (user : string) (index : Z) (pos : UserPosition) (cur : number)
    (best : YieldOpportunity) (txhash : string) (t : N) : YieldOptimization :=
  mkYieldOptimization (toLowerCase user) index (toLowerCase (vault pos))
    (toLowerCase (opp_vault best)) (assets pos) cur (opp_apy best)
    (Some (toLowerCase txhash)) t.

(** The user and index a result is about. *)
Definition resultKey (r : OptimizationResult) : string * Z :=
  (res_userAddress r, res_positionIndex r).

End Service.

(** The argument tuple as the contract receives it; [addr] and [bytes] are
    the decoding of hexadecimal strings done by the ABI encoder. *)
Definition encodeArgs (addr : string -> Ledger.address) (bytes : string -> list byte)
    (args : OptimizeArgs) : Ledger.OptimizeParams :=
  Ledger.mkOptimizeParams
    (map addr (routers args)) (map bytes (calldatas args))
    (map addr (inputTokens args)) (map addr (outputTokens args))
    (inputAmounts args) (addr (targetVault args)) (minSharesOut args).

Arguments mkState {X}.
Arguments ext {X}.
Arguments yieldOptimizations {X}.
Arguments optimizationThreshold {X}.
Arguments submitted {X}.
Arguments receipts {X}.

End Backend.

(* ===================================================================== *)
(** * A scripted outside world for the engine                            *)
(* ===================================================================== *)

Module BackendTest.

Import Backend.
Local Open Scope Q_scope.
Local Open Scope string_scope.

(** The outside state is the number of yield queries made so far, so that
    a script can let the oracle fail for a while. *)
Record Script := mkScript {
  s_oracle : nat -> string -> Res HistoricalAPYResponse;
  s_positions : string -> Res (list ChainPosition);
  s_users : Res (list string);
  s_quote : QuoteParams -> Res QuoteResponse;
  s_routerListed : Res bool;
  s_receipt : Res ReceiptStatus;
  s_save : Res unit
}.

Definition scripted (sc : Script) : Services nat :=
  mkServices nat
    (fun _ vault n => (s_oracle sc n vault, S n))
    (fun user n => (s_positions sc user, n))
    (fun _ n => (s_routerListed sc, n))
    (fun _ _ n => (Val "0xlist", n))
    (fun _ _ n => (Val "0xABC", n))
    (fun _ n => (s_receipt sc, n))
    (fun q n => (s_quote sc q, n))
    (fun _ n => (s_save sc, n))
    (fun n => (s_users sc, n))
    (fun n => N.of_nat n).

Definition vaultA : string := "0xe25514992597786e07872e6c5517fe1906c0cadd".
Definition vaultB : string := "0xcdc3975df9d1cf054f44ed238edfb708880292ea".
Definition usdc : string := "0xUSDC".
Definition weth : string := "0xWETH".

Definition reading (asset : string) (apy : number) : Res HistoricalAPYResponse :=
  Val (mkHistoricalAPYResponse true (Some (mkAPYData None (Some asset) [] None (Some apy))) None).

Definition noReading : Res HistoricalAPYResponse :=
  Val (mkHistoricalAPYResponse false None (Some "HTTP error! Status: 500")).

(** Vault A yields 3%, vault B 4.2%, both on the same asset; the other
    vaults give no reading. *)
Definition oracleAB (assetB : string) (_ : nat) (vault : string) : Res HistoricalAPYResponse :=
  if String.eqb vault vaultA then reading usdc (Finite 3)
  else if String.eqb vault vaultB then reading assetB (literal 42 10)
  else noReading.

Definition inVaultA (_ : string) : Res (list ChainPosition) :=
  Val [mkChainPosition vaultA usdc 100 100 true].

Definition noQuote (_ : QuoteParams) : Res QuoteResponse :=
  Val (mkQuoteResponse false None).

Definition scriptAB : Script :=
  mkScript (oracleAB usdc) inVaultA (Val ["0xu1"; "0xu2"; "0xu3"]) noQuote
           (Val true) (Val status_success) (Val tt).

Definition start (threshold : number) : State :=
  mkState 0%nat [] threshold [] [].

(** Only vault A gives a reading. *)
Definition oracleOnlyA (_ : nat) (vault : string) : Res HistoricalAPYResponse :=
  if String.eqb vault vaultA then reading usdc (Finite 3) else noReading.

Definition scriptOnlyA : Script :=
  mkScript oracleOnlyA inVaultA (Val ["0xu1"]) noQuote
           (Val true) (Val status_success) (Val tt).

(** The position is in another asset than the one the vaults serve. *)
Definition wethInVaultA (_ : string) : Res (list ChainPosition) :=
  Val [mkChainPosition vaultA weth 100 100 true].

Definition scriptWeth : Script :=
  mkScript (oracleAB usdc) wethInVaultA (Val ["0xu1"]) noQuote
           (Val true) (Val status_success) (Val tt).

(** The transaction is confirmed, the store refuses the document. *)
Definition scriptStoreDown : Script :=
  mkScript (oracleAB usdc) inVaultA (Val ["0xu1"]) noQuote
           (Val true) (Val status_success) (Throw "store unavailable").

(** The transaction is mined and reverted. *)
Definition scriptReverted : Script :=
  mkScript (oracleAB usdc) inVaultA (Val ["0xu1"]) noQuote
           (Val true) (Val status_reverted) (Val tt).

(** A position in vault A as the chain prints its address, in upper case,
    and the opportunity that vault A offers. *)
Definition positionInA : UserPosition :=
  mkUserPosition "0xu1" 0 "0xE25514992597786E07872E6C5517FE1906C0CADD" usdc
                 100 100 (Some (Finite 3)) true.

Definition opportunityA : YieldOpportunity :=
  mkYieldOpportunity vaultA usdc (Finite 9) (Finite 9) 0.

Definition vaultC : string := "0x8f9291606862eef771a97e5b71e4b98fd1fa216a".

(** Vaults A, B and C all yield 0.1%. *)
Definition oracleTenth (_ : nat) (vault : string) : Res HistoricalAPYResponse :=
  if String.eqb vault vaultA || String.eqb vault vaultB || String.eqb vault vaultC
  then reading usdc (literal 1 10)
  else noReading.

Definition scriptTenth : Script :=
  mkScript oracleTenth inVaultA (Val ["0xu1"]) noQuote
           (Val true) (Val status_success) (Val tt).

(** Only vault B gives a reading, of 0.7%. *)
Definition oracleOnlyB (_ : nat) (vault : string) : Res HistoricalAPYResponse :=
  if String.eqb vault vaultB then reading usdc (literal 7 10) else noReading.

Definition scriptOnlyB : Script :=
  mkScript oracleOnlyB inVaultA (Val ["0xu1"; "0xu2"; "0xu3"]) noQuote
           (Val true) (Val status_success) (Val tt).

(** The oracle throws on its queries 7 to 13, which are the ones made
    while the second of three users is handled. *)
Definition oracleOutage (n : nat) (vault : string) : Res HistoricalAPYResponse :=
  if ((7 <=? n) && (n <=? 13))%nat then Throw "network error" else oracleAB usdc n vault.

Definition scriptOutage : Script :=
  mkScript oracleOutage inVaultA (Val ["0xu1"; "0xu2"; "0xu3"]) noQuote
           (Val true) (Val status_success) (Val tt).

End BackendTest.

(* ===================================================================== *)
(** * The rest of the contract: governance                               *)
(* ===================================================================== *)

Module Governance.

Import Ledger.
Local Open Scope N_scope.

(** The whole storage of [YieldOptimizer]: the part that [deposit],
    [withdraw] and [optimizePosition] read and write ([Ledger.Storage]),
    the owner kept by [Ownable], and the fields that only the governance
    functions use.  ([assetToVault] is never written and is left out.) *)
Record Contract := mkContract {
  ledger : Storage;
  owner : address;
  GLUEX_VAULTS : list address;
  treasury : address;
  protocolFeeBps : uint256
}.

(** [uint256 public constant MAX_FEE_BPS = 100] *)
Definition MAX_FEE_BPS : uint256 := 100.

(** A governance function calls no other contract: it returns the new
    storage or reverts with a reason. *)
Inductive AdminResult :=
| Done (k : Contract)
| Failed (reason : string).

(** [onlyOwner] of OpenZeppelin's [Ownable]: the body runs for the owner
    and the call reverts for everybody else. *)
Definition onlyOwner (sender : address) (body : Contract -> AdminResult)
  : Contract -> AdminResult :=
  fun k => if sender =? owner k then body k else Failed "OwnableUnauthorizedAccount".

Definition setVaults (m : gmap address bool) (s : Storage) : Storage :=
  mkStorage (userPositions s) m (whitelistedRouters s) (paused s).

Definition setRouters (m : gmap address bool) (s : Storage) : Storage :=
  mkStorage (userPositions s) (whitelistedVaults s) m (paused s).

Definition setPausedFlag (b : bool) (s : Storage) : Storage :=
  mkStorage (userPositions s) (whitelistedVaults s) (whitelistedRouters s) b.

Definition withLedger (s : Storage) (k : Contract) : Contract :=
  mkContract s (owner k) (GLUEX_VAULTS k) (treasury k) (protocolFeeBps k).

(** [constructor(_treasury)], deployed by [deployer]: [Ownable(msg.sender)],
    no position, nothing whitelisted, fee 0, not paused. *)
Definition constructor (deployer _treasury : address) : AdminResult :=
  if _treasury =? 0 then Failed "Invalid treasury"
  else Done (mkContract (mkStorage ∅ ∅ ∅ false) deployer [] _treasury 0).

(** [whitelistVault(_vault, _enabled)] *)
Definition whitelistVault (sender _vault : address) (_enabled : bool)
  : Contract -> AdminResult :=
  onlyOwner sender (fun k =>
    if _vault =? 0 then Failed "Invalid vault"
    else Done (withLedger
                 (setVaults (<[_vault := _enabled]> (whitelistedVaults (ledger k)))
                            (ledger k)) k)).

(** The loop of [addGlueXVault]:
    [require(GLUEX_VAULTS[i] != _vault, "Vault already exists")] for every
    index. *)
Fixpoint noneEquals (vaults : list address) (_vault : address) : bool :=
  match vaults with
  | [] => true
  | v :: rest => if v =? _vault then false else noneEquals rest _vault
  end.

(** [addGlueXVault(_vault)] *)
Definition addGlueXVault (sender _vault : address) : Contract -> AdminResult :=
  onlyOwner sender (fun k =>
    if _vault =? 0 then Failed "Invalid vault"
    else if negb (noneEquals (GLUEX_VAULTS k) _vault) then Failed "Vault already exists"
    else Done (mkContract
                 (setVaults (<[_vault := true]> (whitelistedVaults (ledger k)))
                            (ledger k))
                 (owner k) (GLUEX_VAULTS k ++ [_vault]) (treasury k)
                 (protocolFeeBps k))).

(** [whitelistRouter(_router, _enabled)] *)
Definition whitelistRouter (sender _router : address) (_enabled : bool)
  : Contract -> AdminResult :=
  onlyOwner sender (fun k =>
    if _router =? 0 then Failed "Invalid router"
    else Done (withLedger
                 (setRouters (<[_router := _enabled]> (whitelistedRouters (ledger k)))
                             (ledger k)) k)).

(** [updateProtocolFee(_newFeeBps)] *)
Definition updateProtocolFee (sender : address) (_newFeeBps : uint256)
  : Contract -> AdminResult :=
  onlyOwner sender (fun k =>
    if _newFeeBps <=? MAX_FEE_BPS
    then Done (mkContract (ledger k) (owner k) (GLUEX_VAULTS k) (treasury k) _newFeeBps)
    else Failed "Fee too high").

(** [setPaused(_paused)] *)
Definition setPaused (sender : address) (_paused : bool) : Contract -> AdminResult :=
  onlyOwner sender (fun k => Done (withLedger (setPausedFlag _paused (ledger k)) k)).

(** The governance calls, as one type. *)
Inductive AdminOp :=
| WhitelistVault (_vault : address) (_enabled : bool)
| AddGlueXVault (_vault : address)
| WhitelistRouter (_router : address) (_enabled : bool)
| UpdateProtocolFee (_newFeeBps : uint256)
| SetPaused (_paused : bool).

Definition adminExec (sender : address) (op : AdminOp) : Contract -> AdminResult :=
  match op with
  | WhitelistVault v b => whitelistVault sender v b
  | AddGlueXVault v => addGlueXVault sender v
  | WhitelistRouter r b => whitelistRouter sender r b
  | UpdateProtocolFee f => updateProtocolFee sender f
  | SetPaused b => setPaused sender b
  end.

(** A governance transaction: a revert leaves the contract as it was. *)
Definition adminTransact (sender : address) (op : AdminOp) (k : Contract) : Contract :=
  match adminExec sender op k with
  | Done k' => k'
  | Failed _ => k
  end.

(** A sequence of governance transactions, each with its sender. *)
Definition adminRun (calls : list (address * AdminOp)) (k : Contract) : Contract :=
  fold_left (fun k call => adminTransact (fst call) (snd call) k) calls k.

(** ** Vocabulary of the properties *)

(** What the governance functions keep: the fee is within its cap, and the
    list of vaults has no zero address and no address twice. *)
Definition WellFormed (k : Contract) : Prop :=
  protocolFeeBps k <= MAX_FEE_BPS /\
  NoDup (GLUEX_VAULTS k) /\
  0 ∉ GLUEX_VAULTS k.

Section Calls.

Context {World : Type}.

(** The input of a ledger operation that its first checks refuse: it does
    not pass the [require]s that come before the first call that changes
    another contract. *)
Definition refused (c : Chain (World := World)) (sender : address) (op : Op) : Prop :=
  match op with
  | Deposit value v a _ =>
      isWhitelisted (whitelistedVaults (storage c)) v = false \/ a = 0 \/ value <> 0
  | Withdraw i n _ =>
      N.of_nat (length (positionsOf (storage c) sender)) <= i \/
      exists p, positionAt c sender i = Some p /\
                (active p = false \/ n = 0 \/ shares p < n)
  | OptimizePosition i p =>
      N.of_nat (length (positionsOf (storage c) sender)) <= i \/
      isWhitelisted (whitelistedVaults (storage c)) (targetVault p) = false \/
      exists q, positionAt c sender i = Some q /\ active q = false
  end.

End Calls.

(** The owner of the concrete examples and a contract it has deployed. *)
Definition admin : address := 99.

Definition deployed : Contract :=
  mkContract (mkStorage ∅ ∅ ∅ false) admin [] admin 0.

End Governance.

(** Concrete states for the contract. *)
Module GovernanceTest.

Import Ledger LedgerTest Governance.
Local Open Scope N_scope.

(** [funded], paused. *)
Definition pausedChain : Chain (World := World) :=
  mkChain (setPausedFlag true (storage funded)) (world funded).

(** Alice has a closed position in slot 0 and 5 shares of [vaultA2], kept
    by the ledger, in slot 1. *)
Definition mixed : Chain (World := World) :=
  mkChain
    (mkStorage (<[alice := [mkPosition vaultA2 tokenA 0 0 false;
                           mkPosition vaultA2 tokenA 5 10 true]]> ∅)
               allVaults allRouters false)
    (mkWorld (<[(tokenA, vaultA2) := 10]> ∅) (<[(vaultA2, LedgerTest.ledger) := 5]> ∅)).

(** A vault that is on no whitelist. *)
Definition unlisted : address := 777.

Definition bob : address := 8.

End GovernanceTest.

(* ===================================================================== *)
(** * The rest of the services                                           *)
(* ===================================================================== *)

(** [GlueXYieldsService.getHistoricalAPY] and [GlueXservice.getQuote], which
    the engine reaches through [Services]; [getYieldStatistics],
    [startOptimization], [stopOptimization] and [isOptimizationRunning] of
    [YieldOptimizationService]; [getYieldOptimizationStats] of
    [DatabaseService]. *)
Module BackendRest.

Import Backend.
Local Open Scope Q_scope.

(** ** JavaScript [||] on optional values *)

Definition falsyNum (a : option number) : bool :=
  match a with
  | Some x => falsy x
  | None => true
  end.

(** [a || b] where [b] may be [undefined] as well. *)
Definition orOptNum (a b : option number) : option number :=
  if falsyNum a then b else a.

Definition orOptStr (a b : option string) : option string :=
  match a with
  | Some EmptyString | None => b
  | Some _ => a
  end.

Definition isEmpty (s : string) : bool :=
  match s with
  | EmptyString => true
  | _ => false
  end.

(** The yield [getYieldOpportunities] reads off the data of a reply:
    [response.data.currentAPY || response.data.averageAPY || 0]. *)
Definition readApy (d : APYData) : number :=
  orNum (currentAPY d) (orNum (averageAPY d) (Finite 0)).

(** ** What the HTTP services answer *)

(** The answer to a [fetch]: [response.ok] is false and [response.text()]
    gave the text, or it is true and [response.json()] gave the body.  A
    [fetch], [text()] or [json()] that throws is a [Throw]. *)
Inductive HttpAnswer (Body : Type) :=
| HttpNotOk (status errorText : string)
| HttpOk (json : Body).
Arguments HttpNotOk {Body}.
Arguments HttpOk {Body}.

(** [interface HistoricalAPYParams] ([timeRange] is not read). *)
Record HistoricalAPYParams := mkHistoricalAPYParams {
  p_chainID : string;
  p_vault : option string;
  p_asset : option string;
  p_lpTokenAddress : option string
}.

(** A point of [historical_apy] as the service sends it. *)
Record RawPoint := mkRawPoint {
  rp_timestamp : option N;
  rp_apy : option number;
  rp_apr : option number
}.

(** The fields of the body that [getHistoricalAPY] reads.  The two series
    are present when [Array.isArray] holds of them. *)
Record RawData := mkRawData {
  historical_apy : option (list RawPoint);
  raw_historicalAPY : option (list APYPoint);
  input_token : option string;
  raw_asset : option string;
  current_apy : option number;
  raw_apy : option number;
  raw_currentAPY : option number;
  average_apy : option number;
  raw_averageAPY : option number
}.

(** The body: its own fields, and its [data] field when it has one. *)
Record RawBody := mkRawBody {
  body_data : option RawData;
  body_top : RawData
}.

(** [process.env] *)
Record Env := mkEnv {
  GLUEX_API_KEY : option string;
  PID : option string
}.

(** What [getQuote] posts: the parameters, [uniquePID] and the key of the
    [x-api-key] header. *)
Record QuoteRequest := mkQuoteRequest {
  req_params : QuoteParams;
  req_uniquePID : string;
  req_apiKey : string
}.

(** The body of a quote; the engine reads its [result]. *)
Record RawQuote := mkRawQuote {
  raw_result : option QuoteResult
}.

(** [interface QuoteResponse] of GlueXservice.ts *)
Record QuoteReply := mkQuoteReply {
  reply_success : bool;
  reply_data : option RawQuote;
  reply_error : option string
}.

(** [{ vaults, averageAPY, highestAPY, timestamp }] *)
Record YieldStatistics := mkYieldStatistics {
  stat_vaults : list YieldOpportunity;
  stat_averageAPY : number;
  stat_highestAPY : number;
  stat_timestamp : N
}.

(** The result of [getYieldOptimizationStats];
    [totalAssetsReallocated] is kept as the number it prints. *)
Record OptimizationStats := mkOptimizationStats {
  totalOptimizations : nat;
  successfulOptimizations : nat;
  totalAssetsReallocated : N;
  averageAPYImprovement : number
}.

Section Clients.

Context {X : Type}.
(** [Date.now()] *)
Variable Date_now : X -> N.
(** [fetch] of the yield API with the body made from the parameters. *)
Variable fetchHistoricalAPY : HistoricalAPYParams -> X -> Res (HttpAnswer RawBody) * X.
(** [fetch] of the quote API. *)
Variable fetchQuote : QuoteRequest -> X -> Res (HttpAnswer RawQuote) * X.
Variable env : Env.

(** The callback of [responseData.historical_apy.map]. *)
Definition mapPoint (t : N) (point : RawPoint) : APYPoint :=
  mkAPYPoint
    (match rp_timestamp point with
     | Some (Npos _ as timestamp) => timestamp
     | _ => t
     end)
    (orNum (rp_apy point) (Finite 0))
    (orNum (rp_apr point) (orNum (rp_apy point) (Finite 0))).

(** [mappedData] at the [return] of [getHistoricalAPY]. *)
Definition mapResponse (t : N) (params : HistoricalAPYParams) (data : RawBody) : APYData :=
  let responseData :=
    match body_data data with
    | Some inner => inner
    | None => body_top data
    end in
  let historicalAPY :=
    match historical_apy responseData with
    | Some points => map (mapPoint t) points
    | None =>
        match raw_historicalAPY responseData with
        | Some points => points
        | None => []
        end
    end in
  let asset :=
    orOptStr (input_token responseData)
             (orOptStr (raw_asset responseData) (p_asset params)) in
  let currentAPY :=
    orOptNum (current_apy responseData)
             (orOptNum (raw_apy responseData) (raw_currentAPY responseData)) in
  let averageAPY :=
    orOptNum (average_apy responseData) (raw_averageAPY responseData) in
  if falsyNum currentAPY && falsyNum averageAPY && (0 <? length historicalAPY)%nat
  then
    (* const sum = historicalAPY.reduce(...); sum / historicalAPY.length *)
    let average := seriesAverage historicalAPY in
    mkAPYData (p_vault params) asset historicalAPY (Some average)
              (Some (orNum (option_map pt_apy (last historicalAPY)) average))
  else mkAPYData (p_vault params) asset historicalAPY averageAPY currentAPY.

(** [getHistoricalAPY(params)]: the three ways out of its [try]. *)
Definition getHistoricalAPY (params : HistoricalAPYParams)
  : X -> Res HistoricalAPYResponse * X :=
  fun x =>
    match fetchHistoricalAPY params x with
    | (Val (HttpOk data), x') =>
        (Val (mkHistoricalAPYResponse true
                (Some (mapResponse (Date_now x') params data)) None), x')
    | (Val (HttpNotOk status errorText), x') =>
        (* throw new Error(`HTTP error! ...`), caught below *)
        (Val (mkHistoricalAPYResponse false None
                (Some ("HTTP error! Status: " ++ status ++ ", Message: " ++ errorText)%string)),
         x')
    | (Throw message, x') =>
        (Val (mkHistoricalAPYResponse false None (Some message)), x')
    end.

(** The query that [getYieldOpportunities] makes for a vault. *)
Definition vaultQuery (chainID vault : string) : HistoricalAPYParams :=
  mkHistoricalAPYParams chainID (Some vault) None (Some vault).

Definition quoteFailure (message : string) : QuoteReply :=
  mkQuoteReply false None (Some message).

(** [!process.env.NAME] *)
Definition unset (v : option string) : bool :=
  match v with
  | Some (String _ _) => false
  | _ => true
  end.

(** [getQuote(params)] *)
Definition getQuote (params : QuoteParams) : X -> Res QuoteReply * X :=
  fun x =>
    if unset (GLUEX_API_KEY env)
    then (Val (quoteFailure "GLUEX_API_KEY environment variable is not set"), x)
    else if unset (PID env)
    then (Val (quoteFailure "PID environment variable is not set"), x)
    else if isEmpty (chainID params) || isEmpty (inputToken params)
            || isEmpty (outputToken params) || isEmpty (inputAmount params)
            || isEmpty (q_userAddress params) || isEmpty (outputReceiver params)
    then (Val (quoteFailure "Missing required parameters for quote request"), x)
    else
      match fetchQuote (mkQuoteRequest params (default EmptyString (PID env))
                                       (default EmptyString (GLUEX_API_KEY env))) x with
      | (Val (HttpOk data), x') => (Val (mkQuoteReply true (Some data) None), x')
      | (Val (HttpNotOk status errorText), x') =>
          (Val (quoteFailure
                  ("HTTP error! Status: " ++ status ++ ", Message: " ++ errorText)%string),
           x')
      | (Throw message, x') => (Val (quoteFailure message), x')
      end.

(** What [optimizePosition] reads of a reply: [quote.success] and
    [quote.data?.result]. *)
Definition readReply (reply : QuoteReply) : QuoteResponse :=
  mkQuoteResponse (reply_success reply)
                  (match reply_data reply with
                   | Some data => raw_result data
                   | None => None
                   end).

(** The services with the two clients above in the place of the yield and
    quote answers. *)
Definition withClients (svc : Services X) : Services X :=
  mkServices X
    (fun chainID vault x => getHistoricalAPY (vaultQuery chainID vault) x)
    (readUserPositions svc)
    (readWhitelistedRouters svc)
    (writeWhitelistRouter svc)
    (writeOptimizePosition svc)
    (waitForTransactionReceipt svc)
    (fun params x => let (r, x') := getQuote params x in
                     (match r with
                      | Val reply => Val (readReply reply)
                      | Throw e => Throw e
                      end, x'))
    (document_save svc)
    (distinctActiveUsers svc)
    Date_now.

End Clients.

Section Reports.

Context {X : Type}.
Variable svc : Services X.
(** [YieldOptimization.find()] answers or throws; what it answers with is
    the collection. *)
Variable collection_find : X -> Res unit * X.

Notation "x <- m ;; k" := (bind m (fun x => k))
  (at level 100, m at next level, right associativity).
Notation "m ;;; k" := (bind m (fun _ => k))
  (at level 100, right associativity).

(** [Math.max(...values)]: [NaN] when one of the values is, and
    [-Infinity] of no value. *)
Definition Math_max (values : list number) : number :=
  fold_left (fun m x => match m, x with
                        | NaN, _ | _, NaN => NaN
                        | _, _ => if flt m x then x else m
                        end)
            values (Infinity true).

(** [getYieldStatistics()] *)
Definition getYieldStatistics : M (X := X) YieldStatistics :=
  opportunities <- getYieldOpportunities svc GLUEX_VAULTS "hyperevm" ;;
  let averageAPY :=
    if (0 <? length opportunities)%nat
    then fdiv (fold_left (fun sum opp => fadd sum (opp_apy opp)) opportunities (Finite 0))
              (ofNat (length opportunities))
    else Finite 0 in
  let highestAPY :=
    if (0 <? length opportunities)%nat
    then Math_max (map opp_apy opportunities)
    else Finite 0 in
  t <- now svc ;;
  ret (mkYieldStatistics opportunities averageAPY highestAPY t).

(** [opt.transactionHash] as a condition. *)
Definition hasHash (opt : YieldOptimization) : bool :=
  match yo_transactionHash opt with
  | Some (String _ _) => true
  | _ => false
  end.

(** The figures of [getYieldOptimizationStats] from the documents found. *)
Definition statsOf (optimizations : list YieldOptimization) : OptimizationStats :=
  let totalOptimizations := length optimizations in
  let successfulOptimizations := length (List.filter hasHash optimizations) in
  let totalAssetsReallocated :=
    fold_left (fun sum opt => (sum + yo_assetsReallocated opt)%N) optimizations 0%N in
  let apyImprovements :=
    map (fun opt => fsub (yo_newAPY opt) (yo_previousAPY opt)) optimizations in
  let averageAPYImprovement :=
    if (0 <? length apyImprovements)%nat
    then fdiv (fold_left (fun sum imp => fadd sum imp) apyImprovements (Finite 0))
              (ofNat (length apyImprovements))
    else Finite 0 in
  mkOptimizationStats totalOptimizations successfulOptimizations
                      totalAssetsReallocated averageAPYImprovement.

(** [getYieldOptimizationStats()]; its [catch] throws the error again. *)
Definition getYieldOptimizationStats : M (X := X) OptimizationStats :=
  tryCatch
    (await collection_find ;;;
     (fun s => (Val (statsOf (yieldOptimizations s)), s)))
    (fun e => throw e).

End Reports.

(** ** The hourly job *)

(** The two fields [optimizationJob] and [isRunning] of the service, and
    the tasks of the cron library: a task is known by the number of tasks
    scheduled before it, and [live] are the tasks that were scheduled and
    not stopped. *)
Record Schedule := mkSchedule {
  optimizationJob : option nat;
  isRunning : bool;
  live : list nat;
  scheduledSoFar : nat
}.

(** The fields as the class declares them, with no task scheduled. *)
Definition idle : Schedule := mkSchedule None false [] 0.

(** [startOptimization()] *)
Definition startOptimization (s : Schedule) : Schedule :=
  if isRunning s then s
  else
    (* cron.schedule("0 * * * *", ...) *)
    let task := scheduledSoFar s in
    mkSchedule (Some task) true (live s ++ [task]) (S (scheduledSoFar s)).

(** [stopOptimization()] *)
Definition stopOptimization (s : Schedule) : Schedule :=
  match optimizationJob s with
  | Some task =>
      (* this.optimizationJob.stop() *)
      mkSchedule None false (List.filter (fun t => negb (Nat.eqb t task)) (live s))
                 (scheduledSoFar s)
  | None => mkSchedule None false (live s) (scheduledSoFar s)
  end.

(** [isOptimizationRunning()] *)
Definition isOptimizationRunning (s : Schedule) : bool := isRunning s.

Inductive ScheduleCall := Start | Stop.

Definition scheduleCall (s : Schedule) (call : ScheduleCall) : Schedule :=
  match call with
  | Start => startOptimization s
  | Stop => stopOptimization s
  end.

Definition scheduleCalls (calls : list ScheduleCall) (s : Schedule) : Schedule :=
  fold_left scheduleCall calls s.

(** ** Vocabulary of the properties *)

(** The swap legs of a call for moving [pos] to [best]: none when both
    are in the same asset, else one leg that sells all the assets of the
    position for the asset of the target vault. *)
Definition LegsFor (pos : UserPosition) (best : YieldOpportunity) (args : OptimizeArgs)
  : Prop :=
  (toLowerCase (asset pos) = toLowerCase (opp_asset best) /\
   routers args = [] /\ calldatas args = [] /\ inputTokens args = [] /\
   outputTokens args = [] /\ inputAmounts args = []) \/
  (toLowerCase (asset pos) <> toLowerCase (opp_asset best) /\
   exists routerAddress data,
     routers args = [routerAddress] /\ calldatas args = [data] /\
     inputTokens args = [asset pos] /\ outputTokens args = [opp_asset best] /\
     inputAmounts args = [assets pos]).

(** A record of a move whose gain, the difference [newAPY - previousAPY]
    as the engine computes it, is not below [threshold], and which goes to
    another vault. *)
Definition Worthwhile (threshold : number) (doc : YieldOptimization) : Prop :=
  flt (fsub (yo_newAPY doc) (yo_previousAPY doc)) threshold = false /\
  yo_fromVault doc <> yo_toVault doc.

(** From [st] to [st']: the threshold is the same and the store has only
    received, at its end, records that are worthwhile at that threshold. *)
Definition Kept {X} (st st' : State (X := X)) : Prop :=
  optimizationThreshold st' = optimizationThreshold st /\
  exists docs,
    yieldOptimizations st' = yieldOptimizations st ++ docs /\
    Forall (Worthwhile (optimizationThreshold st)) docs.

(** [m] only talks to the outside: what it returns and what it leaves
    outside depend on the outside state alone, and the store, the threshold
    and the two histories are left as they are. *)
Definition ExtOnly {X A} (m : M (X := X) A) : Prop :=
  forall st yo t sub rec,
    m (mkState (ext st) yo t sub rec)
      = (fst (m st), mkState (ext (snd (m st))) yo t sub rec).

End BackendRest.

(** Concrete answers of the two HTTP services. *)
Module BackendRestTest.

Import Backend BackendTest BackendRest.
Local Open Scope Q_scope.
Local Open Scope string_scope.

Definition noData : RawData :=
  mkRawData None None None None None None None None None.

(** A body with a series of three points and neither a current nor an
    average yield. *)
Definition seriesBody : RawBody :=
  mkRawBody
    (Some (mkRawData
             (Some [mkRawPoint (Some 10%N) (Some (Finite 2)) None;
                    mkRawPoint None (Some (Finite 3)) (Some (Finite 1));
                    mkRawPoint (Some 30%N) (Some (Finite 4)) None])
             None (Some usdc) None None None None None None))
    noData.

(** A body whose series only has zero yields. *)
Definition flatBody : RawBody :=
  mkRawBody None
    (mkRawData (Some [mkRawPoint None None None; mkRawPoint None (Some (Finite 0)) None])
               None (Some usdc) None None None None None None).

(** The yield API: vault A answers with [seriesBody], vault B with
    [flatBody], the others with status 500.  The outside state counts the
    requests. *)
Definition yieldApi (params : HistoricalAPYParams) (n : nat)
  : Res (HttpAnswer RawBody) * nat :=
  (match p_vault params with
   | Some v =>
       if String.eqb v vaultA then Val (HttpOk seriesBody)
       else if String.eqb v vaultB then Val (HttpOk flatBody)
       else Val (HttpNotOk "500" "down")
   | None => Throw "fetch failed"
   end, S n).

Definition routeVia (router : string) : RawQuote :=
  mkRawQuote (Some (mkQuoteResult router "0xcafe")).

Definition quoteApi (request : QuoteRequest) (n : nat) : Res (HttpAnswer RawQuote) * nat :=
  (Val (HttpOk (routeVia "0xrouter")), S n).

Definition fullEnv : Env := mkEnv (Some "key") (Some "pid").

Definition clock (n : nat) : N := N.of_nat n.

Definition usdcToWeth : QuoteParams :=
  mkQuoteParams "hyperevm" usdc weth "0xopt" "0xopt" "100".

(** The scripted services of [scriptAB] behind the two clients. *)
Definition wired (env : Env) : Services nat :=
  withClients clock yieldApi quoteApi env (scripted scriptAB).

End BackendRestTest.

(* ===================================================================== *)
(** * Properties of the ledger                                           *)
(* ===================================================================== *)

Module LedgerFacts.

Import Ledger.
Local Open Scope N_scope.

Section Logic.

Context {World : Type}.
Variable ext : Externals World.
Variable this : address.

Abbreviation Chain := (Chain (World := World)).
Abbreviation Tx := (Tx (World := World)).

Implicit Types (c : Chain) (s : Storage) (p q : Position) (user sender : address).

(** ** Storage lemmas *)

Lemma positionsOf_writeAt_same user i q s :
  positionsOf (writeAt user i q s) user = <[N.to_nat i := q]> (positionsOf s user).
Proof.
  unfold writeAt, setPositions, positionsOf at 1. simpl.
  by rewrite lookup_insert_eq.
Qed.

Lemma positionsOf_writeAt_other user user' i q s :
  user <> user' -> positionsOf (writeAt user i q s) user' = positionsOf s user'.
Proof.
  intros Hne. unfold writeAt, setPositions, positionsOf at 1. simpl.
  by rewrite lookup_insert_ne.
Qed.

Lemma writeAt_writeAt user i q q' s :
  writeAt user i q (writeAt user i q' s) = writeAt user i q s.
Proof.
  unfold writeAt at 1. rewrite positionsOf_writeAt_same, list_insert_insert_eq.
  unfold writeAt, setPositions. simpl. by rewrite insert_insert_eq.
Qed.

Lemma writeAt_flags user i q s :
  whitelistedVaults (writeAt user i q s) = whitelistedVaults s /\
  whitelistedRouters (writeAt user i q s) = whitelistedRouters s /\
  paused (writeAt user i q s) = paused s.
Proof. done. Qed.

(** The setter calls of a callee write no position. *)
Lemma userPositions_reenter ws s : userPositions (reenter ws s) = userPositions s.
Proof.
  revert s. induction ws as [| w ws IH]; intros s; [done|].
  cbn [reenter fold_left]. change (fold_left _ ws ?s') with (reenter ws s').
  rewrite IH. destruct w as [a b | a b | b]; cbn [setter]; [| | done];
    by destruct (a =? 0).
Qed.

Lemma positionsOf_reenter ws s user : positionsOf (reenter ws s) user = positionsOf s user.
Proof. unfold positionsOf. by rewrite userPositions_reenter. Qed.

Lemma reenter_app ws1 ws2 s : reenter (ws1 ++ ws2) s = reenter ws2 (reenter ws1 s).
Proof. apply fold_left_app. Qed.

(** Reading back the slot that was written, and any other slot. *)
Lemma lookup_writeAt_same user i q s :
  (N.to_nat i < length (positionsOf s user))%nat ->
  positionsOf (writeAt user i q s) user !! N.to_nat i = Some q.
Proof.
  intros Hlt. rewrite positionsOf_writeAt_same. by apply list_lookup_insert_eq.
Qed.

Lemma lookup_writeAt_other user i q s user' (j : nat) :
  (user', j) <> (user, N.to_nat i) ->
  positionsOf (writeAt user i q s) user' !! j = positionsOf s user' !! j.
Proof.
  intros Hne. destruct (decide (user = user')) as [<- | Hu].
  - rewrite positionsOf_writeAt_same. apply list_lookup_insert_ne. congruence.
  - by rewrite positionsOf_writeAt_other.
Qed.

(** ** Rules of [wp] *)

Lemma wp_bind {A B} (m : Tx A) (k : A -> Tx B) Qok Qrev c :
  wp m (fun a c' => wp (k a) Qok Qrev c') Qrev c -> wp (bind m k) Qok Qrev c.
Proof. unfold wp, bind. by destruct (m c). Qed.

Lemma wp_ret {A} (a : A) (Qok : A -> Chain -> Prop) Qrev c :
  Qok a c -> wp (ret a) Qok Qrev c.
Proof. done. Qed.

Lemma wp_require (b : bool) reason (Qok : unit -> Chain -> Prop) Qrev c :
  (b = true -> Qok tt c) -> (b = false -> Qrev reason c) ->
  wp (require b reason) Qok Qrev c.
Proof. unfold wp, require. destruct b; auto. Qed.

Lemma wp_sload (Qok : Storage -> Chain -> Prop) Qrev c :
  Qok (storage c) c -> wp sload Qok Qrev c.
Proof. done. Qed.

Lemma wp_staticcall {A} (f : World -> Answer A) (Qok : A -> Chain -> Prop) Qrev c :
  (forall a, f (world c) = Returned a -> Qok a c) ->
  (forall e, f (world c) = Reverts e -> Qrev e c) ->
  wp (staticcall f) Qok Qrev c.
Proof. unfold wp, staticcall. destruct (f (world c)); auto. Qed.

Lemma wp_call {A} (f : World -> Answer (A * World * list SetterCall))
    (Qok : A -> Chain -> Prop) Qrev c :
  (forall a w ws, f (world c) = Returned (a, w, ws) ->
                  Qok a (mkChain (reenter ws (storage c)) w)) ->
  (forall e, f (world c) = Reverts e -> Qrev e c) ->
  wp (call f) Qok Qrev c.
Proof. unfold wp, call. destruct (f (world c)) as [[[a w] ws] | e]; auto. Qed.

Lemma wp_positionsLength user (Qok : uint256 -> Chain -> Prop) Qrev c :
  Qok (N.of_nat (length (positionsOf (storage c) user))) c ->
  wp (positionsLength user) Qok Qrev c.
Proof. done. Qed.

Lemma wp_loadPosition user i (Qok : Position -> Chain -> Prop) Qrev c :
  (forall p, positionAt c user i = Some p -> Qok p c) ->
  (positionAt c user i = None -> Qrev "Panic(0x32)"%string c) ->
  wp (loadPosition user i) Qok Qrev c.
Proof.
  unfold wp, loadPosition, positionAt, bind, sload. simpl.
  destruct (positionsOf (storage c) user !! N.to_nat i); simpl; auto.
Qed.

Lemma wp_storePosition user i f (Qok : unit -> Chain -> Prop) Qrev c :
  (forall p, positionAt c user i = Some p ->
             Qok tt (mkChain (writeAt user i (f p) (storage c)) (world c))) ->
  (positionAt c user i = None -> Qrev "Panic(0x32)"%string c) ->
  wp (storePosition user i f) Qok Qrev c.
Proof.
  unfold wp, storePosition, loadPosition, positionAt, bind, sload, sstore. simpl.
  destruct (positionsOf (storage c) user !! N.to_nat i); simpl; auto.
Qed.

Lemma wp_checked_sub (a b : uint256) (Qok : uint256 -> Chain -> Prop) Qrev c :
  (b <= a -> Qok (a - b) c) -> (a < b -> Qrev "Panic(0x11)"%string c) ->
  wp (checked_sub a b) Qok Qrev c.
Proof.
  unfold wp, checked_sub. destruct (a <? b) eqn:E; simpl.
  - intros _ H. apply H. by apply N.ltb_lt.
  - intros H _. apply H. by apply N.ltb_ge.
Qed.

Lemma wp_mono {A} (m : Tx A) (Qok Qok' : A -> Chain -> Prop) (Qrev Qrev' : string -> Chain -> Prop) c :
  wp m Qok Qrev c ->
  (forall a c', Qok a c' -> Qok' a c') -> (forall e c', Qrev e c' -> Qrev' e c') ->
  wp m Qok' Qrev' c.
Proof. unfold wp. destruct (m c); auto. Qed.

(** One step of symbolic execution. *)
Ltac wp_step :=
  lazymatch goal with
  | |- wp (ret _) _ _ _ => apply wp_ret
  | |- wp (bind (ret _) _) _ _ _ => apply wp_bind, wp_ret
  | |- wp (bind sload _) _ _ _ => apply wp_bind, wp_sload
  | |- wp (bind (positionsLength _) _) _ _ _ => apply wp_bind, wp_positionsLength
  | |- wp (bind (require _ _) _) _ _ _ => apply wp_bind, wp_require; intros ?Hreq
  | |- wp (bind (staticcall _) _) _ _ _ =>
      apply wp_bind, wp_staticcall; [intros ? ?Hcall | intros ? ?Hcall]
  | |- wp (bind (call _) _) _ _ _ =>
      apply wp_bind, wp_call; [intros ? ? ? ?Hcall | intros ? ?Hcall]
  | |- wp (bind (loadPosition _ _) _) _ _ _ =>
      apply wp_bind, wp_loadPosition; [intros ? ?Hload | intros ?Hload]
  | |- wp (bind (storePosition _ _ _) _) _ _ _ =>
      apply wp_bind, wp_storePosition; [intros ? ?Hload | intros ?Hload]
  | |- wp (bind (checked_sub _ _) _) _ _ _ =>
      apply wp_bind, wp_checked_sub; intros ?Hsub
  end;
  cbv beta.

(** ** Whose reason a revert carries *)

Lemma callee_asset v w e : vault_asset ext v w = Reverts e -> CalleeReverts ext e.
Proof. intros H. left. eauto. Qed.

Lemma callee_deposit v a r w e : vault_deposit ext v a r w = Reverts e -> CalleeReverts ext e.
Proof. intros H. right. left. eauto. Qed.

Lemma callee_redeem v n r o w e :
  vault_redeem ext v n r o w = Reverts e -> CalleeReverts ext e.
Proof. intros H. do 2 right. left. eauto 10. Qed.

Lemma callee_convertToAssets v n w e :
  vault_convertToAssets ext v n w = Reverts e -> CalleeReverts ext e.
Proof. intros H. do 3 right. left. eauto. Qed.

Lemma callee_safeTransferFrom t f o a w e :
  token_safeTransferFrom ext t f o a w = Reverts e -> CalleeReverts ext e.
Proof. intros H. do 4 right. left. eauto 10. Qed.

Lemma callee_safeIncreaseAllowance t sp a w e :
  token_safeIncreaseAllowance ext t sp a w = Reverts e -> CalleeReverts ext e.
Proof. intros H. do 5 right. left. eauto 10. Qed.

Lemma callee_balanceOf t a w e : token_balanceOf ext t a w = Reverts e -> CalleeReverts ext e.
Proof. intros H. do 6 right. eauto. Qed.

Ltac callee :=
  first [ eapply callee_asset; eassumption
        | eapply callee_deposit; eassumption
        | eapply callee_redeem; eassumption
        | eapply callee_convertToAssets; eassumption
        | eapply callee_safeTransferFrom; eassumption
        | eapply callee_safeIncreaseAllowance; eassumption
        | eapply callee_balanceOf; eassumption ].

(** The swap loop calls routers and tokens only: it writes no position,
    and when it reverts the reason is a callee's or one of its own, which
    is never that of the slippage check. *)
Lemma wp_swapLegs (_params : OptimizeParams) (idxs : list nat) c :
  wp (swapLegs ext _params idxs)
     (fun _ c' => userPositions (storage c') = userPositions (storage c))
     (fun e c' => userPositions (storage c') = userPositions (storage c) /\
                  (CalleeReverts ext e \/ e <> "Insufficient shares"%string)) c.
Proof.
  revert c. induction idxs as [|i rest IH]; intros c; [done|].
  simpl. repeat case_match; try (split; [done | by right]).
  wp_step.
  wp_step; [| split; [done | by right]].
  wp_step; [| split; [done | by right]].
  wp_step; [| split; [done | left; callee]].
  apply wp_bind. unfold wp at 1. cbn [storage world].
  destruct (router_call ext _ _ w) as [[w' ws'] |].
  - eapply wp_mono; [apply IH | |]; cbv beta; cbn [storage].
    + intros _ c' ->. by rewrite !userPositions_reenter.
    + intros e c' [-> ?]. by rewrite !userPositions_reenter.
  - cbn [storage]. rewrite userPositions_reenter. split; [done | by right].
Qed.

Lemma swapLegs_app (_params : OptimizeParams) (idxs1 idxs2 : list nat) c :
  swapLegs ext _params (idxs1 ++ idxs2) c
    = bind (swapLegs ext _params idxs1) (fun _ => swapLegs ext _params idxs2) c.
Proof.
  revert c. induction idxs1 as [| i rest IH]; intros c; [done|].
  cbn [app swapLegs].
  destruct (routers _params !! i); [| done].
  destruct (calldatas _params !! i); [| done].
  destruct (inputTokens _params !! i); [| done].
  destruct (outputTokens _params !! i); [| done].
  destruct (inputAmounts _params !! i); [| done].
  unfold bind, sload, require.
  destruct (isWhitelisted _ _); [| done].
  destruct (negb _); [| done].
  destruct (call _ c) as [? c1 | ? c1]; [| done].
  destruct (router_call ext _ _ (world c1)) as [[w' ws'] |]; [| done].
  rewrite IH. done.
Qed.

(** ** What [optimizePosition] does *)

(** ** What [optimizePosition] does *)

Lemma optimizePosition_spec sender i (_params : OptimizeParams) c :
  wp (optimizePosition ext this sender i _params)
     (fun newShares c' =>
        exists p assetsRedeemed w1 ws1 c2 tA balance w3 ws3 ws4,
          paused (storage c) = false /\
          isWhitelisted (whitelistedVaults (storage c)) (targetVault _params) = true /\
          positionAt c sender i = Some p /\ active p = true /\
          vault_redeem ext (vault p) (shares p) this this (world c)
            = Returned (assetsRedeemed, w1, ws1) /\
          legsDone ext _params (mkChain (reenter ws1 (storage c)) w1) c2 /\
          userPositions (storage c2) = userPositions (storage c) /\
          vault_asset ext (targetVault _params) (world c2) = Returned tA /\
          tA <> 0 /\
          token_balanceOf ext tA this (world c2) = Returned balance /\
          0 < balance /\
          token_safeIncreaseAllowance ext tA (targetVault _params) balance (world c2)
            = Returned (tt, w3, ws3) /\
          vault_deposit ext (targetVault _params) balance this w3
            = Returned (newShares, world c', ws4) /\
          minSharesOut _params <= newShares /\
          storage c' =
            writeAt sender i
              (mkPosition (targetVault _params) tA newShares balance (active p))
              (reenter ws4 (reenter ws3 (storage c2))))
     (fun e c' =>
        userPositions (storage c') = userPositions (storage c) /\
        (CalleeReverts ext e \/ e <> "Insufficient shares"%string \/
         0 < minSharesOut _params)) c.
Proof.
  unfold optimizePosition.
  wp_step. wp_step; [| by split; [| right; left]].
  wp_step. wp_step; [| by split; [| right; left]].
  wp_step; [| by split; [| right; left]].
  wp_step; [| by split; [| right; left]].
  wp_step; [| by split; [| right; left]].
  wp_step; [| split; [done | left; callee]].
  rename a into assetsRedeemed, w into w1, ws into ws1.
  apply wp_bind.
  set (c1 := mkChain (reenter ws1 (storage c)) w1).
  set (legs := if (0 <? length (routers _params))%nat then _ else _).
  assert (Hlegs : wp legs
            (fun _ c2 => legsDone ext _params c1 c2 /\
                         userPositions (storage c2) = userPositions (storage c))
            (fun e c' => userPositions (storage c') = userPositions (storage c) /\
                         (CalleeReverts ext e \/ e <> "Insufficient shares"%string))
            c1).
  { subst legs. unfold legsDone.
    destruct (0 <? length (routers _params))%nat eqn:Hlen.
    - wp_step.
      2:{ subst c1. cbn [storage]. rewrite userPositions_reenter.
          split; [done | by right]. }
      apply andb_true_iff in Hreq3 as [Hreq3 H4].
      apply andb_true_iff in Hreq3 as [Hreq3 H3].
      apply andb_true_iff in Hreq3 as [H1 H2].
      apply Nat.eqb_eq in H1, H2, H3, H4.
      pose proof (wp_swapLegs _params (seq 0 (length (routers _params))) c1) as Hloop.
      unfold wp in *.
      destruct (swapLegs ext _params (seq 0 (length (routers _params))) c1)
        as [[] c2 | e c2].
      + subst c1. cbn [storage] in *. rewrite userPositions_reenter in Hloop.
        unfold address, uint256 in *. done.
      + subst c1. cbn [storage] in *. by rewrite userPositions_reenter in Hloop.
    - apply wp_ret. subst c1. cbn [storage]. by rewrite userPositions_reenter. }
  eapply wp_mono; [exact Hlegs | | by intros e c' [-> ?]; split; [| tauto]].
  clear Hlegs legs. intros _ c2 [Hdone Hpos2]. cbv beta.
  wp_step; [| split; [done | left; callee]]. rename a into tA.
  wp_step; [| by split; [| right; left]].
  wp_step; [| split; [done | left; callee]]. rename a into balance.
  wp_step; [| by split; [| right; left]].
  wp_step; [| split; [done | left; callee]]. rename w into w3, ws into ws3.
  wp_step.
  2:{ cbn [storage]. rewrite userPositions_reenter. split; [done | left; callee]. }
  rename a0 into newShares, w into w4, ws into ws4.
  cbn [world storage] in *.
  wp_step.
  2:{ cbn [storage]. rewrite !userPositions_reenter. split; [done|]. right. right.
      apply N.leb_gt in Hreq5. lia. }
  destruct a.
  set (s4 := reenter ws4 (reenter ws3 (storage c2))).
  assert (Hpos4 : positionsOf s4 sender = positionsOf (storage c) sender).
  { subst s4. rewrite !positionsOf_reenter. unfold positionsOf. by rewrite Hpos2. }
  assert (Hlt : (N.to_nat i < length (positionsOf s4 sender))%nat).
  { rewrite Hpos4. apply N.ltb_lt in Hreq0. lia. }
  pose proof (fun q => lookup_writeAt_same sender i q s4 Hlt) as Hsame.
  pose proof Hload as Hp. unfold positionAt in Hp.
  wp_step; unfold positionAt in Hload0; cbn [storage world] in Hload0;
    rewrite Hpos4 in Hload0; [| congruence].
  assert (p0 = p) as -> by congruence. clear Hload0.
  do 3 (wp_step; unfold positionAt in Hload0; cbn [storage world] in Hload0;
        rewrite Hsame in Hload0; [| done];
        injection Hload0 as <-; cbn [storage world]; rewrite writeAt_writeAt).
  wp_step. cbn [storage world].
  exists p, assetsRedeemed, w1, ws1, c2, tA, balance, w3, ws3, ws4.
  apply N.leb_le in Hreq5. apply negb_true_iff, N.eqb_neq in Hreq3.
  apply N.ltb_lt in Hreq4. apply negb_true_iff in Hreq.
  repeat split; done.
Qed.

(** ** What [withdraw] and [deposit] do when they return *)

Lemma withdraw_spec sender i n m c :
  wp (withdraw ext this sender i n m)
     (fun assetsOut c' =>
        exists p value ws,
          paused (storage c) = false /\
          positionAt c sender i = Some p /\ active p = true /\
          0 < n /\ n <= shares p /\
          vault_redeem ext (vault p) n this sender (world c)
            = Returned (assetsOut, world c', ws) /\
          m <= assetsOut /\
          vault_convertToAssets ext (vault p) (shares p - n) (world c') = Returned value /\
          storage c' =
            writeAt sender i
              (mkPosition (vault p) (asset p) (shares p - n) value
                          (if shares p - n =? 0 then false else active p))
              (reenter ws (storage c)))
     (fun _ _ => True) c.
Proof.
  unfold withdraw.
  wp_step. wp_step; [| done]. wp_step. wp_step; [| done].
  wp_step; [| done]. wp_step; [| done]. wp_step; [| done].
  wp_step; [| done]. rename a into assetsOut, w into w1.
  set (s1 := reenter ws (storage c)).
  assert (Hpos1 : positionsOf s1 sender = positionsOf (storage c) sender)
    by apply positionsOf_reenter.
  wp_step; [| done].
  assert (Hlt : (N.to_nat i < length (positionsOf s1 sender))%nat).
  { rewrite Hpos1. apply N.ltb_lt in Hreq0. lia. }
  pose proof (fun q => lookup_writeAt_same sender i q s1 Hlt) as Hsame.
  pose proof Hload as Hp. unfold positionAt in Hp.
  apply andb_true_iff in Hreq2 as [Hpos Hle].
  apply N.ltb_lt in Hpos. apply N.leb_le in Hle. apply N.leb_le in Hreq3.
  apply negb_true_iff in Hreq.
  wp_step; unfold positionAt in Hload0; cbn [storage world] in Hload0;
    rewrite Hpos1 in Hload0; [| done].
  assert (p0 = p) as -> by congruence. clear Hload0.
  wp_step; [| done].
  wp_step; unfold positionAt in Hload0; cbn [storage world] in Hload0;
    rewrite Hpos1 in Hload0; [| done].
  assert (p0 = p) as -> by congruence. clear Hload0.
  wp_step; unfold positionAt in Hload0; cbn [storage world] in Hload0;
    rewrite Hsame in Hload0; [| done].
  injection Hload0 as <-. cbn [shares set_shares] in *.
  wp_step; [| done]. rename a into value. cbn [storage world] in *.
  wp_step; unfold positionAt in Hload0; cbn [storage world] in Hload0;
    rewrite Hsame in Hload0; [| done].
  injection Hload0 as <-. cbn [storage world]. rewrite writeAt_writeAt.
  wp_step; unfold positionAt in Hload0; cbn [storage world] in Hload0;
    rewrite Hsame in Hload0; [| done].
  injection Hload0 as <-. cbn [shares set_shares set_assets].
  destruct (shares p - n =? 0) eqn:Hz.
  - wp_step; unfold positionAt in Hload0; cbn [storage world] in Hload0;
      rewrite Hsame in Hload0; [| done].
    injection Hload0 as <-. cbn [storage world]. rewrite writeAt_writeAt.
    wp_step. exists p, value, ws. cbn [storage world]. rewrite Hz.
    repeat split; done.
  - wp_step. wp_step. exists p, value, ws. cbn [storage world]. rewrite Hz.
    repeat split; done.
Qed.

Lemma deposit_spec sender value v a m c :
  wp (deposit ext this sender value v a m)
     (fun sh c' =>
        exists tA w1 ws1 w2 ws2 ws3,
          paused (storage c) = false /\
          isWhitelisted (whitelistedVaults (storage c)) v = true /\
          0 < a /\ value = 0 /\
          vault_asset ext v (world c) = Returned tA /\ tA <> 0 /\
          token_safeTransferFrom ext tA sender this a (world c) = Returned (tt, w1, ws1) /\
          token_safeIncreaseAllowance ext tA v a w1 = Returned (tt, w2, ws2) /\
          vault_deposit ext v a this w2 = Returned (sh, world c', ws3) /\
          m <= sh /\
          storage c' =
            setPositions sender
              (positionsOf (storage c) sender ++ [mkPosition v tA sh a true])
              (reenter ws3 (reenter ws2 (reenter ws1 (storage c)))))
     (fun _ c' => userPositions (storage c') = userPositions (storage c)) c.
Proof.
  unfold deposit.
  wp_step. wp_step; [| done]. wp_step; [| done]. wp_step; [| done].
  wp_step; [| done]. rename a0 into tA.
  wp_step; [| done]. wp_step; [| done].
  wp_step; [| done]. rename w into w1, ws into ws1. destruct a0.
  wp_step; [| by cbn [storage]; rewrite userPositions_reenter].
  rename w into w2, ws into ws2. destruct a0.
  wp_step; [| by cbn [storage]; rewrite !userPositions_reenter].
  rename a0 into sh, ws into ws3. cbn [storage world] in *.
  wp_step; [| by cbn [storage]; rewrite !userPositions_reenter].
  apply N.leb_le in Hreq4. apply negb_true_iff in Hreq.
  apply N.ltb_lt in Hreq1. apply N.eqb_eq in Hreq2.
  apply negb_true_iff, N.eqb_neq in Hreq3.
  unfold pushPosition. apply wp_bind. unfold wp at 1, sstore.
  wp_step. exists tA, w1, ws1, w2, ws2, ws3. cbn [storage world].
  rewrite !positionsOf_reenter. done.
Qed.

(** [transact] seen through [wp]. *)
Lemma wp_transact {A} (m : Tx A) (Qok : A -> Chain -> Prop) Qrev c :
  wp m Qok Qrev c ->
  match transact m c with
  | (c', Success a) => Qok a c'
  | (c', Reverted e) => c' = c /\ exists c'', Qrev e c''
  end.
Proof. unfold wp, transact. destruct (m c); eauto. Qed.

Lemma transact_Success {A} (m : Tx A) (Qok : A -> Chain -> Prop) Qrev c c' a :
  wp m Qok Qrev c -> transact m c = (c', Success a) -> Qok a c'.
Proof. intros Hwp Ht. apply wp_transact in Hwp. by rewrite Ht in Hwp. Qed.

Lemma transact_Ok {A} (m : Tx A) c c' a :
  transact m c = (c', Success a) <-> m c = Ok a c'.
Proof.
  unfold transact. destruct (m c); split; intros H; by try injection H as <- <-.
Qed.

(** The swap loop stops at the first leg whose router call fails, with the
    reason of the contract's own check. *)
Lemma swapLegs_fails_at (_params : OptimizeParams) (idxs1 idxs2 : list nat) (k : nat)
    c1 c2 router calldata inputToken outputToken inputAmount w ws :
  swapLegs ext _params idxs1 c1 = Ok tt c2 ->
  routers _params !! k = Some router ->
  calldatas _params !! k = Some calldata ->
  inputTokens _params !! k = Some inputToken ->
  outputTokens _params !! k = Some outputToken ->
  inputAmounts _params !! k = Some inputAmount ->
  isWhitelisted (whitelistedRouters (storage c2)) router = true ->
  inputToken <> 0 ->
  token_safeIncreaseAllowance ext inputToken router inputAmount (world c2)
    = Returned (tt, w, ws) ->
  router_call ext router calldata w = None ->
  swapLegs ext _params (idxs1 ++ k :: idxs2) c1
    = Revert "Swap failed" (mkChain (reenter ws (storage c2)) w).
Proof.
  intros Hrun Hr Hc Hi Ho Ha Hwl Hnz Hallow Hcall.
  rewrite swapLegs_app. unfold bind at 1. rewrite Hrun.
  cbn [swapLegs]. rewrite Hr, Hc, Hi, Ho, Ha.
  unfold bind, sload, require, call. rewrite Hwl.
  apply N.eqb_neq in Hnz. rewrite Hnz. cbn [negb].
  rewrite Hallow. cbn [world storage]. by rewrite Hcall.
Qed.

(** ** The claims about the ledger *)

(** C1. A call of [optimizePosition] is all or nothing.  If its body
    reverts, it does so before the first write to a position, and the
    transaction leaves the chain as it was.  If it returns, the source
    vault was redeemed, the swap loop, when there are legs, has returned
    from the state that the redemption left (so every router call of it
    has succeeded), the four fields [vault], [asset], [shares] and [assets]
    of the position hold the target vault, its asset, the shares received
    and the balance deposited, [active] is as before, and no other position
    has changed.  And a swap leg whose router call fails, after the legs
    before it have returned, makes the transaction revert with "Swap
    failed". *)
Theorem optimizePosition_all_or_nothing sender i (_params : OptimizeParams) c :
  (forall e c1, optimizePosition ext this sender i _params c = Revert e c1 ->
                userPositions (storage c1) = userPositions (storage c)) /\
  (forall e c', transact (optimizePosition ext this sender i _params) c
                  = (c', Reverted e) -> c' = c) /\
  (forall newShares c',
      transact (optimizePosition ext this sender i _params) c
        = (c', Success newShares) ->
      exists p tA balance assetsRedeemed w1 ws1 c2,
        positionAt c sender i = Some p /\
        positionAt c' sender i =
          Some (mkPosition (targetVault _params) tA newShares balance (active p)) /\
        vault_redeem ext (vault p) (shares p) this this (world c)
          = Returned (assetsRedeemed, w1, ws1) /\
        legsDone ext _params (mkChain (reenter ws1 (storage c)) w1) c2 /\
        vault_asset ext (targetVault _params) (world c2) = Returned tA /\
        token_balanceOf ext tA this (world c2) = Returned balance /\
        forall user (j : nat),
          (user, j) <> (sender, N.to_nat i) ->
          positionsOf (storage c') user !! j = positionsOf (storage c) user !! j) /\
  (forall p assetsRedeemed w1 ws1 (k : nat) c2 router calldata inputToken inputAmount
          w ws,
      paused (storage c) = false ->
      isWhitelisted (whitelistedVaults (storage c)) (targetVault _params) = true ->
      positionAt c sender i = Some p ->
      active p = true ->
      vault_redeem ext (vault p) (shares p) this this (world c)
        = Returned (assetsRedeemed, w1, ws1) ->
      length (calldatas _params) = length (routers _params) ->
      length (inputTokens _params) = length (routers _params) ->
      length (outputTokens _params) = length (routers _params) ->
      length (inputAmounts _params) = length (routers _params) ->
      swapLegs ext _params (seq 0 k) (mkChain (reenter ws1 (storage c)) w1) = Ok tt c2 ->
      routers _params !! k = Some router ->
      calldatas _params !! k = Some calldata ->
      inputTokens _params !! k = Some inputToken ->
      inputAmounts _params !! k = Some inputAmount ->
      isWhitelisted (whitelistedRouters (storage c2)) router = true ->
      inputToken <> 0 ->
      token_safeIncreaseAllowance ext inputToken router inputAmount (world c2)
        = Returned (tt, w, ws) ->
      router_call ext router calldata w = None ->
      transact (optimizePosition ext this sender i _params) c
        = (c, Reverted "Swap failed")).
Proof.
  pose proof (optimizePosition_spec sender i _params c) as Hspec.
  split; [| split; [| split]].
  - intros e c1 Hrun. unfold wp in Hspec. rewrite Hrun in Hspec. tauto.
  - intros e c'. unfold transact.
    destruct (optimizePosition ext this sender i _params c); congruence.
  - intros newShares c' Hrun.
    apply (transact_Success _ _ _ _ _ _ Hspec) in Hrun.
    destruct Hrun as (p & assetsRedeemed & w1 & ws1 & c2 & tA & balance & w3 & ws3 & ws4
                      & _ & _ & Hp & _ & Hredeem & Hlegs & Hpos2 & HtA & _ & Hbal & _
                      & _ & _ & _ & Hst).
    exists p, tA, balance, assetsRedeemed, w1, ws1, c2.
    assert (Hsame : forall user, positionsOf (reenter ws4 (reenter ws3 (storage c2))) user
                                 = positionsOf (storage c) user).
    { intros user. rewrite !positionsOf_reenter. unfold positionsOf. by rewrite Hpos2. }
    split; [done|]. split.
    { unfold positionAt. rewrite Hst. apply lookup_writeAt_same.
      rewrite Hsame. unfold positionAt in Hp. by apply lookup_lt_Some in Hp. }
    do 4 (split; [done|]).
    intros user j Hne. rewrite Hst.
    rewrite lookup_writeAt_other by done. by rewrite Hsame.
  - intros p assetsRedeemed w1 ws1 k c2 router calldata inputToken inputAmount w ws
           Hpaused Hwl Hp Hact Hredeem H1 H2 H3 H4 Hbefore Hr Hc Hi Ha Hrwl Hnz Hallow
           Hcall.
    assert (Hk : (k < length (routers _params))%nat) by by apply lookup_lt_Some in Hr.
    destruct (lookup_lt_is_Some_2 (outputTokens _params) k) as [outputToken Ho].
    { unfold address, uint256 in *. lia. }
    assert (Hwp : wp (optimizePosition ext this sender i _params)
                     (fun _ _ => False)
                     (fun e _ => e = "Swap failed"%string) c).
    { unfold optimizePosition.
      wp_step. wp_step; [| by rewrite Hpaused in Hreq].
      wp_step. wp_step.
      2:{ apply N.ltb_ge in Hreq0. unfold positionAt in Hp.
          apply lookup_lt_Some in Hp. lia. }
      wp_step; [| congruence]. wp_step; [| congruence].
      assert (p0 = p) as -> by congruence.
      wp_step; [| congruence]. wp_step; [| congruence].
      assert (a = assetsRedeemed /\ w0 = w1 /\ ws0 = ws1) as (-> & -> & ->)
        by (split; [| split]; congruence).
      apply wp_bind.
      destruct (0 <? length (routers _params))%nat eqn:Hlen.
      2:{ apply Nat.ltb_ge in Hlen. lia. }
      wp_step.
      2:{ unfold address, uint256 in *.
          rewrite H1, H2, H3, H4, !Nat.eqb_refl in Hreq3. done. }
      replace (seq 0 (length (routers _params)))
        with (seq 0 k ++ k :: seq (S k) (length (routers _params) - S k)).
      2:{ replace (length (routers _params))
            with (k + S (length (routers _params) - S k))%nat at 2 by lia.
          by rewrite seq_app. }
      unfold wp.
      erewrite swapLegs_fails_at; done. }
    unfold wp in Hwp. unfold transact.
    destruct (optimizePosition ext this sender i _params c); [done | by subst].
Qed.

(** C2, as amended.  When "no shares, not active" holds for every position
    of every user, it holds again after an operation that returns, unless
    that operation is a [deposit] or an [optimizePosition] to which the
    vault gave no share; a positive [minSharesOut] is one way to rule that
    out, and [withdraw] never breaks it.  [withdraw] stores in [assets] the
    vault's valuation of the shares that remain; [deposit] stores the
    amount it was called with, and [optimizePosition] the balance of the
    target asset it has deposited. *)
Theorem ledger_keeps_shares_invariant sender (op : Op) c c' r :
  SharesInvariant c ->
  transact (exec ext this sender op) c = (c', Success r) ->
  (SharesInvariant c' <-> ~ mintedNone op r) /\
  match op with
  | Deposit _ v a m =>
      m <= r /\
      exists tA,
        positionsOf (storage c') sender
          = positionsOf (storage c) sender ++ [mkPosition v tA r a true]
  | Withdraw i n _ =>
      exists p,
        positionAt c' sender i = Some p /\
        vault_convertToAssets ext (vault p) (shares p) (world c') = Returned (assets p)
  | OptimizePosition i _params =>
      minSharesOut _params <= r /\
      exists p w w' ws,
        positionAt c' sender i = Some p /\
        shares p = r /\
        token_balanceOf ext (asset p) this w = Returned (assets p) /\
        vault_deposit ext (vault p) (assets p) this w' = Returned (r, world c', ws)
  end.
Proof.
  intros Hinv Hrun. destruct op as [value v a m | i n m | i _params];
    cbn [exec mintedNone] in *.
  - apply (transact_Success _ _ _ _ _ _ (deposit_spec sender value v a m c)) in Hrun.
    destruct Hrun as (tA & w1 & ws1 & w2 & ws2 & ws3 & _ & _ & _ & _ & _ & _ & _ & _
                      & _ & Hm & Hst).
    assert (Hpos : positionsOf (storage c') sender
                   = positionsOf (storage c) sender ++ [mkPosition v tA r a true]).
    { rewrite Hst. unfold setPositions, positionsOf at 1. simpl.
      by rewrite lookup_insert_eq. }
    assert (Hother : forall user, user <> sender ->
                                  positionsOf (storage c') user = positionsOf (storage c) user).
    { intros user Hne. rewrite Hst. unfold setPositions, positionsOf at 1. simpl.
      rewrite lookup_insert_ne by done.
      rewrite !userPositions_reenter. done. }
    split; [| by split; [| exists tA]].
    split.
    + intros Hinv' ->.
      assert (Hnew : positionAt c' sender
                       (N.of_nat (length (positionsOf (storage c) sender)))
                     = Some (mkPosition v tA 0 a true)).
      { unfold positionAt. rewrite Hpos, Nat2N.id.
        rewrite lookup_app_r by done. by rewrite Nat.sub_diag. }
      by specialize (Hinv' _ _ _ Hnew eq_refl).
    + intros Hr user j p Hp Hz. unfold positionAt in Hp.
      destruct (decide (user = sender)) as [-> | Hne].
      * rewrite Hpos in Hp. apply lookup_app_Some in Hp as [Hp | [_ Hp]].
        -- by apply (Hinv sender (N.of_nat (N.to_nat j)) p);
             [unfold positionAt; rewrite Nat2N.id |].
        -- apply list_lookup_singleton_Some in Hp as [_ <-]. simpl in Hz. done.
      * apply (Hinv user j p); [| done]. unfold positionAt.
        by rewrite <- Hother.
  - apply (transact_Success _ _ _ _ _ _ (withdraw_spec sender i n m c)) in Hrun.
    destruct Hrun as (p & value & ws & _ & Hp & _ & _ & _ & _ & _ & Hval & Hst).
    assert (Hlt : (N.to_nat i < length (positionsOf (reenter ws (storage c)) sender))%nat).
    { rewrite positionsOf_reenter. unfold positionAt in Hp. by apply lookup_lt_Some in Hp. }
    split.
    + split; [by intros _ [] |]. intros _.
      intros user j q Hq Hz. unfold positionAt in Hq. rewrite Hst in Hq.
      destruct (decide ((user, N.to_nat j) = (sender, N.to_nat i))) as [Heq | Hne].
      * injection Heq as -> Hj. rewrite Hj, lookup_writeAt_same in Hq by done.
        injection Hq as <-. simpl in *. rewrite Hz. done.
      * rewrite lookup_writeAt_other in Hq by done.
        rewrite positionsOf_reenter in Hq. by apply (Hinv user j q).
    + eexists. unfold positionAt. rewrite Hst, lookup_writeAt_same by done.
      split; [done|]. done.
  - apply (transact_Success _ _ _ _ _ _ (optimizePosition_spec sender i _params c))
      in Hrun.
    destruct Hrun as (p & assetsRedeemed & w1 & ws1 & c2 & tA & balance & w3 & ws3 & ws4
                      & _ & _ & Hp & Hact & _ & _ & Hpos2 & _ & _ & Hbal & _
                      & _ & Hdep & Hmin & Hst).
    assert (Hsame : forall user, positionsOf (reenter ws4 (reenter ws3 (storage c2))) user
                                 = positionsOf (storage c) user).
    { intros user. rewrite !positionsOf_reenter. unfold positionsOf. by rewrite Hpos2. }
    assert (Hlt : (N.to_nat i
                   < length (positionsOf (reenter ws4 (reenter ws3 (storage c2))) sender))%nat).
    { rewrite Hsame. unfold positionAt in Hp. by apply lookup_lt_Some in Hp. }
    assert (Hnew : positionAt c' sender i
                   = Some (mkPosition (targetVault _params) tA r balance (active p))).
    { unfold positionAt. by rewrite Hst, lookup_writeAt_same. }
    split; [| split; [done|]].
    + split.
      * intros Hinv' ->. specialize (Hinv' _ _ _ Hnew eq_refl). simpl in Hinv'.
        congruence.
      * intros Hr user j q Hq Hz. unfold positionAt in Hq. rewrite Hst in Hq.
        destruct (decide ((user, N.to_nat j) = (sender, N.to_nat i))) as [Heq | Hne].
        -- injection Heq as -> Hj. rewrite Hj, lookup_writeAt_same in Hq by done.
           injection Hq as <-. simpl in *. done.
        -- rewrite lookup_writeAt_other in Hq by done. rewrite Hsame in Hq.
           by apply (Hinv user j q).
    + eexists. exists (world c2), w3, ws4. rewrite Hnew. done.
Qed.

(** C3, as amended.  With no swap legs, [optimizePosition] reverts when the
    ledger holds nothing of the target vault's asset once the source vault
    has been redeemed.  (No statement compares the two assets.) *)
Theorem optimizePosition_no_legs_no_balance sender i (_params : OptimizeParams) c
    p assetsRedeemed w1 ws1 tA :
  routers _params = [] ->
  paused (storage c) = false ->
  isWhitelisted (whitelistedVaults (storage c)) (targetVault _params) = true ->
  positionAt c sender i = Some p ->
  active p = true ->
  vault_redeem ext (vault p) (shares p) this this (world c)
    = Returned (assetsRedeemed, w1, ws1) ->
  vault_asset ext (targetVault _params) w1 = Returned tA ->
  tA <> 0 ->
  token_balanceOf ext tA this w1 = Returned 0 ->
  transact (optimizePosition ext this sender i _params) c
    = (c, Reverted "No assets after swap").
Proof.
  intros Hlegs Hpaused Hwl Hp Hact Hredeem Hasset HtA Hbal.
  assert (Hwp : wp (optimizePosition ext this sender i _params)
                   (fun _ _ => False)
                   (fun e _ => e = "No assets after swap"%string) c).
  { unfold optimizePosition. rewrite Hlegs. change (0 <? length [])%nat with false.
    wp_step. wp_step; [| by rewrite Hpaused in Hreq].
    wp_step. wp_step.
    2:{ apply N.ltb_ge in Hreq0. unfold positionAt in Hp.
        apply lookup_lt_Some in Hp. lia. }
    wp_step; [| congruence]. wp_step; [| congruence].
    assert (p0 = p) as -> by congruence.
    wp_step; [| congruence]. wp_step; [| congruence].
    assert (w = w1) as -> by congruence.
    wp_step.
    wp_step; cbn [storage world] in *; [| congruence].
    assert (a0 = tA) as -> by congruence.
    wp_step; [| by apply negb_false_iff, N.eqb_eq in Hreq3].
    wp_step; cbn [storage world] in *; [| congruence].
    assert (a0 = 0) as -> by congruence.
    wp_step; done. }
  unfold wp in Hwp. unfold transact.
  destruct (optimizePosition ext this sender i _params c); [done | by subst].
Qed.

(** C9. [withdraw] fails when the index is out of range, the position is
    inactive, or [_shares] is zero or more than the position holds; and a
    [withdraw] that fails, for these or any other reason, leaves the chain
    (so every field of every position) as it was. *)
Theorem withdraw_rejects_invalid sender i n m c :
  (N.of_nat (length (positionsOf (storage c) sender)) <= i \/
   exists p, positionAt c sender i = Some p /\
             (active p = false \/ n = 0 \/ shares p < n)) ->
  (exists e, transact (withdraw ext this sender i n m) c = (c, Reverted e)) /\
  (forall e c', transact (withdraw ext this sender i n m) c = (c', Reverted e) ->
                c' = c /\ positionsOf (storage c') sender = positionsOf (storage c) sender).
Proof.
  intros Hbad. split.
  - pose proof (withdraw_spec sender i n m c) as Hspec.
    unfold wp in Hspec. unfold transact.
    destruct (withdraw ext this sender i n m c) as [assetsOut c' | e c']; [| by exists e].
    exfalso. destruct Hspec as (p & value & ws & _ & Hp & Hact & Hpos & Hle & _).
    destruct Hbad as [Hrange | (p' & Hp' & Hcase)].
    + unfold positionAt in Hp. apply lookup_lt_Some in Hp. lia.
    + assert (p' = p) as -> by congruence.
      destruct Hcase as [Hina | [Hzero | Hmore]]; [congruence | lia | lia].
  - intros e c'. unfold transact.
    destruct (withdraw ext this sender i n m c); [done|].
    intros [= <- _]. done.
Qed.

(** The slippage check of [optimizePosition] cannot fail when it is called
    with [minSharesOut = 0]: it passes for every number of shares, and a
    transaction that reverts with its reason was reverted by a callee with
    that reason. *)
Lemma optimizePosition_zero_floor sender i (_params : OptimizeParams) c :
  minSharesOut _params = 0 ->
  (forall newShares c1,
      require (minSharesOut _params <=? newShares) "Insufficient shares" c1
        = Ok tt c1) /\
  (snd (transact (optimizePosition ext this sender i _params) c)
     = Reverted "Insufficient shares" ->
   CalleeReverts ext "Insufficient shares").
Proof.
  intros Hz. split.
  - intros newShares c1. rewrite Hz. unfold require. by destruct newShares.
  - pose proof (optimizePosition_spec sender i _params c) as Hspec.
    unfold wp in Hspec. unfold transact.
    destruct (optimizePosition ext this sender i _params c) as [? ? | e c1];
      simpl; [done|].
    intros [= ->]. destruct Hspec as [_ [Hcallee | [Hne | Hpos]]]; [done | done | lia].
Qed.

End Logic.

(** ** The claims on concrete transactions *)

Import LedgerTest.

Lemma genesis_has_no_position user (i : uint256) :
  positionAt genesis user i = None.
Proof.
  unfold positionAt, positionsOf, genesis, emptyStorage. simpl.
  by rewrite lookup_empty.
Qed.

(** A swap leg that fails leaves Alice's position as it was. *)
Example failed_swap_leg_keeps_position :
  transact (optimizePosition testExt ledger alice 0 (oneLeg badRouter vaultB 10 0)) funded
    = (funded, Reverted "Swap failed").
Proof. vm_compute. reflexivity. Qed.

(** A callee that may call the ledger's setters can change its switches
    while an entry point runs: the router that owns the ledger pauses it
    inside a reallocation that returns. *)
Example owner_callee_pauses_mid_call :
  exists c',
    transact (optimizePosition testExt ledger alice 0 (oneLeg ownerRouter vaultB 10 0)) funded
      = (c', Success 7) /\
    paused (storage funded) = false /\
    paused (storage c') = true /\
    positionAt c' alice 0 = Some (mkPosition vaultB tokenB 7 7 true).
Proof. eexists. repeat split; vm_compute; reflexivity. Qed.

(** The second of two legs fails after the first has swapped: the
    reallocation reverts with "Swap failed" and the chain is as before. *)
Lemma optimizePosition_all_or_nothing_witness :
  transact (optimizePosition testExt ledger alice 0
              (twoLegs okRouter badRouter vaultB 10 0)) funded
    = (funded, Reverted "Swap failed").
Proof.
  eapply (proj2 (proj2 (proj2
            (optimizePosition_all_or_nothing testExt ledger alice 0
               (twoLegs okRouter badRouter vaultB 10 0) funded)))
            (mkPosition vaultA2 tokenA 5 10 true) 10 _ [] 1%nat _ badRouter []
            tokenB 10 _ []).
  - reflexivity.
  - vm_compute. reflexivity.
  - vm_compute. reflexivity.
  - reflexivity.
  - vm_compute. reflexivity.
  - reflexivity.
  - reflexivity.
  - reflexivity.
  - reflexivity.
  - vm_compute. reflexivity.
  - reflexivity.
  - reflexivity.
  - reflexivity.
  - reflexivity.
  - vm_compute. reflexivity.
  - vm_compute. discriminate.
  - vm_compute. reflexivity.
  - vm_compute. reflexivity.
Defined.

(** C2 as stated fails: after a deposit of 5 into a vault whose shares are
    worth 2, the position holds 2 shares and records the 5 that the caller
    passed, while the vault values the 2 shares at 4. *)
Lemma deposit_records_caller_amount :
  PositionInvariant testExt genesis /\
  exists c',
    transact (exec testExt ledger alice (Deposit 0 vaultA2 5 1)) genesis
      = (c', Success 2) /\
    positionAt c' alice 0 = Some (mkPosition vaultA2 tokenA 2 5 true) /\
    vault_convertToAssets testExt vaultA2 2 (world c') = Returned 4 /\
    ~ PositionInvariant testExt c'.
Proof.
  split.
  - intros user i p Hp. by rewrite genesis_has_no_position in Hp.
  - eexists. split; [vm_compute; reflexivity|].
    split; [vm_compute; reflexivity|]. split; [vm_compute; reflexivity|].
    intros Hinv.
    destruct (Hinv alice 0 (mkPosition vaultA2 tokenA 2 5 true)) as [_ Hval];
      [vm_compute; reflexivity|].
    vm_compute in Hval. discriminate Hval.
Qed.

(** With [minSharesOut = 0] a deposit that earns no share still opens an
    active position. *)
Example deposit_without_floor_opens_empty_position :
  exists c',
    transact (deposit testExt ledger alice 0 vaultA2 1 0) genesis = (c', Success 0) /\
    positionAt c' alice 0 = Some (mkPosition vaultA2 tokenA 0 1 true) /\
    ~ SharesInvariant c'.
Proof.
  eexists. split; [vm_compute; reflexivity|]. split; [vm_compute; reflexivity|].
  intros Hinv.
  specialize (Hinv alice 0 (mkPosition vaultA2 tokenA 0 1 true)).
  discriminate Hinv; [vm_compute|]; reflexivity.
Qed.

(** A deposit without a floor that earns shares keeps the invariant. *)
Lemma ledger_keeps_shares_invariant_witness :
  let c' := fst (transact (exec testExt ledger alice (Deposit 0 vaultA2 5 0)) genesis) in
  (SharesInvariant c' <-> ~ mintedNone (Deposit 0 vaultA2 5 0) 2) /\
  0 <= 2 /\
  exists tA,
    positionsOf (storage c') alice
      = positionsOf (storage genesis) alice ++ [mkPosition vaultA2 tA 2 5 true].
Proof.
  apply (ledger_keeps_shares_invariant testExt ledger alice
           (Deposit 0 vaultA2 5 0) genesis).
  - intros user i p Hp. by rewrite genesis_has_no_position in Hp.
  - vm_compute. reflexivity.
Defined.

(** C3 as stated fails: Alice's position is in token A, the target vault
    takes token B, no swap leg is given, and the call returns: the 7 units
    of token B that the ledger happened to hold are deposited. *)
Lemma zero_legs_mismatch_returns :
  exists p c',
    positionAt funded alice 0 = Some p /\
    routers (noLegs vaultB 0) = [] /\
    vault_asset testExt (targetVault (noLegs vaultB 0)) (world funded) = Returned tokenB /\
    asset p <> tokenB /\
    transact (optimizePosition testExt ledger alice 0 (noLegs vaultB 0)) funded
      = (c', Success 7) /\
    positionAt c' alice 0 = Some (mkPosition vaultB tokenB 7 7 true).
Proof.
  eexists. eexists.
  split; [vm_compute; reflexivity|]. split; [reflexivity|].
  split; [vm_compute; reflexivity|]. split; [vm_compute; discriminate|].
  split; vm_compute; reflexivity.
Qed.

Lemma optimizePosition_no_legs_no_balance_witness :
  transact (optimizePosition testExt ledger alice 0 (noLegs vaultB 0)) clean
    = (clean, Reverted "No assets after swap").
Proof.
  eapply (optimizePosition_no_legs_no_balance testExt ledger alice 0
            (noLegs vaultB 0) clean (mkPosition vaultA2 tokenA 5 10 true) 10 _ [] tokenB).
  - reflexivity.
  - reflexivity.
  - vm_compute. reflexivity.
  - vm_compute. reflexivity.
  - reflexivity.
  - vm_compute. reflexivity.
  - vm_compute. reflexivity.
  - vm_compute. discriminate.
  - vm_compute. reflexivity.
Defined.

Lemma withdraw_rejects_invalid_witness :
  (exists e, transact (withdraw testExt ledger alice 0 6 0) funded = (funded, Reverted e)) /\
  (forall e c', transact (withdraw testExt ledger alice 0 6 0) funded = (c', Reverted e) ->
                c' = funded /\
                positionsOf (storage c') alice = positionsOf (storage funded) alice).
Proof.
  apply (withdraw_rejects_invalid testExt ledger alice 0 6 0 funded).
  right. exists (mkPosition vaultA2 tokenA 5 10 true).
  split; [vm_compute; reflexivity|]. right. right. simpl. lia.
Defined.

End LedgerFacts.
(* ===================================================================== *)
(** * Properties of the off-chain engine                                 *)
(* ===================================================================== *)

Module BackendFacts.

Import Backend.
Local Open Scope Q_scope.

(** ** Comparison of numbers *)

Lemma Qltb_lt (x y : Q) : Qltb x y = true <-> x < y.
Proof. unfold Qltb, Qlt. apply Z.ltb_lt. Qed.

Lemma Qltb_ge (x y : Q) : Qltb x y = false <-> y <= x.
Proof. unfold Qltb, Qle. apply Z.ltb_ge. Qed.

Lemma Qle_bool_false (x y : Q) : Qle_bool x y = false <-> y < x.
Proof.
  split.
  - intros H. apply Qnot_le_lt. intros Hle. apply Qle_bool_iff in Hle. congruence.
  - intros H. destruct (Qle_bool x y) eqn:Hle; [| done].
    apply Qle_bool_iff in Hle. lra.
Qed.

(** Case analysis on the numbers in the context, down to the rationals. *)
Ltac numbers :=
  repeat match goal with
         | x : number |- _ => destruct x as [| [] | ?]
         end;
  cbn [flt fle isZero falsy andb orb negb] in *; try done;
  rewrite ?Qltb_lt, ?Qltb_ge, ?Qle_bool_iff, ?Qle_bool_false in *; try lra.

Lemma flt_fle (x y : number) : flt x y = true -> fle x y = true.
Proof. numbers. Qed.

Lemma fle_not_flt (x y : number) : fle x y = true -> flt y x = false.
Proof. numbers. Qed.

(** For numbers other than [NaN], "not below" is "at least". *)
Lemma flt_false_fle (x y : number) :
  x <> NaN -> y <> NaN -> (flt x y = false <-> fle y x = true).
Proof. intros Hx Hy. split; numbers. Qed.

Lemma fle_trans (x y z : number) : fle x y = true -> fle y z = true -> fle x z = true.
Proof. numbers. Qed.

Lemma flt_fle_trans (x y z : number) : flt x y = true -> fle y z = true -> flt x z = true.
Proof. numbers. Qed.

Lemma fle_refl (x : number) : x <> NaN -> fle x x = true.
Proof. intros Hx. numbers. Qed.

Lemma flt_not_NaN_r (x y : number) : flt x y = true -> y <> NaN.
Proof. by destruct x as [| [] | ?], y as [| [] | ?]. Qed.

(** ** The stable descending sort *)

Section Sorting.

Implicit Types (x y : YieldOpportunity) (l : list YieldOpportunity).

Lemma positive_numeric x : positive x -> numeric x.
Proof. apply flt_not_NaN_r. Qed.

Lemma insertByApy_Forall (P : YieldOpportunity -> Prop) x l :
  P x -> Forall P l -> Forall P (insertByApy x l).
Proof.
  intros Hx. induction 1 as [| y r Hy Hr IH]; simpl.
  - by constructor.
  - destruct (flt (opp_apy x) (opp_apy y)); repeat constructor; auto.
Qed.

Lemma sortByApyDesc_Forall (P : YieldOpportunity -> Prop) l :
  Forall P l -> Forall P (sortByApyDesc l).
Proof.
  induction 1 as [| x r Hx Hr IH]; simpl; [constructor|].
  by apply insertByApy_Forall.
Qed.

Lemma insertByApy_sorted x l :
  numeric x -> Forall numeric l -> Descending l -> Descending (insertByApy x l).
Proof.
  unfold Descending. intros Hx Hnum.
  induction 1 as [| y r Hsorted IH Hall]; simpl.
  - repeat constructor.
  - apply Forall_cons in Hnum as [Hy Hnum].
    destruct (flt (opp_apy x) (opp_apy y)) eqn:Hcmp.
    + constructor; [by apply IH|]. apply insertByApy_Forall; [| done].
      by apply flt_fle.
    + apply flt_false_fle in Hcmp; [| done | done].
      constructor; [by constructor|].
      constructor; [done|].
      eapply Forall_impl; [exact Hall|]. intros z Hz. simpl in Hz.
      by eapply fle_trans.
Qed.

Lemma sortByApyDesc_sorted l : Forall numeric l -> Descending (sortByApyDesc l).
Proof.
  induction 1 as [| x r Hx Hr IH]; simpl.
  - constructor.
  - apply insertByApy_sorted; [done | by apply sortByApyDesc_Forall | done].
Qed.

(** An element that is at least as high as all of [l] goes in front. *)
Lemma insertByApy_front x l :
  Forall (fun y => fle (opp_apy y) (opp_apy x) = true) l -> insertByApy x l = x :: l.
Proof.
  destruct 1 as [| y r Hy _]; simpl; [done|].
  apply fle_not_flt in Hy. by rewrite Hy.
Qed.

Lemma Forall_List_filter (P : YieldOpportunity -> Prop) (keep : YieldOpportunity -> bool) l :
  Forall P l -> Forall P (List.filter keep l).
Proof.
  induction 1 as [| z t Hz Ht IH]; simpl; [constructor|].
  destruct (keep z); [by constructor | done].
Qed.

Lemma filter_insertByApy (keep : YieldOpportunity -> bool) x l :
  numeric x -> Forall numeric l -> Descending l ->
  List.filter keep (insertByApy x l)
    = if keep x then insertByApy x (List.filter keep l) else List.filter keep l.
Proof.
  unfold Descending. intros Hx Hnum.
  induction 1 as [| y r Hsorted IH Hall]; simpl.
  - by destruct (keep x).
  - apply Forall_cons in Hnum as [Hy Hnum].
    destruct (flt (opp_apy x) (opp_apy y)) eqn:Hcmp; simpl.
    + rewrite IH by done. destruct (keep x), (keep y); simpl; try done.
      by rewrite Hcmp.
    + destruct (keep x) eqn:Hkx; [| done].
      symmetry. apply insertByApy_front.
      apply flt_false_fle in Hcmp; [| done | done].
      assert (Hle : Forall (fun z => fle (opp_apy z) (opp_apy x) = true) (y :: r)).
      { constructor; [done|]. eapply Forall_impl; [exact Hall|].
        intros z Hz. simpl in Hz. by eapply fle_trans. }
      by apply (Forall_List_filter _ keep) in Hle.
Qed.

(** Filtering the sorted list is sorting the filtered list. *)
Lemma filter_sortByApyDesc (keep : YieldOpportunity -> bool) l :
  Forall numeric l ->
  List.filter keep (sortByApyDesc l) = sortByApyDesc (List.filter keep l).
Proof.
  induction 1 as [| x l Hx Hl IH]; simpl; [done|].
  rewrite filter_insertByApy;
    [| done | by apply sortByApyDesc_Forall | by apply sortByApyDesc_sorted].
  rewrite IH. by destruct (keep x).
Qed.

(** The head of the sorted list is the first of the highest entries. *)
Lemma head_sortByApyDesc l : Forall numeric l -> BestOf l (head (sortByApyDesc l)).
Proof.
  induction 1 as [| x l Hx Hnum IH]; simpl; [done|].
  destruct (sortByApyDesc l) as [| y r] eqn:Hsort; simpl in *.
  - subst l. exists [], []. repeat split; constructor.
  - destruct IH as (l1 & l2 & -> & Hl1 & Hl2).
    assert (Hy : numeric y).
    { apply Forall_app in Hnum as [_ Hnum]. by apply Forall_cons in Hnum as [? _]. }
    destruct (flt (opp_apy x) (opp_apy y)) eqn:Hcmp; simpl.
    + exists (x :: l1), l2.
      split; [done|]. split; [by constructor | done].
    + apply flt_false_fle in Hcmp; [| done | done].
      exists [], (l1 ++ y :: l2).
      split; [done|]. split; [constructor|].
      apply Forall_app. split.
      * eapply Forall_impl; [exact Hl1|]. intros z Hz. simpl in Hz.
        apply flt_fle in Hz. by eapply fle_trans.
      * constructor; [done|].
        eapply Forall_impl; [exact Hl2|]. intros z Hz. simpl in Hz.
        by eapply fle_trans.
Qed.

Lemma head_filter_sortByApyDesc (keep : YieldOpportunity -> bool) l :
  Forall numeric l ->
  BestOf (List.filter keep l) (head (List.filter keep (sortByApyDesc l))).
Proof.
  intros Hnum. rewrite filter_sortByApyDesc by done.
  apply head_sortByApyDesc. by apply Forall_List_filter.
Qed.

End Sorting.

(** ** The two gates *)

Lemma decide_skip threshold user index pos cur best result :
  decide threshold user index pos cur best = Skip result ->
  result = skipped user index pos cur best
             (BelowThreshold (fsub (opp_apy best) cur) threshold) \/
  result = skipped user index pos cur best AlreadyInBestVault.
Proof.
  unfold decide. destruct (flt _ _); [intros [= <-]; by left|].
  destruct (String.eqb _ _); [intros [= <-]; by right | done].
Qed.

(** ** Running the service *)

Section Engine.

Context {X : Type}.
Variable svc : Services X.
Variable optimizerContract : string.

Abbreviation State := (State (X := X)).
Abbreviation M := (M (X := X)).

Implicit Types (st : State).

Lemma withExt_same st : withExt (ext st) st = st.
Proof. by destruct st. Qed.

Lemma withExt_withExt x x' st : withExt x (withExt x' st) = withExt x st.
Proof. done. Qed.

(** *** Computations that only talk to the outside *)

Lemma ReadOnly_ret {A} (a : A) : ReadOnly (ret a : M A).
Proof. done. Qed.

Lemma ReadOnly_throw {A} e : ReadOnly (throw e : M A).
Proof. done. Qed.

Lemma ReadOnly_await {A} (f : X -> Res A * X) : ReadOnly (await f).
Proof. intros st. unfold await. by destruct (f (ext st)). Qed.

Lemma ReadOnly_now : ReadOnly (now svc).
Proof. done. Qed.

Lemma ReadOnly_getThreshold : ReadOnly (getThreshold : M number).
Proof. done. Qed.

Lemma ReadOnly_bind {A B} (m : M A) (k : A -> M B) :
  ReadOnly m -> (forall a, ReadOnly (k a)) -> ReadOnly (bind m k).
Proof.
  intros Hm Hk st. unfold bind. specialize (Hm st).
  destruct (m st) as [[a | e] st1]; simpl in *; [| done].
  destruct Hm as (H1 & H2 & H3 & H4), (Hk a st1) as (K1 & K2 & K3 & K4).
  by rewrite K1, K2, K3, K4.
Qed.

Lemma ReadOnly_tryCatch {A} (m : M A) (h : string -> M A) :
  ReadOnly m -> (forall e, ReadOnly (h e)) -> ReadOnly (tryCatch m h).
Proof.
  intros Hm Hh st. unfold tryCatch. specialize (Hm st).
  destruct (m st) as [[a | e] st1]; simpl in *; [done|].
  destruct Hm as (H1 & H2 & H3 & H4), (Hh e st1) as (K1 & K2 & K3 & K4).
  by rewrite K1, K2, K3, K4.
Qed.

Ltac read_only :=
  repeat first
    [ apply ReadOnly_ret | apply ReadOnly_throw | apply ReadOnly_await
    | apply ReadOnly_now | apply ReadOnly_getThreshold
    | apply ReadOnly_bind; [| intros ?]
    | apply ReadOnly_tryCatch; [| intros ?]
    | assumption
    | match goal with
      | |- ReadOnly (match ?x with _ => _ end) => destruct x
      | |- ReadOnly (if ?b then _ else _) => destruct b
      end ].

Lemma ReadOnly_fetchVault chainID vault acc :
  ReadOnly (fetchVault svc chainID vault acc).
Proof. unfold fetchVault. read_only. Qed.

Lemma ReadOnly_fetchAll chainID vaults acc :
  ReadOnly (fetchAll svc chainID vaults acc).
Proof.
  revert acc. induction vaults as [| v vs IH]; intros acc; simpl.
  - read_only.
  - apply ReadOnly_bind; [apply ReadOnly_fetchVault | intros acc'; apply IH].
Qed.

Lemma ReadOnly_getYieldOpportunities vaults chainID :
  ReadOnly (getYieldOpportunities svc vaults chainID).
Proof.
  unfold getYieldOpportunities.
  apply ReadOnly_bind; [apply ReadOnly_fetchAll | intros; read_only].
Qed.

Lemma ReadOnly_findBestYieldForAsset asset vaults chainID :
  ReadOnly (findBestYieldForAsset svc asset vaults chainID).
Proof.
  unfold findBestYieldForAsset.
  apply ReadOnly_bind; [apply ReadOnly_getYieldOpportunities | intros; read_only].
Qed.

Lemma ReadOnly_enrich user index positions :
  ReadOnly (enrich svc user index positions).
Proof.
  revert index. induction positions as [| p ps IH]; intros index; simpl.
  - read_only.
  - apply ReadOnly_bind; [apply ReadOnly_getYieldOpportunities | intros opps].
    apply ReadOnly_bind; [apply IH | intros; read_only].
Qed.

Lemma ReadOnly_getUserPositions user : ReadOnly (getUserPositions svc user).
Proof.
  unfold getUserPositions. apply ReadOnly_tryCatch; [| intros; read_only].
  apply ReadOnly_bind; [read_only | intros; apply ReadOnly_enrich].
Qed.

Lemma ReadOnly_ensureRouterWhitelisted routerAddress :
  ReadOnly (ensureRouterWhitelisted svc routerAddress).
Proof.
  unfold ensureRouterWhitelisted, whitelistRouter, isRouterWhitelisted. read_only.
Qed.

Lemma ReadOnly_prepareSwap currentPosition bestOpportunity :
  ReadOnly (prepareSwap svc optimizerContract currentPosition bestOpportunity).
Proof.
  unfold prepareSwap.
  destruct (negb _); [| read_only].
  apply ReadOnly_bind; [read_only | intros quote].
  destruct (q_success quote), (q_result quote); read_only.
  all: apply ReadOnly_bind; [apply ReadOnly_ensureRouterWhitelisted | intros []; read_only].
Qed.

Lemma ReadOnly_evaluate user index : ReadOnly (evaluate svc user index).
Proof.
  unfold evaluate, findBestYieldOpportunity.
  apply ReadOnly_bind; [apply ReadOnly_getUserPositions | intros positions].
  destruct (_ <=? _)%Z; [read_only|].
  destruct (at_index positions index) as [p |]; [| read_only].
  destruct (negb (active p)); [read_only|].
  apply ReadOnly_bind; [apply ReadOnly_findBestYieldForAsset | intros best].
  destruct best; read_only.
Qed.

(** *** Gathering the yields: one vault, then all of them *)

Lemma opportunityOf_Some vault t r o :
  opportunityOf vault t r = Some o ->
  opp_vault o = vault /\ positive o /\ opp_timestamp o = t /\
  exists response d,
    r = Val response /\ apy_success response = true /\ apy_data response = Some d /\
    opp_apy o = usableApy d /\ opp_asset o = orStr (data_asset d) "unknown".
Proof.
  unfold opportunityOf. destruct r as [response | e]; [| done].
  destruct (apy_success response) eqn:Hs; [| done].
  destruct (apy_data response) as [d |] eqn:Hd; [| done].
  destruct (flt (Finite 0) (usableApy d)) eqn:Hpos; [| done].
  intros [= <-]. unfold positive. cbn. repeat split; try done.
  exists response, d. by rewrite Hs, Hd.
Qed.

(** A reading of no use offers nothing, and the other way round. *)
Lemma opportunityOf_None vault t r :
  opportunityOf vault t r = None <-> noOpportunity r.
Proof.
  unfold opportunityOf, noOpportunity. destruct r as [response | e]; [| done].
  destruct (apy_success response); [| done].
  destruct (apy_data response) as [d |]; [| done].
  by destruct (flt (Finite 0) (usableApy d)).
Qed.

(** The body of the loop adds what the reading of the vault offers to what
    was gathered before, and goes on in every case. *)
Lemma fetchVault_run chainID vault acc st :
  fetchVault svc chainID vault acc st
    = (Val (acc ++ option_list
                     (opportunityOf vault
                        (Date_now svc (snd (getHistoricalAPY svc chainID vault (ext st))))
                        (fst (getHistoricalAPY svc chainID vault (ext st))))),
       withExt (snd (getHistoricalAPY svc chainID vault (ext st))) st).
Proof.
  unfold fetchVault, tryCatch, bind, await, opportunityOf, withExt.
  destruct (getHistoricalAPY svc chainID vault (ext st)) as [[response | e] x];
    cbn [fst snd].
  2:{ unfold ret. by rewrite app_nil_r. }
  destruct (apy_success response), (apy_data response) as [d |];
    try (unfold ret; by rewrite app_nil_r).
  destruct (flt (Finite 0) (usableApy d)); unfold ret, now; cbn [option_list ext];
    [done|].
  by rewrite app_nil_r.
Qed.

Lemma gather_cons chainID vault rest x :
  gather svc chainID (vault :: rest) x
    = (option_list (opportunityOf vault
                      (Date_now svc (snd (getHistoricalAPY svc chainID vault x)))
                      (fst (getHistoricalAPY svc chainID vault x)))
       ++ fst (gather svc chainID rest (snd (getHistoricalAPY svc chainID vault x))),
       snd (gather svc chainID rest (snd (getHistoricalAPY svc chainID vault x)))).
Proof.
  cbn [gather]. destruct (getHistoricalAPY svc chainID vault x) as [r x1]. cbn [fst snd].
  by destruct (gather svc chainID rest x1).
Qed.

(** The loop of [getYieldOpportunities] gathers what [gather] lists. *)
Lemma fetchAll_gather chainID vaults acc st :
  fetchAll svc chainID vaults acc st
    = (Val (acc ++ fst (gather svc chainID vaults (ext st))),
       withExt (snd (gather svc chainID vaults (ext st))) st).
Proof.
  revert acc st. induction vaults as [| v vs IH]; intros acc st.
  - cbn. by rewrite app_nil_r, withExt_same.
  - cbn [fetchAll]. unfold bind. rewrite fetchVault_run, IH, gather_cons.
    cbn [fst snd ext withExt]. by rewrite app_assoc.
Qed.

Lemma gather_app chainID vs1 vs2 x :
  gather svc chainID (vs1 ++ vs2) x
    = (fst (gather svc chainID vs1 x)
       ++ fst (gather svc chainID vs2 (snd (gather svc chainID vs1 x))),
       snd (gather svc chainID vs2 (snd (gather svc chainID vs1 x)))).
Proof.
  revert x. induction vs1 as [| v vs IH]; intros x.
  - cbn. by destruct (gather svc chainID vs2 x).
  - rewrite <- app_comm_cons, !gather_cons, IH. cbn [fst snd]. by rewrite app_assoc.
Qed.

Lemma gather_positive chainID vaults x :
  Forall positive (fst (gather svc chainID vaults x)).
Proof.
  revert x. induction vaults as [| v vs IH]; intros x; [constructor|].
  rewrite gather_cons. cbn [fst]. apply Forall_app. split; [| apply IH].
  destruct (opportunityOf v _ _) as [o |] eqn:Ho; [| constructor].
  apply opportunityOf_Some in Ho as (_ & Hpos & _). by repeat constructor.
Qed.

Lemma gather_numeric chainID vaults x :
  Forall numeric (fst (gather svc chainID vaults x)).
Proof.
  eapply Forall_impl; [apply gather_positive|]. apply positive_numeric.
Qed.

Lemma gather_vaults chainID vaults x :
  sublist (map opp_vault (fst (gather svc chainID vaults x))) vaults.
Proof.
  revert x. induction vaults as [| v vs IH]; intros x; [done|].
  rewrite gather_cons. cbn [fst].
  destruct (opportunityOf v _ _) as [o |] eqn:Ho; cbn.
  - apply opportunityOf_Some in Ho as (<- & _). by apply sublist_skip.
  - by apply sublist_cons.
Qed.

Lemma getYieldOpportunities_run vaults chainID st :
  getYieldOpportunities svc vaults chainID st
    = (Val (sortByApyDesc (fst (gather svc chainID vaults (ext st)))),
       withExt (snd (gather svc chainID vaults (ext st))) st).
Proof.
  unfold getYieldOpportunities, bind. by rewrite fetchAll_gather.
Qed.

Lemma findBestYieldForAsset_run asset vaults chainID st :
  findBestYieldForAsset svc asset vaults chainID st
    = (Val (head (match asset with
                  | EmptyString => sortByApyDesc (fst (gather svc chainID vaults (ext st)))
                  | _ => List.filter (sameAsset asset)
                           (sortByApyDesc (fst (gather svc chainID vaults (ext st))))
                  end)),
       withExt (snd (gather svc chainID vaults (ext st))) st).
Proof.
  unfold findBestYieldForAsset, bind. by rewrite getYieldOpportunities_run.
Qed.

(** *** The decision *)

Lemma at_index_Some {A} (l : list A) index a :
  at_index l index = Some a <-> (0 <= index)%Z /\ l !! Z.to_nat index = Some a.
Proof.
  unfold at_index. destruct (index <? 0)%Z eqn:Hneg.
  - apply Z.ltb_lt in Hneg. split; [done | lia].
  - apply Z.ltb_ge in Hneg. tauto.
Qed.

(** [evaluate] returns what [decide] says for the position read at
    [index], which is active, its current yield, the best opportunity that
    was found and the threshold of the service. *)
Lemma evaluate_decides user index st d st' :
  evaluate svc user index st = (Val d, st') ->
  exists positions st1 pos best,
    getUserPositions svc user st = (Val positions, st1) /\
    at_index positions index = Some pos /\
    active pos = true /\
    findBestYieldOpportunity svc (Some (asset pos)) st1 = (Val (Some best), st') /\
    d = decide (optimizationThreshold st) user index pos (orNum (apy pos) (Finite 0)) best.
Proof.
  unfold evaluate, bind, throw. intros Hrun.
  pose proof (ReadOnly_getUserPositions user st) as (_ & Hthr & _).
  destruct (getUserPositions svc user st) as [[positions | e] st1]; [| done].
  simpl in Hthr.
  destruct (_ <=? _)%Z; [done|].
  destruct (at_index positions index) as [pos |] eqn:Hpos; [| done].
  destruct (active pos) eqn:Hact; [| done]. simpl in Hrun.
  pose proof (ReadOnly_findBestYieldForAsset (orStr (Some (asset pos)) "")
                GLUEX_VAULTS "hyperevm" st1) as (_ & Hthr' & _).
  unfold findBestYieldOpportunity in *.
  destruct (findBestYieldForAsset svc _ GLUEX_VAULTS "hyperevm" st1)
    as [[[best |] | e] st2] eqn:Hbest; [| done | done].
  simpl in Hthr'. unfold getThreshold, ret in Hrun. injection Hrun as <- <-.
  exists positions, st1, pos, best. rewrite Hthr', Hthr. done.
Qed.

(** The best opportunity that is found for a position is in the asset of
    the position, when that is not the empty string. *)
Lemma findBestYieldOpportunity_asset asset st best st' :
  asset <> ""%string ->
  findBestYieldOpportunity svc (Some asset) st = (Val (Some best), st') ->
  toLowerCase (opp_asset best) = toLowerCase asset.
Proof.
  intros Hasset. unfold findBestYieldOpportunity.
  rewrite findBestYieldForAsset_run.
  destruct asset as [| a rest]; [done|]. cbn [orStr].
  intros [= Hhead _].
  apply head_Some_elem_of in Hhead.
  apply list_elem_of_In, filter_In in Hhead as [_ Hsame].
  unfold sameAsset in Hsame. by apply String.eqb_eq in Hsame.
Qed.

(** C4, as amended.  The engine asks for the whitelisted vaults.  The
    vaults are asked in their order, and each one whose reading offers a
    positive yield is listed with it.  For a position's asset the engine
    picks, among the listed entries of that asset (compared without case),
    the one with the highest yield and the first of them on a tie; only a
    call without an asset picks among all entries.  When no entry has the
    asset of the position, nothing is found and the reallocation ends with
    "No yield opportunities found", whatever the other vaults offer. *)
Theorem findBestYieldForAsset_picks_best :
  (forall asset st,
      findBestYieldOpportunity svc (Some asset) st
        = findBestYieldForAsset svc asset GLUEX_VAULTS "hyperevm" st) /\
  (forall asset vaults chainID st,
      let gathered := fst (gather svc chainID vaults (ext st)) in
      exists best,
        findBestYieldForAsset svc asset vaults chainID st
          = (Val best, withExt (snd (gather svc chainID vaults (ext st))) st) /\
        BestOf (match asset with
                | EmptyString => gathered
                | _ => List.filter (sameAsset asset) gathered
                end) best) /\
  (forall chainID vs1 v vs2 x,
      let reading := getHistoricalAPY svc chainID v (snd (gather svc chainID vs1 x)) in
      fst (gather svc chainID (vs1 ++ v :: vs2) x)
        = fst (gather svc chainID vs1 x)
          ++ option_list (opportunityOf v (Date_now svc (snd reading)) (fst reading))
          ++ fst (gather svc chainID vs2 (snd reading))) /\
  (forall user index st positions st1 pos,
      getUserPositions svc user st = (Val positions, st1) ->
      at_index positions index = Some pos ->
      active pos = true ->
      asset pos <> ""%string ->
      List.filter (sameAsset (asset pos))
                  (fst (gather svc "hyperevm" GLUEX_VAULTS (ext st1))) = [] ->
      exists st',
        evaluate svc user index st = (Throw "No yield opportunities found", st') /\
        optimizePosition svc optimizerContract user index st
          = (Val (failed user index "No yield opportunities found"), st')).
Proof.
  split; [| split; [| split]].
  - intros asset st. by destruct asset.
  - intros asset vaults chainID st gathered. subst gathered.
    rewrite findBestYieldForAsset_run. eexists. split; [reflexivity|].
    destruct asset.
    + apply head_sortByApyDesc, gather_numeric.
    + apply head_filter_sortByApyDesc, gather_numeric.
  - intros chainID vs1 v vs2 x reading. subst reading.
    by rewrite gather_app, gather_cons.
  - intros user index st positions st1 pos Hread Hpos Hact Hasset Hnone.
    assert (Heval : exists st',
               evaluate svc user index st = (Throw "No yield opportunities found", st')).
    { unfold evaluate, bind at 1. rewrite Hread.
      apply at_index_Some in Hpos as Hpos'. destruct Hpos' as [Hnn Hlook].
      apply lookup_lt_Some in Hlook.
      destruct (_ <=? _)%Z eqn:Hout; [apply Z.leb_le in Hout; lia|].
      rewrite Hpos, Hact. cbn [negb]. unfold bind, findBestYieldOpportunity.
      rewrite findBestYieldForAsset_run.
      destruct (asset pos) as [| a rest] eqn:Ha; [done|]. cbn [orStr].
      rewrite filter_sortByApyDesc by apply gather_numeric.
      rewrite Hnone. cbn. by eexists. }
    destruct Heval as [st' Heval]. exists st'. split; [done|].
    unfold optimizePosition, tryCatch, bind. by rewrite Heval.
Qed.

(** *** The execution *)

(** What [execute] leaves behind: at most one submitted call, for this
    index, to the vault of the best opportunity and with no floor on the
    shares; a result only after a receipt with status success and a
    document saved; no document when it throws. *)
Lemma execute_run user index pos cur best st :
  exists r st',
    execute svc optimizerContract user index pos cur best st = (r, st') /\
    optimizationThreshold st' = optimizationThreshold st /\
    (exists calls,
        submitted st' = submitted st ++ calls /\
        Forall (fun call => fst call = Z.to_N index /\
                            targetVault (snd call) = opp_vault best /\
                            minSharesOut (snd call) = 0%N) calls) /\
    match r with
    | Throw _ => yieldOptimizations st' = yieldOptimizations st
    | Val res =>
        exists txhash doc,
          res = mkOptimizationResult true user index (vault pos) (opp_vault best)
                  (assets pos) 0 (opp_apy best) cur (Some txhash) None /\
          receipts st' = receipts st ++ [Val status_success] /\
          doc = recordOf user index pos cur best txhash (yo_timestamp doc) /\
          yieldOptimizations st' = yieldOptimizations st ++ [doc]
    end.
Proof.
  unfold execute, bind.
  pose proof (ReadOnly_prepareSwap pos best st) as (Hyo & Hthr & Hsub & Hrec).
  destruct (prepareSwap svc optimizerContract pos best st) as [[legs | e] st1];
    simpl in Hyo, Hthr, Hsub, Hrec.
  2:{ eexists _, _. split; [done|]. split; [done|]. split; [| done].
      exists []. rewrite app_nil_r. by split. }
  destruct legs as [[[[rs cds] its] ots] ias].
  unfold submitOptimizePosition, bind, await. cbn [ext yieldOptimizations
    optimizationThreshold submitted receipts].
  destruct (writeOptimizePosition svc _ _ (ext st1)) as [[txhash | e] x2].
  2:{ eexists _, _. split; [done|]. cbn. split; [done|]. split; [| done].
      eexists [_]. rewrite Hsub. split; [done|]. by repeat constructor. }
  unfold awaitReceipt. cbn [ext yieldOptimizations optimizationThreshold
    submitted receipts].
  destruct (waitForTransactionReceipt svc txhash x2) as [[[] | e] x3].
  3:{ eexists _, _. split; [done|]. cbn. split; [done|]. split; [| done].
      eexists [_]. rewrite Hsub. split; [done|]. by repeat constructor. }
  2:{ eexists _, _. split; [done|]. cbn. split; [done|]. split; [| done].
      eexists [_]. rewrite Hsub. split; [done|]. by repeat constructor. }
  unfold now, saveYieldOptimization, tryCatch, bind, await, throw, ret.
  cbn [ext yieldOptimizations optimizationThreshold submitted receipts
       yo_userAddress yo_positionIndex yo_fromVault yo_toVault
       yo_assetsReallocated yo_previousAPY yo_newAPY yo_transactionHash
       yo_timestamp option_map].
  destruct (document_save svc _ x3) as [[[] | e] x4].
  2:{ eexists _, _. split; [done|]. cbn. split; [done|]. split; [| done].
      eexists [_]. rewrite Hsub. split; [done|]. by repeat constructor. }
  eexists _, _. split; [done|]. cbn. split; [done|]. split.
  { eexists [_]. rewrite Hsub. split; [done|]. by repeat constructor. }
  eexists txhash, _. split; [done|]. rewrite Hrec, Hyo. split; [done|].
  split; [| done]. done.
Qed.

(** When the swap is prepared, the wallet takes the call, the receipt has
    status success and the store takes the document, [execute] reports
    success and the document is in the store. *)
Lemma execute_succeeds user index pos cur best st rs cds its ots ias st1 txhash x2 x3 x4 :
  prepareSwap svc optimizerContract pos best st = (Val (rs, cds, its, ots, ias), st1) ->
  writeOptimizePosition svc (Z.to_N index)
    (mkOptimizeArgs rs cds its ots ias (opp_vault best) 0) (ext st1) = (Val txhash, x2) ->
  waitForTransactionReceipt svc txhash x2 = (Val status_success, x3) ->
  document_save svc (recordOf user index pos cur best txhash (Date_now svc x3)) x3
    = (Val tt, x4) ->
  execute svc optimizerContract user index pos cur best st
    = (Val (mkOptimizationResult true user index (vault pos) (opp_vault best)
              (assets pos) 0 (opp_apy best) cur (Some txhash) None),
       mkState x4
         (yieldOptimizations st
            ++ [recordOf user index pos cur best txhash (Date_now svc x3)])
         (optimizationThreshold st)
         (submitted st
            ++ [(Z.to_N index, mkOptimizeArgs rs cds its ots ias (opp_vault best) 0)])
         (receipts st ++ [Val status_success])).
Proof.
  intros Hprep Hwrite Hwait Hsave.
  pose proof (ReadOnly_prepareSwap pos best st) as (Hyo & Hthr & Hsub & Hrec).
  rewrite Hprep in Hyo, Hthr, Hsub, Hrec. cbn [snd] in *.
  unfold execute, bind at 1. rewrite Hprep.
  unfold submitOptimizePosition, bind, await. cbn [ext yieldOptimizations
    optimizationThreshold submitted receipts].
  rewrite Hwrite.
  unfold awaitReceipt. cbn [ext yieldOptimizations optimizationThreshold
    submitted receipts].
  rewrite Hwait.
  unfold now, saveYieldOptimization, tryCatch, bind, await, throw, ret.
  cbn [ext yieldOptimizations optimizationThreshold submitted receipts
       yo_userAddress yo_positionIndex yo_fromVault yo_toVault
       yo_assetsReallocated yo_previousAPY yo_newAPY yo_transactionHash
       yo_timestamp option_map].
  fold (recordOf user index pos cur best txhash (Date_now svc x3)).
  rewrite Hsave. cbn [ext yieldOptimizations optimizationThreshold submitted receipts].
  by rewrite Hyo, Hthr, Hsub, Hrec.
Qed.

(** [optimizePosition] never throws: its result is about the user and
    index it was called with, and it reports success exactly when it has
    saved one document, which it does only after a receipt with status
    success. *)
Lemma optimizePosition_run user index st :
  exists res st',
    optimizePosition svc optimizerContract user index st = (Val res, st') /\
    resultKey res = (user, index) /\
    optimizationThreshold st' = optimizationThreshold st /\
    (exists calls,
        submitted st' = submitted st ++ calls /\
        Forall (fun call => minSharesOut (snd call) = 0%N) calls) /\
    ((success res = false /\ yieldOptimizations st' = yieldOptimizations st) \/
     (success res = true /\
      receipts st' = receipts st ++ [Val status_success] /\
      exists doc,
        yieldOptimizations st' = yieldOptimizations st ++ [doc] /\
        yo_userAddress doc = toLowerCase user /\
        yo_positionIndex doc = index /\
        yo_transactionHash doc = option_map toLowerCase (transactionHash res))).
Proof.
  unfold optimizePosition, tryCatch, bind.
  pose proof (ReadOnly_evaluate user index st) as (Hyo & Hthr & Hsub & Hrec).
  destruct (evaluate svc user index st) as [[d | e] st1] eqn:Heval;
    simpl in Hyo, Hthr, Hsub, Hrec.
  2:{ eexists _, _. split; [done|]. split; [done|]. split; [done|].
      split; [| by left]. exists []. rewrite app_nil_r. by split. }
  destruct d as [result | pos cur best].
  - apply evaluate_decides in Heval as (? & ? & p & b & _ & _ & _ & _ & Hd).
    eexists _, _. split; [done|].
    assert (Hres : resultKey result = (user, index) /\ success result = false).
    { symmetry in Hd. by apply decide_skip in Hd as [-> | ->]. }
    destruct Hres as [Hkey Hfail].
    split; [done|]. split; [done|]. split; [| by left].
    exists []. rewrite app_nil_r. by split.
  - destruct (execute_run user index pos cur best st1)
      as (r & st' & Hrun & Hthr' & (calls & Hcalls & Hall) & Hr).
    rewrite Hrun. destruct r as [res | e].
    + destruct Hr as (txhash & doc & -> & Hrec' & Hdoc & Hyo').
      eexists _, _. split; [done|]. split; [done|].
      split; [congruence|]. split.
      { exists calls. split; [congruence|].
        eapply Forall_impl; [exact Hall|]. by intros call (_ & _ & ?). }
      right. split; [done|]. split; [congruence|].
      exists doc. split; [congruence|]. rewrite Hdoc. done.
    + eexists _, _. split; [done|]. split; [done|].
      split; [congruence|]. split.
      { exists calls. split; [congruence|].
        eapply Forall_impl; [exact Hall|]. by intros call (_ & _ & ?). }
      left. split; [done | congruence].
Qed.

(** *** The batch *)

Lemma Grows_refl st : Grows st st.
Proof.
  split; [done|]. split; exists []; rewrite app_nil_r; [done|]. by split.
Qed.

Lemma Grows_trans st1 st2 st3 : Grows st1 st2 -> Grows st2 st3 -> Grows st1 st3.
Proof.
  intros (Ht & (d1 & Hd1) & (c1 & Hc1 & Hz1)) (Ht' & (d2 & Hd2) & (c2 & Hc2 & Hz2)).
  split; [congruence|]. split.
  - exists (d1 ++ d2). by rewrite Hd2, Hd1, app_assoc.
  - exists (c1 ++ c2). split; [by rewrite Hc2, Hc1, app_assoc|].
    by apply Forall_app.
Qed.

Lemma ReadOnly_Grows {A} (m : M A) st : ReadOnly m -> Grows st (snd (m st)).
Proof.
  intros Hm. destruct (Hm st) as (Hyo & Hthr & Hsub & _).
  split; [done|]. split; exists []; rewrite app_nil_r; [done|]. by split.
Qed.

Lemma optimizePosition_Grows user index st :
  Grows st (snd (optimizePosition svc optimizerContract user index st)).
Proof.
  destruct (optimizePosition_run user index st)
    as (res & st' & -> & _ & Hthr & Hcalls & Hdocs).
  simpl. split; [done|]. split; [| done].
  destruct Hdocs as [[_ Hsame] | (_ & _ & doc & Hdoc & _)].
  - exists []. by rewrite app_nil_r.
  - by exists [doc].
Qed.

Lemma getUserPositions_run user st :
  exists positions st',
    getUserPositions svc user st = (Val positions, st') /\ Grows st st'.
Proof.
  pose proof (ReadOnly_Grows (getUserPositions svc user) st
                (ReadOnly_getUserPositions user)) as Hgrows.
  unfold getUserPositions, tryCatch in *.
  destruct (bind _ _ st) as [[positions | e] st']; eauto.
Qed.

(** Every active position that was read gets one result, in order, and
    the two counters count them. *)
Lemma forPositions_run user positions b st :
  exists b' st' outs,
    forPositions svc optimizerContract user positions b st = (Val b', st') /\
    results b' = results b ++ outs /\
    map resultKey outs
      = map (fun p => (user, Z.of_nat (positionIndex p))) (List.filter active positions) /\
    (optimizedCount b' + skippedCount b'
       = optimizedCount b + skippedCount b + length outs)%nat /\
    Grows st st'.
Proof.
  revert b st. induction positions as [| p ps IH]; intros b st; simpl.
  - exists b, st, []. rewrite app_nil_r.
    split; [done|]. split; [done|]. split; [done|].
    split; [simpl; lia | apply Grows_refl].
  - destruct (active p) eqn:Hact; simpl; [| apply IH].
    unfold bind.
    pose proof (optimizePosition_Grows user (Z.of_nat (positionIndex p)) st) as Hg.
    destruct (optimizePosition_run user (Z.of_nat (positionIndex p)) st)
      as (res & st1 & Hrun & Hkey & _).
    rewrite Hrun in *. simpl in Hg.
    destruct (IH (if success res
                  then mkBatch (S (optimizedCount b)) (skippedCount b) (results b ++ [res])
                  else mkBatch (optimizedCount b) (S (skippedCount b)) (results b ++ [res]))
                 st1)
      as (b' & st' & outs & Hrest & Hres & Hkeys & Hcount & Hg').
    exists b', st', (res :: outs). split; [done|]. split; [| split; [| split]].
    + rewrite Hres. destruct (success res); simpl; by rewrite <- app_assoc.
    + simpl. by rewrite Hkey, Hkeys.
    + rewrite Hcount. destruct (success res); simpl; lia.
    + by apply (Grows_trans _ st1).
Qed.

Lemma forUsers_run users b st :
  exists b' st' outs,
    forUsers svc optimizerContract users b st = (Val b', st') /\
    results b' = results b ++ outs /\
    (optimizedCount b' + skippedCount b'
       = optimizedCount b + skippedCount b + length outs)%nat /\
    Grows st st'.
Proof.
  revert b st. induction users as [| u us IH]; intros b st; simpl.
  - exists b, st, []. rewrite app_nil_r.
    split; [done|]. split; [done|]. split; [simpl; lia | apply Grows_refl].
  - unfold bind.
    destruct (getUserPositions_run u st) as (positions & st1 & -> & Hg1).
    destruct (forPositions_run u positions b st1)
      as (b1 & st2 & outs1 & -> & Hres1 & _ & Hcount1 & Hg2).
    destruct (IH b1 st2) as (b' & st' & outs2 & Hrun & Hres2 & Hcount2 & Hg3).
    exists b', st', (outs1 ++ outs2). split; [done|]. split; [| split].
    + by rewrite Hres2, Hres1, app_assoc.
    + rewrite Hcount2, Hcount1, length_app. lia.
    + eapply Grows_trans; [exact Hg1|]. by eapply Grows_trans.
Qed.

Lemma forUsers_app us1 us2 b st :
  forUsers svc optimizerContract (us1 ++ us2) b st
    = bind (forUsers svc optimizerContract us1 b)
           (fun b1 => forUsers svc optimizerContract us2 b1) st.
Proof.
  revert b st. induction us1 as [| u us IH]; intros b st; simpl; [done|].
  unfold bind.
  destruct (getUserPositions svc u st) as [[positions | e] st1]; [| done].
  destruct (forPositions svc optimizerContract u positions b st1)
    as [[b1 | e] st2]; [| done].
  rewrite IH. done.
Qed.

Lemma getUsersWithYieldPositions_run st :
  exists users st',
    getUsersWithYieldPositions svc st = (Val users, st') /\ Grows st st'.
Proof.
  assert (Hro : ReadOnly (getUsersWithYieldPositions svc)).
  { unfold getUsersWithYieldPositions. read_only. }
  pose proof (ReadOnly_Grows _ st Hro) as Hgrows.
  unfold getUsersWithYieldPositions, tryCatch in *.
  destruct (await _ st) as [[users | e] st']; eauto.
Qed.

Lemma optimizeAllPositions_run st :
  exists users st0 b st',
    getUsersWithYieldPositions svc st = (Val users, st0) /\
    forUsers svc optimizerContract users (mkBatch 0 0 []) st0 = (Val b, st') /\
    optimizeAllPositions svc optimizerContract st = (Val (Some b), st') /\
    (optimizedCount b + skippedCount b = length (results b))%nat /\
    Grows st st'.
Proof.
  unfold optimizeAllPositions, tryCatch, bind.
  destruct (getUsersWithYieldPositions_run st) as (users & st1 & Husers & Hg).
  destruct (forUsers_run users (mkBatch 0 0 []) st1)
    as (b & st' & outs & Hall & Hres & Hcount & Hg').
  exists users, st1, b, st'. split; [done|]. split; [done|].
  split; [by rewrite Husers, Hall|].
  simpl in *. split; [by rewrite Hres, Hcount|].
  by apply (Grows_trans _ st1).
Qed.

(** *** The claims about gathering, recording and submitting *)

(** C8.  [getYieldOpportunities] always returns, with the sorted list of
    what the vaults offer: a vault whose reading is of no use (the query
    throws or fails, there is no data, the yield is not positive) offers
    nothing, and the vaults before and after it are listed as they are
    read.  [optimizeAllPositions] always returns its counts; whatever
    happened for the users before, each active position of a user gets its
    result when the turn of the user comes, and these results are among
    those of the run, between the results for the users before and for the
    users after. *)
Theorem failures_do_not_abort :
  (forall vaults chainID st,
      getYieldOpportunities svc vaults chainID st
        = (Val (sortByApyDesc (fst (gather svc chainID vaults (ext st)))),
           withExt (snd (gather svc chainID vaults (ext st))) st)) /\
  (forall chainID vs1 v vs2 x,
      let reading := getHistoricalAPY svc chainID v (snd (gather svc chainID vs1 x)) in
      noOpportunity (fst reading) ->
      fst (gather svc chainID (vs1 ++ v :: vs2) x)
        = fst (gather svc chainID vs1 x) ++ fst (gather svc chainID vs2 (snd reading))) /\
  (forall st,
      exists users st0 b st',
        getUsersWithYieldPositions svc st = (Val users, st0) /\
        optimizeAllPositions svc optimizerContract st = (Val (Some b), st') /\
        (optimizedCount b + skippedCount b = length (results b))%nat /\
        forall us1 u us2,
          users = us1 ++ u :: us2 ->
          exists b1 st1 positions st1' b2 st2 outs later,
            forUsers svc optimizerContract us1 (mkBatch 0 0 []) st0 = (Val b1, st1) /\
            getUserPositions svc u st1 = (Val positions, st1') /\
            forPositions svc optimizerContract u positions b1 st1' = (Val b2, st2) /\
            map resultKey outs
              = map (fun p => (u, Z.of_nat (positionIndex p)))
                    (List.filter active positions) /\
            results b = results b1 ++ outs ++ later).
Proof.
  split; [| split].
  - intros vaults chainID st. apply getYieldOpportunities_run.
  - intros chainID vs1 v vs2 x reading Hno. subst reading.
    rewrite gather_app, gather_cons. cbn [fst snd].
    apply (opportunityOf_None v (Date_now svc
             (snd (getHistoricalAPY svc chainID v (snd (gather svc chainID vs1 x))))))
      in Hno.
    by rewrite Hno.
  - intros st.
    destruct (optimizeAllPositions_run st)
      as (users & st0 & b & st' & Husers & Hall & Hrun & Hcount & _).
    exists users, st0, b, st'. do 3 (split; [done|]).
    intros us1 u us2 ->.
    destruct (forUsers_run us1 (mkBatch 0 0 []) st0) as (b1 & st1 & outs1 & Hrun1 & _).
    destruct (getUserPositions_run u st1) as (positions & st1' & Hpos & _).
    destruct (forPositions_run u positions b1 st1')
      as (b2 & st2 & outs & Hrun2 & Hres2 & Hkeys & _).
    destruct (forUsers_run us2 b2 st2) as (b3 & st3 & later & Hrun3 & Hres3 & _).
    exists b1, st1, positions, st1', b2, st2, outs, later.
    do 4 (split; [done|]).
    rewrite forUsers_app in Hall. unfold bind in Hall. rewrite Hrun1 in Hall.
    cbn [forUsers] in Hall. unfold bind in Hall. rewrite Hpos, Hrun2, Hrun3 in Hall.
    injection Hall as <- _. by rewrite Hres3, Hres2, app_assoc.
Qed.

(** C7, as amended.  [optimizePosition] always returns a result.  The
    store is left as it was when the result is a failure, which it is after
    a failed confirmation or any failure before it, or when the store
    refuses the document; the result is a success exactly when one document
    has been added at the end of the store, and then the receipt awaited
    for the transaction had status success.  When the engine decides to
    move, the swap is prepared, the wallet takes the call, the receipt has
    status success and the store takes the document, the result is a
    success and the document of the move is the one added.  A whole batch,
    too, only adds documents at the end of the store. *)
Theorem record_only_after_confirmed_success :
  (forall user index st,
      exists res st' docs,
        optimizePosition svc optimizerContract user index st = (Val res, st') /\
        yieldOptimizations st' = yieldOptimizations st ++ docs /\
        (success res = false -> docs = []) /\
        (success res = true ->
           receipts st' = receipts st ++ [Val status_success] /\
           exists doc,
             docs = [doc] /\
             yo_userAddress doc = toLowerCase user /\
             yo_positionIndex doc = index /\
             yo_transactionHash doc = option_map toLowerCase (transactionHash res))) /\
  (forall user index st pos cur best st0 rs cds its ots ias st1 txhash x2 x3 x4,
      evaluate svc user index st = (Val (Proceed pos cur best), st0) ->
      prepareSwap svc optimizerContract pos best st0
        = (Val (rs, cds, its, ots, ias), st1) ->
      writeOptimizePosition svc (Z.to_N index)
        (mkOptimizeArgs rs cds its ots ias (opp_vault best) 0) (ext st1)
        = (Val txhash, x2) ->
      waitForTransactionReceipt svc txhash x2 = (Val status_success, x3) ->
      document_save svc (recordOf user index pos cur best txhash (Date_now svc x3)) x3
        = (Val tt, x4) ->
      exists res st',
        optimizePosition svc optimizerContract user index st = (Val res, st') /\
        success res = true /\
        transactionHash res = Some txhash /\
        yieldOptimizations st'
          = yieldOptimizations st
            ++ [recordOf user index pos cur best txhash (Date_now svc x3)] /\
        receipts st' = receipts st ++ [Val status_success]) /\
  (forall st,
      exists b st' docs,
        optimizeAllPositions svc optimizerContract st = (Val (Some b), st') /\
        yieldOptimizations st' = yieldOptimizations st ++ docs).
Proof.
  split; [| split].
  - intros user index st.
    destruct (optimizePosition_run user index st)
      as (res & st' & Hrun & _ & _ & _ & Hcases).
    destruct Hcases as [[Hfail Hsame] | (Hok & Hrec & doc & Hdoc & Hfields)].
    + exists res, st', []. rewrite app_nil_r. repeat split; try done; congruence.
    + exists res, st', [doc]. split; [done|]. split; [done|].
      split; [congruence|]. intros _. split; [done|]. by exists doc.
  - intros user index st pos cur best st0 rs cds its ots ias st1 txhash x2 x3 x4
           Heval Hprep Hwrite Hwait Hsave.
    pose proof (ReadOnly_evaluate user index st) as (Hyo & _ & _ & Hrec).
    rewrite Heval in Hyo, Hrec. cbn [snd] in *.
    eexists _, _. split.
    { unfold optimizePosition, tryCatch, bind. rewrite Heval.
      by rewrite (execute_succeeds _ _ _ _ _ _ _ _ _ _ _ _ _ _ _ _
                    Hprep Hwrite Hwait Hsave). }
    cbn [success transactionHash yieldOptimizations receipts].
    by rewrite Hyo, Hrec.
  - intros st.
    destruct (optimizeAllPositions_run st)
      as (users & st0 & b & st' & _ & _ & Hrun & _ & _ & (docs & Hdocs) & _).
    by exists b, st', docs.
Qed.

(** C10.  Every call that [optimizePosition], and so a whole batch, hands
    to the wallet has [minSharesOut = 0].  The contract receives that value
    unchanged, and its check [newShares >= minSharesOut] then holds for
    every number of shares: when such a call reverts with "Insufficient
    shares", it is a callee of the contract that has reverted with that
    reason. *)
Theorem executor_submits_no_floor :
  (forall user index st,
      exists calls,
        submitted (snd (optimizePosition svc optimizerContract user index st))
          = submitted st ++ calls /\
        Forall (fun call => minSharesOut (snd call) = 0%N) calls) /\
  (forall st,
      exists calls,
        submitted (snd (optimizeAllPositions svc optimizerContract st))
          = submitted st ++ calls /\
        Forall (fun call => minSharesOut (snd call) = 0%N) calls) /\
  (forall st calls call addr bytes,
      submitted (snd (optimizeAllPositions svc optimizerContract st))
        = submitted st ++ calls ->
      call ∈ calls ->
      Ledger.minSharesOut (encodeArgs addr bytes (snd call)) = 0%N /\
      forall World (ledgerExt : Ledger.Externals World) this sender c,
        (forall newShares (c1 : Ledger.Chain (World := World)),
            Ledger.require
              (Ledger.minSharesOut (encodeArgs addr bytes (snd call)) <=? newShares)%N
              "Insufficient shares" c1 = Ledger.Ok tt c1) /\
        (snd (Ledger.transact
                (Ledger.optimizePosition ledgerExt this sender (fst call)
                   (encodeArgs addr bytes (snd call))) c)
           = Ledger.Reverted "Insufficient shares" ->
         Ledger.CalleeReverts ledgerExt "Insufficient shares")).
Proof.
  split; [| split].
  - intros user index st.
    by destruct (optimizePosition_Grows user index st) as (_ & _ & Hcalls).
  - intros st.
    destruct (optimizeAllPositions_run st)
      as (users & st0 & b & st' & _ & _ & -> & _ & _ & _ & Hcalls).
    done.
  - intros st calls call addr bytes Hsub Hin.
    assert (Hzero : minSharesOut (snd call) = 0%N).
    { destruct (optimizeAllPositions_run st)
        as (users & st0 & b & st' & _ & _ & Hrun & _ & _ & _ & (calls' & Hcalls & Hall)).
      rewrite Hrun in Hsub. cbn [snd] in Hsub. rewrite Hcalls in Hsub.
      apply app_inv_head in Hsub. subst calls'.
      by eapply Forall_forall in Hall. }
    split; [done|].
    intros World ledgerExt this sender c.
    by apply LedgerFacts.optimizePosition_zero_floor.
Qed.

End Engine.

(** ** The claims about the decision *)

Section Decision.

Variables (threshold : number) (user : string) (index : Z).
Variables (currentPosition : UserPosition) (currentAPY : number).
Variable bestOpportunity : YieldOpportunity.

Lemma decide_cases :
  decide threshold user index currentPosition currentAPY bestOpportunity
    = (if flt (fsub (opp_apy bestOpportunity) currentAPY) threshold
       then Skip (skipped user index currentPosition currentAPY bestOpportunity
                          (BelowThreshold (fsub (opp_apy bestOpportunity) currentAPY)
                                          threshold))
       else if String.eqb (toLowerCase (opp_vault bestOpportunity))
                          (toLowerCase (vault currentPosition))
       then Skip (skipped user index currentPosition currentAPY bestOpportunity
                          AlreadyInBestVault)
       else Proceed currentPosition currentAPY bestOpportunity).
Proof. reflexivity. Qed.

Lemma decide_Proceed_iff :
  (exists p c b,
      decide threshold user index currentPosition currentAPY bestOpportunity
        = Proceed p c b) <->
  (flt (fsub (opp_apy bestOpportunity) currentAPY) threshold = false /\
   toLowerCase (opp_vault bestOpportunity) <> toLowerCase (vault currentPosition)).
Proof.
  rewrite decide_cases.
  destruct (flt _ threshold) eqn:Hcmp.
  - split; [by intros (p & c & b & ?) | by intros [? _]].
  - destruct (String.eqb _ _) eqn:Heq.
    + apply String.eqb_eq in Heq. split; [by intros (p & c & b & ?) | tauto].
    + apply String.eqb_neq in Heq. split; [done | eauto].
Qed.

Lemma decide_same_vault :
  (toLowerCase (opp_vault bestOpportunity) = toLowerCase (vault currentPosition) ->
   exists r,
     decide threshold user index currentPosition currentAPY bestOpportunity = Skip r /\
     success r = false) /\
  (forall p c b,
      decide threshold user index currentPosition currentAPY bestOpportunity
        = Proceed p c b ->
      b = bestOpportunity /\
      toLowerCase (opp_vault b) <> toLowerCase (vault currentPosition)).
Proof.
  rewrite decide_cases. split.
  - intros Hsame. apply String.eqb_eq in Hsame. rewrite Hsame.
    destruct (flt _ threshold); eauto.
  - intros p c b. destruct (flt _ threshold); [done|].
    destruct (String.eqb _ _) eqn:Heq; [done|].
    intros [= _ _ <-]. by apply String.eqb_neq in Heq.
Qed.

End Decision.

(** ** The engine run on scripted worlds *)

Import BackendTest.
Local Open Scope string_scope.
Local Open Scope list_scope.

(** The rounding on values that are known: 0.1 is the double
    3602879701896397 / 2^55, 0.1 + 0.2 is 0.30000000000000004, half an ulp
    above 1 goes to 1 (the even neighbour), a subtraction of two infinities
    is [NaN], and the rounding overflows from [2^1024 - 2^970] on. *)
Example round64_known_values :
  literal 1 10 = Finite (3602879701896397 # 36028797018963968) /\
  fadd (literal 1 10) (literal 2 10) = Finite (1351079888211149 # 4503599627370496) /\
  round64 (1 + pow2 (-53)) = Finite 1 /\
  round64 (1 + pow2 (-53) + pow2 (-60)) = Finite (1 + pow2 (-52)) /\
  round64 (pow2 (-1075)) = Finite 0 /\
  round64 (pow2 1024 - pow2 970) = Infinity false /\
  (exists largest, round64 (pow2 1024 - pow2 970 - 1) = Finite largest) /\
  fsub (Infinity false) (Infinity false) = NaN /\
  flt NaN defaultThreshold = false.
Proof. repeat split; try (vm_compute; reflexivity). eexists. vm_compute. reflexivity. Qed.

(** C5, as amended.  Once a position and a best opportunity are read, the
    engine proceeds exactly when the difference of the best and the current
    yield, as the double that the subtraction gives, is not below the
    threshold, and the best vault is not the current vault (compared
    without case).  When neither the difference nor the threshold is
    [NaN], "not below" is "at least".  What is decided on is the active
    position read at the index and the best opportunity found for its
    asset.  With a position in vault A at 3% and vault B at 4.2%, the
    engine proceeds towards B for a threshold of 0.5 and skips for a
    threshold of 2. *)
Theorem proceeds_iff_threshold_and_other_vault :
  (forall threshold user index pos cur best,
      (exists p c b, decide threshold user index pos cur best = Proceed p c b) <->
      (flt (fsub (opp_apy best) cur) threshold = false /\
       toLowerCase (opp_vault best) <> toLowerCase (vault pos))) /\
  (forall difference threshold,
      difference <> NaN -> threshold <> NaN ->
      (flt difference threshold = false <-> fle threshold difference = true)) /\
  (forall X (svc : Services X) user index st d st',
      evaluate svc user index st = (Val d, st') ->
      exists positions st1 pos best,
        getUserPositions svc user st = (Val positions, st1) /\
        at_index positions index = Some pos /\
        active pos = true /\
        findBestYieldOpportunity svc (Some (asset pos)) st1 = (Val (Some best), st') /\
        d = decide (optimizationThreshold st) user index pos
                   (orNum (apy pos) (Finite 0)) best) /\
  (exists pos best,
      fst (evaluate (scripted scriptAB) "0xu1" 0 (start defaultThreshold))
        = Val (Proceed pos (Finite 3) best) /\
      vault pos = vaultA /\ opp_vault best = vaultB /\ opp_apy best = literal 42 10) /\
  (exists r,
      fst (evaluate (scripted scriptAB) "0xu1" 0 (start (Finite 2))) = Val (Skip r) /\
      success r = false /\
      error r = Some (BelowThreshold (fsub (literal 42 10) (Finite 3)) (Finite 2))).
Proof.
  split; [| split; [| split; [| split]]].
  - intros. apply decide_Proceed_iff.
  - intros. by apply flt_false_fle.
  - intros X svc user index st d st' Hrun. by apply evaluate_decides.
  - eexists _, _. split; [vm_compute; reflexivity|]. by vm_compute.
  - eexists. split; [vm_compute; reflexivity|]. by vm_compute.
Qed.

(** C5 as stated fails: with a threshold of 0 and the position's own vault
    as the only one with a reading, the difference of the yields reaches
    the threshold and the engine still does not proceed. *)
Lemma same_vault_blocks_a_reached_threshold :
  exists r,
    fst (evaluate (scripted scriptOnlyA) "0xu1" 0 (start (Finite 0))) = Val (Skip r) /\
    error r = Some AlreadyInBestVault /\
    fle (optimizationThreshold (start (Finite 0) : State (X := nat)))
        (fsub (newAPY r) (previousAPY r)) = true.
Proof.
  eexists. split; [vm_compute; reflexivity|]. split; [reflexivity|].
  vm_compute. reflexivity.
Qed.

(** The gate compares the double that the subtraction gives: from 0.1 to
    0.6 the engine proceeds at the threshold 0.5, although the difference
    of the two yields is below one half. *)
Example rounded_difference_decides :
  let best := mkYieldOpportunity vaultB usdc (literal 6 10) (literal 6 10) 0 in
  (exists p c b,
      decide defaultThreshold "0xu1" 0 positionInA (literal 1 10) best = Proceed p c b) /\
  fsub (literal 6 10) (literal 1 10) = Finite (1 # 2) /\
  exists b c : Q,
    literal 6 10 = Finite b /\ literal 1 10 = Finite c /\ (b - c < 1 # 2)%Q.
Proof.
  split; [| split].
  - eexists _, _, _. vm_compute. reflexivity.
  - vm_compute. reflexivity.
  - eexists _, _. split; [vm_compute; reflexivity|].
    split; [vm_compute; reflexivity|]. vm_compute. reflexivity.
Qed.

(** From 0.1 to 0.3 it skips at the threshold 0.2: the difference as a
    double is 0.19999999999999998. *)
Example rounded_difference_skips :
  let best := mkYieldOpportunity vaultB usdc (literal 3 10) (literal 3 10) 0 in
  exists r,
    decide (literal 2 10) "0xu1" 0 positionInA (literal 1 10) best = Skip r /\
    error r = Some (BelowThreshold (Finite (7205759403792793 # 36028797018963968))
                                   (literal 2 10)).
Proof. eexists. split; vm_compute; reflexivity. Qed.

(** C6.  When the best vault is the current vault the decision is a skip
    with [success = false], whatever the yields and the threshold (the
    skipped result names that vault in [toVault], and nothing is
    submitted); when [evaluate] decides to proceed, the vault of its target
    is not the vault of the position; and the calls that [execute] submits
    go to the vault of that target. *)
Theorem never_targets_current_vault :
  (forall threshold user index pos cur best,
      toLowerCase (opp_vault best) = toLowerCase (vault pos) ->
      exists r,
        decide threshold user index pos cur best = Skip r /\ success r = false) /\
  (forall X (svc : Services X) user index st pos cur best st',
      evaluate svc user index st = (Val (Proceed pos cur best), st') ->
      toLowerCase (opp_vault best) <> toLowerCase (vault pos)) /\
  (forall X (svc : Services X) optimizerContract user index pos cur best st,
      exists calls,
        submitted (snd (execute svc optimizerContract user index pos cur best st))
          = submitted st ++ calls /\
        Forall (fun call => targetVault (snd call) = opp_vault best) calls) /\
  (exists r,
      fst (evaluate (scripted scriptOnlyA) "0xu1" 0 (start defaultThreshold))
        = Val (Skip r) /\
      success r = false).
Proof.
  split; [| split; [| split]].
  - intros threshold user index pos cur best Hsame.
    by apply decide_same_vault.
  - intros X svc user index st pos cur best st' Hrun.
    apply evaluate_decides in Hrun as (? & ? & p & b & _ & _ & _ & _ & Hd).
    symmetry in Hd.
    pose proof (decide_same_vault (optimizationThreshold st) user index p
                  (orNum (apy p) (Finite 0)) b) as [_ Hproceed].
    destruct (Hproceed _ _ _ Hd) as [-> Hne].
    unfold decide in Hd. repeat case_match; simplify_eq. done.
  - intros X svc optimizerContract user index pos cur best st.
    destruct (execute_run svc optimizerContract user index pos cur best st)
      as (r & st' & -> & _ & (calls & Hcalls & Hall) & _).
    exists calls. split; [done|].
    eapply Forall_impl; [exact Hall|]. by intros call (_ & ? & _).
  - eexists. split; [vm_compute; reflexivity|]. reflexivity.
Qed.

(** C4 as stated fails: vaults A and B yield 3% and 4.2% on another
    asset than the position's, so opportunities exist among all the
    vaults; the engine finds none for the position and does not fall back
    on them. *)
Lemma no_fallback_to_other_assets :
  (exists best others,
      fst (getYieldOpportunities (scripted scriptWeth) GLUEX_VAULTS "hyperevm"
             (start defaultThreshold))
        = Val (best :: others)) /\
  fst (findBestYieldOpportunity (scripted scriptWeth) (Some weth) (start defaultThreshold))
    = Val None /\
  fst (evaluate (scripted scriptWeth) "0xu1" 0 (start defaultThreshold))
    = Throw "No yield opportunities found".
Proof.
  split; [| split].
  - eexists _, _. vm_compute. reflexivity.
  - vm_compute. reflexivity.
  - vm_compute. reflexivity.
Qed.

(** C7 as stated fails: the transaction is confirmed with status success,
    the store refuses the document, and no record is written. *)
Lemma confirmed_but_not_recorded :
  let run := optimizePosition (scripted scriptStoreDown) "0xopt" "0xu1" 0
               (start defaultThreshold) in
  receipts (snd run) = [Val status_success] /\
  yieldOptimizations (snd run) = [] /\
  fst run = Val (failed "0xu1" 0 "store unavailable").
Proof. vm_compute. done. Qed.

(** A reverted transaction leaves no record, a confirmed one leaves
    exactly one. *)
Example reverted_leaves_no_record :
  let run := optimizePosition (scripted scriptReverted) "0xopt" "0xu1" 0
               (start defaultThreshold) in
  yieldOptimizations (snd run) = [] /\
  fst run = Val (failed "0xu1" 0 "Transaction failed").
Proof. vm_compute. done. Qed.

Example confirmed_leaves_one_record :
  let run := optimizePosition (scripted scriptAB) "0xopt" "0xu1" 0
               (start defaultThreshold) in
  length (yieldOptimizations (snd run)) = 1%nat /\
  exists res, fst run = Val res /\ success res = true.
Proof. vm_compute. eauto. Qed.

(** Three users, and the oracle is down while the second is handled: the
    first and the third are optimized and the second is counted as
    skipped. *)
Example outage_during_second_user :
  exists b,
    fst (optimizeAllPositions (scripted scriptOutage) "0xopt" (start defaultThreshold))
      = Val (Some b) /\
    map resultKey (results b) = [("0xu1", 0%Z); ("0xu2", 0%Z); ("0xu3", 0%Z)] /\
    map success (results b) = [true; false; true] /\
    optimizedCount b = 2%nat /\ skippedCount b = 1%nat.
Proof. eexists. split; [vm_compute; reflexivity|]. by vm_compute. Qed.

(** No entry has the asset of the position: nothing is found. *)
Lemma findBestYieldForAsset_picks_best_witness :
  exists st',
    evaluate (scripted scriptWeth) "0xu1" 0 (start defaultThreshold)
      = (Throw "No yield opportunities found", st') /\
    optimizePosition (scripted scriptWeth) "0xopt" "0xu1" 0 (start defaultThreshold)
      = (Val (failed "0xu1" 0 "No yield opportunities found"), st').
Proof.
  eapply (proj2 (proj2 (proj2
            (findBestYieldForAsset_picks_best (scripted scriptWeth) "0xopt")))
            "0xu1" 0%Z (start defaultThreshold)).
  - vm_compute. reflexivity.
  - vm_compute. reflexivity.
  - reflexivity.
  - vm_compute. discriminate.
  - vm_compute. reflexivity.
Defined.

Lemma proceeds_iff_threshold_and_other_vault_witness :
  exists d pos best,
    fst (evaluate (scripted scriptAB) "0xu1" 0 (start defaultThreshold)) = Val d /\
    at_index (match fst (getUserPositions (scripted scriptAB) "0xu1"
                           (start defaultThreshold)) with
              | Val positions => positions
              | Throw _ => []
              end) 0 = Some pos /\
    d = decide defaultThreshold "0xu1" 0 pos (orNum (apy pos) (Finite 0)) best.
Proof.
  eexists.
  edestruct (proj1 (proj2 (proj2 proceeds_iff_threshold_and_other_vault)) nat
               (scripted scriptAB) "0xu1" 0%Z (start defaultThreshold))
    as (positions & st1 & pos & best & Hread & Hpos & _ & _ & Hd).
  - vm_compute. reflexivity.
  - exists pos, best. split; [vm_compute; reflexivity|]. split; [| exact Hd].
    rewrite Hread. exact Hpos.
Defined.

Lemma never_targets_current_vault_witness :
  exists r,
    decide (Finite 0) "0xu1" 0 positionInA (Finite 3) opportunityA = Skip r /\
    success r = false.
Proof.
  apply (proj1 never_targets_current_vault (Finite 0) "0xu1" 0%Z positionInA (Finite 3)
           opportunityA).
  vm_compute. reflexivity.
Defined.

(** Vault B gives no reading to [scriptOnlyA]: what vault A offers before
    and after it is listed. *)
Lemma failures_do_not_abort_witness :
  fst (gather (scripted scriptOnlyA) "hyperevm" ([vaultA] ++ vaultB :: [vaultA]) 0%nat)
    = fst (gather (scripted scriptOnlyA) "hyperevm" [vaultA] 0%nat)
      ++ fst (gather (scripted scriptOnlyA) "hyperevm" [vaultA] 2%nat).
Proof.
  apply (proj1 (proj2 (failures_do_not_abort (scripted scriptOnlyA) "0xopt"))
           "hyperevm" [vaultA] vaultB [vaultA] 0%nat).
  vm_compute. exact I.
Defined.

Lemma record_only_after_confirmed_success_witness :
  exists res st' doc,
    optimizePosition (scripted scriptAB) "0xopt" "0xu1" 0 (start defaultThreshold)
      = (Val res, st') /\
    success res = true /\
    transactionHash res = Some "0xABC" /\
    yieldOptimizations st' = [doc] /\
    yo_toVault doc = vaultB /\
    receipts st' = [Val status_success].
Proof.
  edestruct (proj1 (proj2 (record_only_after_confirmed_success (scripted scriptAB) "0xopt"))
               "0xu1" 0%Z (start defaultThreshold))
    as (res & st' & Hrun & Hok & Hhash & Hdocs & Hrec).
  - vm_compute. reflexivity.
  - vm_compute. reflexivity.
  - vm_compute. reflexivity.
  - vm_compute. reflexivity.
  - vm_compute. reflexivity.
  - exists res, st'. eexists. split; [exact Hrun|]. split; [exact Hok|].
    split; [exact Hhash|]. split; [exact Hdocs|]. split; [reflexivity | exact Hrec].
Defined.

(** The first call of a run over the three users of [scriptAB]. *)
Lemma executor_submits_no_floor_witness :
  exists call,
    head (submitted (snd (optimizeAllPositions (scripted scriptAB) "0xopt"
                            (start defaultThreshold)))) = Some call /\
    targetVault (snd call) = vaultB /\
    Ledger.minSharesOut (encodeArgs (fun _ => 0%N) (fun _ => []) (snd call)) = 0%N /\
    forall World (ledgerExt : Ledger.Externals World) this sender c,
      (forall newShares (c1 : Ledger.Chain (World := World)),
          Ledger.require
            (Ledger.minSharesOut (encodeArgs (fun _ => 0%N) (fun _ => []) (snd call))
               <=? newShares)%N
            "Insufficient shares" c1 = Ledger.Ok tt c1) /\
      (snd (Ledger.transact
              (Ledger.optimizePosition ledgerExt this sender (fst call)
                 (encodeArgs (fun _ => 0%N) (fun _ => []) (snd call))) c)
         = Ledger.Reverted "Insufficient shares" ->
       Ledger.CalleeReverts ledgerExt "Insufficient shares").
Proof.
  eexists. split; [vm_compute; reflexivity|]. split; [reflexivity|].
  eapply (proj2 (proj2 (executor_submits_no_floor (scripted scriptAB) "0xopt"))
            (start defaultThreshold)).
  - vm_compute. reflexivity.
  - vm_compute. apply list_elem_of_here.
Defined.

End BackendFacts.

(* ===================================================================== *)
(** * More properties of the contract                                    *)
(* ===================================================================== *)

Module LedgerMore.

Import Ledger Governance.
Local Open Scope N_scope.

(** One step of symbolic execution with the rules of [LedgerFacts]. *)
Ltac wp_go :=
  lazymatch goal with
  | |- wp (ret _) _ _ _ => apply LedgerFacts.wp_ret
  | |- wp (bind (ret _) _) _ _ _ => apply LedgerFacts.wp_bind, LedgerFacts.wp_ret
  | |- wp (bind sload _) _ _ _ => apply LedgerFacts.wp_bind, LedgerFacts.wp_sload
  | |- wp (bind (positionsLength _) _) _ _ _ =>
      apply LedgerFacts.wp_bind, LedgerFacts.wp_positionsLength
  | |- wp (bind (require _ _) _) _ _ _ =>
      apply LedgerFacts.wp_bind, LedgerFacts.wp_require; intros ?Hreq
  | |- wp (bind (staticcall _) _) _ _ _ =>
      apply LedgerFacts.wp_bind, LedgerFacts.wp_staticcall;
      [intros ? ?Hcall | intros ? ?Hcall]
  | |- wp (bind (call _) _) _ _ _ =>
      apply LedgerFacts.wp_bind, LedgerFacts.wp_call;
      [intros ? ? ? ?Hcall | intros ? ?Hcall]
  | |- wp (bind (loadPosition _ _) _) _ _ _ =>
      apply LedgerFacts.wp_bind, LedgerFacts.wp_loadPosition;
      [intros ? ?Hload | intros ?Hload]
  | |- wp (bind (storePosition _ _ _) _) _ _ _ =>
      apply LedgerFacts.wp_bind, LedgerFacts.wp_storePosition;
      [intros ? ?Hload | intros ?Hload]
  | |- wp (bind (checked_sub _ _) _) _ _ _ =>
      apply LedgerFacts.wp_bind, LedgerFacts.wp_checked_sub; intros ?Hsub
  end;
  cbv beta.

Section Entry.

Context {World : Type}.
Variable ext : Externals World.
Variable this : address.

Abbreviation Chain := (Chain (World := World)).
Abbreviation Tx := (Tx (World := World)).

Implicit Types (c : Chain) (s : Storage) (p q : Position) (user sender : address).


Lemma wp_Revert_here {A} (m : Tx A) c :
  wp m (fun _ _ => False) (fun _ c' => c' = c) c -> exists e, m c = Revert e c.
Proof. unfold wp. destruct (m c) as [| e c1]; [done|]. intros ->. by exists e. Qed.

(** ** The guards in front of the three entry points *)

Lemma exec_paused sender (op : Op) c :
  paused (storage c) = true -> exec ext this sender op c = Revert "Contract paused" c.
Proof.
  intros Hp.
  destruct op; simpl; unfold deposit, withdraw, optimizePosition, bind, sload, require;
    cbn [storage]; by rewrite Hp.
Qed.

(** X1.  While the contract is paused, [deposit], [withdraw] and
    [optimizePosition] revert with "Contract paused" at their first
    statement, whatever their arguments. *)
Theorem paused_blocks_every_entry_point sender (op : Op) c :
  paused (storage c) = true ->
  exec ext this sender op c = Revert "Contract paused" c /\
  transact (exec ext this sender op) c = (c, Reverted "Contract paused").
Proof.
  intros Hp. pose proof (exec_paused sender op c Hp) as Hrun.
  split; [done|]. unfold transact. by rewrite Hrun.
Qed.

(** X2.  An input that the first checks refuse (a vault that is not
    whitelisted, a zero amount, attached ether, an index out of range, an
    inactive position, a number of shares that is zero or too large) makes
    the call revert where it stands: no vault, token or router has been
    changed when it does. *)
Theorem refused_before_any_call sender (op : Op) c :
  refused c sender op ->
  exists e, exec ext this sender op c = Revert e c.
Proof.
  intros Href. apply wp_Revert_here.
  destruct op as [value v a m | i n m | i _params]; cbn [exec refused] in *.
  - unfold deposit.
    wp_go. wp_go; [| done]. wp_go; [| done]. wp_go; [| done].
    wp_go; [| done]. wp_go; [| done].
    destruct Href as [Hwl | [Hzero | Hvalue]].
    + congruence.
    + subst a. done.
    + apply N.eqb_eq in Hreq2. done.
  - unfold withdraw.
    wp_go. wp_go; [| done]. wp_go. wp_go; [| done].
    wp_go; [| done]. wp_go; [| done]. wp_go; [| done].
    apply N.ltb_lt in Hreq0. apply andb_true_iff in Hreq2 as [Hpos Hle].
    apply N.ltb_lt in Hpos. apply N.leb_le in Hle.
    destruct Href as [Hrange | (p' & Hp' & Hcase)]; [lia|].
    assert (p' = p) as -> by congruence.
    destruct Hcase as [Hina | [Hzero | Hmore]]; [congruence | lia | lia].
  - unfold optimizePosition.
    wp_go. wp_go; [| done]. wp_go. wp_go; [| done].
    wp_go; [| done]. wp_go; [| done]. wp_go; [| done].
    apply N.ltb_lt in Hreq0.
    destruct Href as [Hrange | [Hwl | (q & Hq & Hina)]]; [lia | congruence |].
    assert (q = p) as -> by congruence. congruence.
Qed.

(** ** What a returning call changes *)

Lemma positionsOf_setPositions_same sender ps s :
  positionsOf (setPositions sender ps s) sender = ps.
Proof. unfold setPositions, positionsOf. simpl. by rewrite lookup_insert_eq. Qed.

Lemma positionsOf_setPositions_other sender user ps s :
  sender <> user -> positionsOf (setPositions sender ps s) user = positionsOf s user.
Proof.
  intros Hne. unfold setPositions, positionsOf. simpl. by rewrite lookup_insert_ne.
Qed.

(** A call that returns has either appended one active position to the
    sender's list, or rewritten one slot of it that held an active
    position; the positions were those of the start until then. *)
Lemma exec_Ok_shape sender (op : Op) c r c' :
  exec ext this sender op c = Ok r c' ->
  exists s,
    userPositions s = userPositions (storage c) /\
    ((exists p, (exists value v a m, op = Deposit value v a m) /\
                active p = true /\
                storage c' = setPositions sender (positionsOf (storage c) sender ++ [p]) s) \/
     (exists i p q, ((exists n m, op = Withdraw i n m) \/
                     (exists _params, op = OptimizePosition i _params)) /\
                    positionAt c sender i = Some p /\ active p = true /\
                    storage c' = writeAt sender i q s)).
Proof.
  intros Hrun. destruct op as [value v a m | i n m | i _params]; cbn [exec] in Hrun.
  - pose proof (LedgerFacts.deposit_spec ext this sender value v a m c) as Hspec.
    unfold wp in Hspec. rewrite Hrun in Hspec.
    destruct Hspec as (tA & w1 & ws1 & w2 & ws2 & ws3 & _ & _ & _ & _ & _ & _ & _ & _
                       & _ & _ & Hst).
    eexists. split; [| left; eexists; split; [eauto|]; split; [| exact Hst]; done].
    by rewrite !LedgerFacts.userPositions_reenter.
  - pose proof (LedgerFacts.withdraw_spec ext this sender i n m c) as Hspec.
    unfold wp in Hspec. rewrite Hrun in Hspec.
    destruct Hspec as (p & value & ws & _ & Hp & Hact & _ & _ & _ & _ & _ & Hst).
    eexists. split; [| right; exists i, p; eexists; split; [left; eauto|];
                       split; [done|]; split; [done | exact Hst]].
    by rewrite !LedgerFacts.userPositions_reenter.
  - pose proof (LedgerFacts.optimizePosition_spec ext this sender i _params c) as Hspec.
    unfold wp in Hspec. rewrite Hrun in Hspec.
    destruct Hspec as (p & assetsRedeemed & w1 & ws1 & c2 & tA & balance & w3 & ws3 & ws4
                       & _ & _ & Hp & Hact & _ & _ & Hpos2 & _ & _ & _ & _ & _ & _ & _
                       & Hst).
    eexists. split; [| right; exists i, p; eexists; split; [right; eauto|];
                       split; [done|]; split; [done | exact Hst]].
    by rewrite !LedgerFacts.userPositions_reenter.
Qed.

Lemma positionsOf_same s s' user :
  userPositions s = userPositions s' -> positionsOf s user = positionsOf s' user.
Proof. unfold positionsOf. by intros ->. Qed.

(** While no callee calls back into the ledger, the swap loop leaves the
    storage as it is. *)
Lemma swapLegs_Quiet (_params : OptimizeParams) (idxs : list nat) c :
  Quiet ext ->
  wp (swapLegs ext _params idxs) (fun _ c' => storage c' = storage c) (fun _ _ => True) c.
Proof.
  intros Hq. revert c. induction idxs as [| i rest IH]; intros c.
  - simpl. by apply LedgerFacts.wp_ret.
  - simpl.
    destruct (routers _params !! i) as [router |]; [| done].
    destruct (calldatas _params !! i) as [cd |]; [| done].
    destruct (inputTokens _params !! i) as [token |]; [| done].
    destruct (outputTokens _params !! i); [| done].
    destruct (inputAmounts _params !! i) as [amount |]; [| done].
    wp_go. wp_go; [| done]. wp_go; [| done]. wp_go; [| done].
    apply LedgerFacts.wp_bind. unfold wp at 1. cbn [storage world].
    destruct (router_call ext router cd w) as [[w' ws'] |] eqn:Hrc; [| done].
    eapply LedgerFacts.wp_mono; [apply IH | | done].
    cbn [storage world]. intros _ c' ->.
    destruct Hq as (Hq1 & Hq2 & Hq3 & Hq4 & Hq5).
    rewrite (Hq5 _ _ _ _ _ Hrc). rewrite (Hq4 _ _ _ _ _ _ _ Hcall). done.
Qed.

(** X3.  A returning call of one user leaves the positions of every other
    user exactly as they were; and while no callee calls back into the
    ledger's setters, the two whitelists and the pause flag as well. *)
Theorem entry_points_touch_only_the_sender sender (op : Op) c r c' :
  exec ext this sender op c = Ok r c' ->
  (forall user, user <> sender ->
                positionsOf (storage c') user = positionsOf (storage c) user) /\
  (Quiet ext ->
   whitelistedVaults (storage c') = whitelistedVaults (storage c) /\
   whitelistedRouters (storage c') = whitelistedRouters (storage c) /\
   paused (storage c') = paused (storage c)).
Proof.
  intros Hrun. split.
  - destruct (exec_Ok_shape _ _ _ _ _ Hrun)
      as (s & Hs & [(p & _ & _ & ->) | (i & p & q & _ & _ & _ & ->)]).
    + intros user Hne. rewrite positionsOf_setPositions_other by done.
      by apply positionsOf_same.
    + intros user Hne. rewrite LedgerFacts.positionsOf_writeAt_other by done.
      by apply positionsOf_same.
  - intros Hq. pose proof Hq as (Hq1 & Hq2 & Hq3 & Hq4 & Hq5).
    destruct op as [value v a m | i n m | i _params]; cbn [exec] in Hrun.
    + pose proof (LedgerFacts.deposit_spec ext this sender value v a m c) as Hspec.
      unfold wp in Hspec. rewrite Hrun in Hspec.
      destruct Hspec as (tA & w1 & ws1 & w2 & ws2 & ws3 & _ & _ & _ & _ & _ & _ & H1 & H2
                         & H3 & _ & ->).
      rewrite (Hq1 _ _ _ _ _ _ _ H3), (Hq4 _ _ _ _ _ _ _ H2), (Hq3 _ _ _ _ _ _ _ _ H1).
      done.
    + pose proof (LedgerFacts.withdraw_spec ext this sender i n m c) as Hspec.
      unfold wp in Hspec. rewrite Hrun in Hspec.
      destruct Hspec as (p & value & ws & _ & _ & _ & _ & _ & H1 & _ & _ & ->).
      rewrite (Hq2 _ _ _ _ _ _ _ _ H1). done.
    + pose proof (LedgerFacts.optimizePosition_spec ext this sender i _params c) as Hspec.
      unfold wp in Hspec. rewrite Hrun in Hspec.
      destruct Hspec as (p & assetsRedeemed & w1 & ws1 & c2 & tA & balance & w3 & ws3 & ws4
                         & _ & _ & _ & _ & H1 & Hlegs & _ & _ & _ & _ & _ & H3 & H4 & _
                         & ->).
      rewrite (Hq1 _ _ _ _ _ _ _ H4), (Hq4 _ _ _ _ _ _ _ H3).
      rewrite (Hq2 _ _ _ _ _ _ _ _ H1) in Hlegs.
      cbn [reenter fold_left] in *.
      assert (Hst2 : storage c2 = storage c).
      { unfold legsDone in Hlegs.
        destruct (0 <? length (routers _params))%nat; [| by subst c2].
        destruct Hlegs as (_ & _ & _ & _ & Hlegs).
        pose proof (swapLegs_Quiet _params (seq 0 (length (routers _params)))
                      (mkChain (storage c) w1) Hq) as Hwp.
        unfold wp in Hwp. by rewrite Hlegs in Hwp. }
      rewrite Hst2. done.
Qed.

(** X4.  The list of positions of a user only grows, and only by [deposit]: a
    returning [deposit] puts one new active position behind the ones that
    were there, which keep their index and content; [withdraw] and
    [optimizePosition] keep the number of positions. *)
Theorem positions_are_append_only sender (op : Op) c r c' :
  exec ext this sender op c = Ok r c' ->
  match op with
  | Deposit _ v a _ =>
      exists p,
        positionsOf (storage c') sender = positionsOf (storage c) sender ++ [p] /\
        vault p = v /\ shares p = r /\ assets p = a /\ active p = true
  | _ =>
      length (positionsOf (storage c') sender)
        = length (positionsOf (storage c) sender)
  end.
Proof.
  intros Hrun. destruct op as [value v a m | i n m | i _params].
  - pose proof (LedgerFacts.deposit_spec ext this sender value v a m c) as Hspec.
    unfold wp in Hspec. cbn [exec] in Hrun. rewrite Hrun in Hspec.
    destruct Hspec as (tA & w1 & ws1 & w2 & ws2 & ws3 & _ & _ & _ & _ & _ & _ & _ & _
                       & _ & _ & ->).
    eexists. rewrite positionsOf_setPositions_same. split; [done|]. done.
  - destruct (exec_Ok_shape _ _ _ _ _ Hrun)
      as (s & Hs & [(p & (? & ? & ? & ? & ?) & _) | (j & p & q & _ & _ & _ & ->)]);
      [done|].
    rewrite LedgerFacts.positionsOf_writeAt_same, length_insert.
    by rewrite (positionsOf_same _ _ sender Hs).
  - destruct (exec_Ok_shape _ _ _ _ _ Hrun)
      as (s & Hs & [(p & (? & ? & ? & ? & ?) & _) | (j & p & q & _ & _ & _ & ->)]);
      [done|].
    rewrite LedgerFacts.positionsOf_writeAt_same, length_insert.
    by rewrite (positionsOf_same _ _ sender Hs).
Qed.

(** X5.  A position that is not active is never touched again: whatever call
    returns afterwards, by whatever user, the slot holds the same
    position. *)
Theorem closed_position_is_final user (i : uint256) p sender (op : Op) c r c' :
  positionAt c user i = Some p ->
  active p = false ->
  exec ext this sender op c = Ok r c' ->
  positionAt c' user i = Some p.
Proof.
  intros Hp Hclosed Hrun. unfold positionAt in *.
  destruct (exec_Ok_shape _ _ _ _ _ Hrun)
    as (s & Hs & [(p' & _ & _ & ->) | (j & p' & q & _ & Hp' & Hact & ->)]).
  - destruct (decide (sender = user)) as [-> | Hne].
    + rewrite positionsOf_setPositions_same.
      rewrite lookup_app_l; [done|]. by apply lookup_lt_Some in Hp.
    + rewrite positionsOf_setPositions_other by done.
      by rewrite (positionsOf_same _ _ user Hs).
  - rewrite LedgerFacts.lookup_writeAt_other.
    + by rewrite (positionsOf_same _ _ user Hs).
    + intros [= -> Hij]. unfold positionAt in Hp'. rewrite Hij in Hp. congruence.
Qed.

(** X6.  What a returning [withdraw] of [n] shares leaves in the slot: the same
    vault and asset, [n] shares less, and the position is active exactly
    when shares remain; the caller gets what the vault's [redeem] returned,
    which is at least [_minAssetsOut]. *)
Theorem withdraw_takes_the_shares sender i n m c r c' :
  withdraw ext this sender i n m c = Ok r c' ->
  exists p q,
    positionAt c sender i = Some p /\
    positionAt c' sender i = Some q /\
    vault q = vault p /\ asset q = asset p /\
    shares q = shares p - n /\ n <= shares p /\
    active q = negb (shares p =? n) /\
    m <= r /\
    exists ws,
      vault_redeem ext (vault p) n this sender (world c) = Returned (r, world c', ws).
Proof.
  intros Hrun.
  pose proof (LedgerFacts.withdraw_spec ext this sender i n m c) as Hspec.
  unfold wp in Hspec. rewrite Hrun in Hspec.
  destruct Hspec as (p & value & ws & _ & Hp & Hact & Hpos & Hle & Hredeem & Hmin & _ & Hst).
  exists p. eexists. split; [done|]. split.
  { unfold positionAt. rewrite Hst. apply LedgerFacts.lookup_writeAt_same.
    rewrite LedgerFacts.positionsOf_reenter.
    unfold positionAt in Hp. by apply lookup_lt_Some in Hp. }
  cbn. repeat (split; [done|]). split; [| split; [done | by exists ws]].
  rewrite Hact. destruct (shares p - n =? 0) eqn:Hz, (shares p =? n) eqn:Hn; try done.
  - apply N.eqb_eq in Hz. apply N.eqb_neq in Hn. lia.
  - apply N.eqb_neq in Hz. apply N.eqb_eq in Hn. lia.
Qed.

(** X7.  The floors of the callers hold for every call that returns: [deposit]
    and [optimizePosition] return, and record in the position, at least
    [minSharesOut] shares, and [withdraw] returns at least
    [_minAssetsOut]. *)
Theorem floors_hold_on_return sender (op : Op) c r c' :
  exec ext this sender op c = Ok r c' ->
  match op with
  | Deposit _ _ _ m =>
      m <= r /\ exists p, last (positionsOf (storage c') sender) = Some p /\ shares p = r
  | Withdraw _ _ m => m <= r
  | OptimizePosition i _params =>
      minSharesOut _params <= r /\
      exists p, positionAt c' sender i = Some p /\ shares p = r
  end.
Proof.
  intros Hrun. destruct op as [value v a m | i n m | i _params]; cbn [exec] in Hrun.
  - pose proof (LedgerFacts.deposit_spec ext this sender value v a m c) as Hspec.
    unfold wp in Hspec. rewrite Hrun in Hspec.
    destruct Hspec as (tA & w1 & ws1 & w2 & ws2 & ws3 & _ & _ & _ & _ & _ & _ & _ & _
                       & _ & Hm & ->).
    split; [done|].
    eexists. rewrite positionsOf_setPositions_same, last_snoc. done.
  - pose proof (LedgerFacts.withdraw_spec ext this sender i n m c) as Hspec.
    unfold wp in Hspec. rewrite Hrun in Hspec.
    by destruct Hspec as (p & value & ws & _ & _ & _ & _ & _ & _ & Hmin & _).
  - pose proof (LedgerFacts.optimizePosition_spec ext this sender i _params c) as Hspec.
    unfold wp in Hspec. rewrite Hrun in Hspec.
    destruct Hspec as (p & assetsRedeemed & w1 & ws1 & c2 & tA & balance & w3 & ws3 & ws4
                       & _ & _ & Hp & _ & _ & _ & Hpos2 & _ & _ & _ & _ & _ & _ & Hmin
                       & Hst).
    split; [done|]. eexists. unfold positionAt. rewrite Hst.
    rewrite LedgerFacts.lookup_writeAt_same; [done|].
    rewrite !LedgerFacts.positionsOf_reenter, (positionsOf_same _ _ sender Hpos2).
    unfold positionAt in Hp. by apply lookup_lt_Some in Hp.
Qed.

(** ** The swap legs of a reallocation that returns *)

Lemma wp_any {A} (m : Tx A) (Qok : A -> Chain -> Prop) (Qrev : string -> Chain -> Prop) c :
  (forall a c', Qok a c') -> (forall e c', Qrev e c') -> wp m Qok Qrev c.
Proof. intros Hok Hrev. unfold wp. by destruct (m c). Qed.

(** When the swap loop returns, every leg it ran had an input token other
    than the zero address and went to a router that was whitelisted when
    the leg began: in the storage of the start, while no callee calls back
    into the ledger's setters. *)
Lemma wp_swapLegs_checked (_params : OptimizeParams) (idxs : list nat) c :
  wp (swapLegs ext _params idxs)
     (fun _ c' =>
        Forall (fun i =>
                  exists router token,
                    routers _params !! i = Some router /\
                    inputTokens _params !! i = Some token /\ token <> 0 /\
                    (Quiet ext ->
                     isWhitelisted (whitelistedRouters (storage c)) router = true)) idxs)
     (fun _ _ => True) c.
Proof.
  revert c. induction idxs as [| i rest IH]; intros c.
  - simpl. by apply LedgerFacts.wp_ret.
  - simpl.
    destruct (routers _params !! i) as [router |] eqn:Hr; [| done].
    destruct (calldatas _params !! i) as [cd |]; [| done].
    destruct (inputTokens _params !! i) as [token |] eqn:Ht; [| done].
    destruct (outputTokens _params !! i); [| done].
    destruct (inputAmounts _params !! i) as [amount |]; [| done].
    wp_go. wp_go; [| done]. wp_go; [| done]. wp_go; [| done].
    apply LedgerFacts.wp_bind. unfold wp at 1. cbn [storage world].
    destruct (router_call ext router cd w) as [[w' ws'] |] eqn:Hrc; [| done].
    eapply LedgerFacts.wp_mono; [apply IH | | done].
    cbn [storage world]. intros _ c' Hrest.
    constructor.
    + exists router, token. apply negb_true_iff, N.eqb_neq in Hreq0. done.
    + eapply Forall_impl; [exact Hrest|]. cbn beta.
      intros j (router' & token' & ? & ? & ? & Hwl).
      exists router', token'. repeat (split; [done|]). intros Hq.
      specialize (Hwl Hq). destruct Hq as (_ & _ & _ & Hq4 & Hq5).
      rewrite (Hq5 _ _ _ _ _ Hrc), (Hq4 _ _ _ _ _ _ _ Hcall) in Hwl. done.
Qed.

(** X8.  A reallocation that returns with swap legs had five arrays of the
    same length and no input token that was the zero address; and while no
    callee calls back into the ledger's setters, every router it used was
    on the whitelist when the call began. *)
Theorem returning_reallocation_used_checked_legs sender i (_params : OptimizeParams)
    c r c' :
  optimizePosition ext this sender i _params c = Ok r c' ->
  (routers _params <> [] ->
   length (calldatas _params) = length (routers _params) /\
   length (inputTokens _params) = length (routers _params) /\
   length (outputTokens _params) = length (routers _params) /\
   length (inputAmounts _params) = length (routers _params) /\
   Forall (fun token => token <> 0) (inputTokens _params)) /\
  (Quiet ext ->
   Forall (fun router => isWhitelisted (whitelistedRouters (storage c)) router = true)
          (routers _params)).
Proof.
  intros Hrun.
  set (Goal := (routers _params <> [] ->
                length (calldatas _params) = length (routers _params) /\
                length (inputTokens _params) = length (routers _params) /\
                length (outputTokens _params) = length (routers _params) /\
                length (inputAmounts _params) = length (routers _params) /\
                Forall (fun token => token <> 0) (inputTokens _params)) /\
               (Quiet ext ->
                Forall (fun router =>
                          isWhitelisted (whitelistedRouters (storage c)) router = true)
                       (routers _params))).
  assert (Hwp : wp (optimizePosition ext this sender i _params)
                   (fun _ _ => Goal) (fun _ _ => True) c).
  { unfold optimizePosition.
    wp_go. wp_go; [| done]. wp_go. wp_go; [| done]. wp_go; [| done].
    wp_go; [| done]. wp_go; [| done]. wp_go; [| done].
    apply LedgerFacts.wp_bind.
    destruct (0 <? length (routers _params))%nat eqn:Hlen.
    - wp_go; [| done].
      eapply LedgerFacts.wp_mono; [apply wp_swapLegs_checked | | done].
      cbn [storage world]. intros _ c1 Hlegs.
      apply wp_any; [| done]. intros _ _.
      apply andb_true_iff in Hreq3 as [Hreq3 H4].
      apply andb_true_iff in Hreq3 as [Hreq3 H3].
      apply andb_true_iff in Hreq3 as [H1 H2].
      apply Nat.eqb_eq in H1, H2, H3, H4.
      rewrite Forall_forall in Hlegs.
      split.
      + intros _. repeat (split; [done|]).
        apply Forall_lookup. intros j token Hj.
        destruct (Hlegs j) as (router' & token' & _ & Ht & Hnz & _).
        { apply elem_of_seq. apply lookup_lt_Some in Hj.
          unfold address, uint256 in *. lia. }
        unfold address, uint256 in *. congruence.
      + intros Hq. apply Forall_lookup. intros j router Hj.
        destruct (Hlegs j) as (router' & token & Hr & _ & _ & Hwl).
        { apply elem_of_seq. apply lookup_lt_Some in Hj. lia. }
        specialize (Hwl Hq). destruct Hq as (_ & Hq2 & _).
        rewrite (Hq2 _ _ _ _ _ _ _ _ Hcall) in Hwl. cbn [reenter fold_left] in Hwl.
        congruence.
    - apply LedgerFacts.wp_ret. apply wp_any; [| done]. intros _ _.
      destruct (routers _params); [| done]. split; [done | constructor]. }
  unfold wp in Hwp. by rewrite Hrun in Hwp.
Qed.

(** ** What [withdraw] reads *)


End Entry.

(** ** Governance *)

Section Admin.

Implicit Types (k : Contract) (sender : address) (op : AdminOp).

Lemma noneEquals_spec (vaults : list address) (v : address) :
  noneEquals vaults v = true <-> v ∉ vaults.
Proof.
  induction vaults as [| x rest IH]; simpl.
  - split; [intros _; apply not_elem_of_nil | done].
  - destruct (x =? v) eqn:Hx.
    + apply N.eqb_eq in Hx. subst x. split; [done|].
      intros Hnot. exfalso. apply Hnot. by left.
    + apply N.eqb_neq in Hx. rewrite IH, not_elem_of_cons. naive_solver.
Qed.

(** X9.  Nobody but the owner can change anything through the governance
    functions: each of them reverts for another sender, and a whole
    sequence of such calls leaves the contract as it was. *)
Theorem only_the_owner_governs (calls : list (address * AdminOp)) k :
  Forall (fun call => fst call <> owner k) calls ->
  Forall (fun call => adminExec (fst call) (snd call) k
                      = Failed "OwnableUnauthorizedAccount") calls /\
  adminRun calls k = k.
Proof.
  intros Hall.
  assert (Hone : forall sender op, sender <> owner k ->
                   adminExec sender op k = Failed "OwnableUnauthorizedAccount").
  { intros sender op Hne. apply N.eqb_neq in Hne.
    destruct op; simpl;
      unfold whitelistVault, addGlueXVault, whitelistRouter, updateProtocolFee,
        setPaused, onlyOwner; by rewrite Hne. }
  split.
  - eapply Forall_impl; [exact Hall|]. intros [sender op] Hne. by apply Hone.
  - unfold adminRun. induction Hall as [| [sender op] rest Hne _ IH]; simpl; [done|].
    unfold adminTransact at 2. rewrite (Hone sender op Hne). exact IH.
Qed.

Lemma adminExec_Done sender op k k' :
  adminExec sender op k = Done k' ->
  sender = owner k /\ owner k' = owner k /\ treasury k' = treasury k /\
  userPositions (ledger k') = userPositions (ledger k).
Proof.
  destruct op; simpl;
    unfold whitelistVault, addGlueXVault, whitelistRouter, updateProtocolFee,
      setPaused, onlyOwner;
    destruct (sender =? owner k) eqn:Hs; try done;
    apply N.eqb_eq in Hs; repeat case_match; intros [= <-]; done.
Qed.

Lemma adminTransact_WellFormed sender op k :
  WellFormed k -> WellFormed (adminTransact sender op k).
Proof.
  intros (Hfee & Hnodup & Hzero). unfold adminTransact.
  destruct op as [v b | v | r b | fee | b]; simpl;
    unfold whitelistVault, addGlueXVault, whitelistRouter, updateProtocolFee,
      setPaused, onlyOwner;
    destruct (sender =? owner k); try done.
  - by destruct (v =? 0).
  - destruct (v =? 0) eqn:Hv; [done|]. apply N.eqb_neq in Hv.
    destruct (noneEquals (GLUEX_VAULTS k) v) eqn:Hfresh; [| done]. simpl.
    apply noneEquals_spec in Hfresh. split; [done|]. split.
    + apply NoDup_app. split; [done|]. split; [| apply NoDup_singleton].
      intros x Hx Hx'. apply list_elem_of_singleton in Hx'. by subst x.
    + intros Hin. apply elem_of_app in Hin as [Hin | Hin]; [done|].
      apply list_elem_of_singleton in Hin. by subst v.
  - by destruct (r =? 0).
  - destruct (fee <=? MAX_FEE_BPS) eqn:Hle; [| done]. simpl.
    apply N.leb_le in Hle. done.
Qed.

(** X10.  After the constructor and any sequence of calls of the five
    governance functions of the contract, by anybody, the protocol fee is
    at most [MAX_FEE_BPS], the list [GLUEX_VAULTS] holds no address twice
    and not the zero address, and the owner, the treasury (which is not
    zero) and the positions of the users are what they were at
    deployment. *)
Theorem governance_keeps_the_contract_well_formed
    (deployer _treasury : address) (calls : list (address * AdminOp)) k :
  constructor deployer _treasury = Done k ->
  WellFormed (adminRun calls k) /\
  owner (adminRun calls k) = deployer /\
  treasury (adminRun calls k) = _treasury /\ _treasury <> 0 /\
  userPositions (ledger (adminRun calls k)) = ∅.
Proof.
  unfold constructor. destruct (_treasury =? 0) eqn:Ht; [done|].
  apply N.eqb_neq in Ht. intros [= <-].
  set (k0 := mkContract _ _ _ _ _).
  assert (Hinv : WellFormed k0 /\ owner k0 = deployer /\ treasury k0 = _treasury /\
                 userPositions (ledger k0) = ∅).
  { split; [| done]. split; [unfold MAX_FEE_BPS; simpl; lia|].
    split; [apply NoDup_nil_2 | apply not_elem_of_nil]. }
  clearbody k0. revert k0 Hinv. unfold adminRun.
  induction calls as [| [sender op] rest IH]; intros k0 (Hwf & Ho & Htr & Hpos); simpl.
  - done.
  - apply IH. split; [by apply adminTransact_WellFormed|].
    unfold adminTransact. destruct (adminExec sender op k0) as [k1 |] eqn:Hop; [| done].
    apply adminExec_Done in Hop as (_ & -> & -> & ->). done.
Qed.

(** X11.  [addGlueXVault] by the owner, for an address other than zero, goes
    through exactly when the vault is not yet in the list; it then puts
    the vault at the end of the list and whitelists it, and adding the
    same vault again reverts with "Vault already exists". *)
Theorem addGlueXVault_adds_once (v : address) k :
  v <> 0 ->
  (v ∈ GLUEX_VAULTS k ->
   addGlueXVault (owner k) v k = Failed "Vault already exists") /\
  (v ∉ GLUEX_VAULTS k ->
   exists k',
     addGlueXVault (owner k) v k = Done k' /\
     GLUEX_VAULTS k' = GLUEX_VAULTS k ++ [v] /\
     isWhitelisted (whitelistedVaults (ledger k')) v = true /\
     addGlueXVault (owner k') v k' = Failed "Vault already exists").
Proof.
  intros Hv. apply N.eqb_neq in Hv.
  unfold addGlueXVault, onlyOwner. rewrite N.eqb_refl, Hv. split.
  - intros Hin. destruct (noneEquals (GLUEX_VAULTS k) v) eqn:Hfresh; [| done].
    apply noneEquals_spec in Hfresh. done.
  - intros Hnot. apply noneEquals_spec in Hnot as Hfresh. rewrite Hfresh. simpl.
    eexists. split; [done|]. simpl. split; [done|]. split.
    + unfold isWhitelisted. by rewrite lookup_insert_eq.
    + rewrite N.eqb_refl.
      destruct (noneEquals (GLUEX_VAULTS k ++ [v]) v) eqn:Hagain; [| done].
      apply noneEquals_spec in Hagain. exfalso. apply Hagain.
      rewrite elem_of_app, list_elem_of_singleton. by right.
Qed.

(** X12.  [whitelistVault] and [whitelistRouter] by the owner set the entry of
    the given address, which is not zero, to the given value and nothing
    else: the other entries, the other whitelist, the positions, the pause
    flag, the fee and the list of vaults are as before. *)
Theorem whitelisting_sets_one_entry (a : address) (enabled : bool) k :
  a <> 0 ->
  (exists k',
      whitelistVault (owner k) a enabled k = Done k' /\
      isWhitelisted (whitelistedVaults (ledger k')) a = enabled /\
      (forall a', a' <> a ->
                  isWhitelisted (whitelistedVaults (ledger k')) a'
                    = isWhitelisted (whitelistedVaults (ledger k)) a') /\
      whitelistedRouters (ledger k') = whitelistedRouters (ledger k) /\
      userPositions (ledger k') = userPositions (ledger k) /\
      paused (ledger k') = paused (ledger k) /\
      protocolFeeBps k' = protocolFeeBps k /\ GLUEX_VAULTS k' = GLUEX_VAULTS k) /\
  (exists k',
      whitelistRouter (owner k) a enabled k = Done k' /\
      isWhitelisted (whitelistedRouters (ledger k')) a = enabled /\
      (forall a', a' <> a ->
                  isWhitelisted (whitelistedRouters (ledger k')) a'
                    = isWhitelisted (whitelistedRouters (ledger k)) a') /\
      whitelistedVaults (ledger k') = whitelistedVaults (ledger k) /\
      userPositions (ledger k') = userPositions (ledger k) /\
      paused (ledger k') = paused (ledger k) /\
      protocolFeeBps k' = protocolFeeBps k /\ GLUEX_VAULTS k' = GLUEX_VAULTS k).
Proof.
  intros Ha. apply N.eqb_neq in Ha.
  unfold whitelistVault, whitelistRouter, onlyOwner. rewrite N.eqb_refl, Ha.
  split; eexists; (split; [done|]); simpl; unfold isWhitelisted.
  - rewrite lookup_insert_eq. split; [done|]. split; [| done].
    intros a' Hne. by rewrite lookup_insert_ne.
  - rewrite lookup_insert_eq. split; [done|]. split; [| done].
    intros a' Hne. by rewrite lookup_insert_ne.
Qed.

End Admin.

(** ** Governance and the entry points together *)

Section Together.

Context {World : Type}.
Variable ext : Externals World.
Variable this : address.

(** X13.  Pausing by the owner makes [deposit], [withdraw] and
    [optimizePosition] revert with "Contract paused" for every user and
    every argument; unpausing brings back the contract that was there
    before the pause, bit for bit. *)
Theorem pause_and_unpause (k : Contract) :
  paused (ledger k) = false ->
  exists k1,
    setPaused (owner k) true k = Done k1 /\
    (forall sender (op : Op) (w : World),
        exec ext this sender op (mkChain (ledger k1) w)
          = Revert "Contract paused" (mkChain (ledger k1) w)) /\
    setPaused (owner k1) false k1 = Done k.
Proof.
  intros Hp. unfold setPaused, onlyOwner. rewrite N.eqb_refl.
  eexists. split; [done|]. split.
  - intros sender op w.
    by apply (exec_paused ext this sender op).
  - simpl. rewrite N.eqb_refl. f_equal.
    destruct k as [[ups wv wr pz] o g t f]. simpl in *. by subst pz.
Qed.


(** X15.  Once the owner has taken a vault off the whitelist, nobody can
    deposit into it or move a position to it: both calls revert before
    they call any other contract. *)
Theorem delisted_vault_takes_nothing (v : address) (k : Contract) :
  v <> 0 ->
  exists k1,
    whitelistVault (owner k) v false k = Done k1 /\
    forall sender (w : World),
      (forall value a m,
          exists e,
            deposit ext this sender value v a m (mkChain (ledger k1) w)
              = Revert e (mkChain (ledger k1) w)) /\
      (forall i (_params : OptimizeParams),
          targetVault _params = v ->
          exists e,
            optimizePosition ext this sender i _params (mkChain (ledger k1) w)
              = Revert e (mkChain (ledger k1) w)).
Proof.
  intros Hv. apply N.eqb_neq in Hv.
  unfold whitelistVault, onlyOwner. rewrite N.eqb_refl, Hv.
  eexists. split; [done|]. intros sender w.
  assert (Hoff : isWhitelisted
                   (whitelistedVaults (setVaults (<[v := false]> (whitelistedVaults (ledger k)))
                                                 (ledger k))) v = false).
  { unfold isWhitelisted. cbn. by rewrite lookup_insert_eq. }
  cbn [Governance.ledger withLedger].
  split.
  - intros value a m. apply wp_Revert_here. unfold deposit.
    wp_go. wp_go; [| done]. wp_go; [| done]. cbn [storage] in *. congruence.
  - intros i _params Htarget. apply wp_Revert_here. unfold optimizePosition.
    wp_go. wp_go; [| done]. wp_go. wp_go; [| done]. wp_go; [| done].
    cbn [storage] in *. congruence.
Qed.

End Together.

(** ** The properties on concrete states *)

Import LedgerTest GovernanceTest.

Lemma paused_blocks_every_entry_point_witness :
  exec testExt LedgerTest.ledger alice (Withdraw 0 1 0) pausedChain
    = Revert "Contract paused" pausedChain /\
  transact (exec testExt LedgerTest.ledger alice (Withdraw 0 1 0)) pausedChain
    = (pausedChain, Reverted "Contract paused").
Proof.
  apply (paused_blocks_every_entry_point testExt LedgerTest.ledger alice (Withdraw 0 1 0)
           pausedChain).
  reflexivity.
Defined.

Lemma refused_before_any_call_witness :
  exists e, exec testExt LedgerTest.ledger alice (Deposit 0 unlisted 5 0) funded = Revert e funded.
Proof.
  apply (refused_before_any_call testExt LedgerTest.ledger alice (Deposit 0 unlisted 5 0) funded).
  left. vm_compute. reflexivity.
Defined.

Lemma quietExt_Quiet : Quiet quietExt.
Proof.
  unfold Quiet, quietExt. cbn.
  repeat split; intros;
    match goal with H : _ = _ |- _ => revert H end; unfold returns.
  - destruct (t_deposit _ _ _ _) as [[? ?] |]; congruence.
  - destruct (t_redeem _ _ _ _ _) as [[? ?] |]; congruence.
  - destruct (_ <$> move _ _ _ _ _) as [[? ?] |]; congruence.
  - congruence.
  - destruct (t_router _ _ _) as [[? ?] |]; cbn; congruence.
Qed.

Lemma entry_points_touch_only_the_sender_witness :
  let c' := fst (transact (exec quietExt LedgerTest.ledger alice
                             (OptimizePosition 0 (oneLeg okRouter vaultB 10 0))) funded) in
  (forall user, user <> alice ->
                positionsOf (storage c') user = positionsOf (storage funded) user) /\
  whitelistedVaults (storage c') = whitelistedVaults (storage funded) /\
  whitelistedRouters (storage c') = whitelistedRouters (storage funded) /\
  paused (storage c') = paused (storage funded).
Proof.
  destruct (entry_points_touch_only_the_sender quietExt LedgerTest.ledger alice
              (OptimizePosition 0 (oneLeg okRouter vaultB 10 0)) funded 17
              (fst (transact (exec quietExt LedgerTest.ledger alice
                                (OptimizePosition 0 (oneLeg okRouter vaultB 10 0))) funded))
              ltac:(vm_compute; reflexivity)) as [Hothers Hswitches].
  split; [exact Hothers | exact (Hswitches quietExt_Quiet)].
Defined.

Lemma positions_are_append_only_witness :
  let c' := fst (transact (exec testExt LedgerTest.ledger alice (Deposit 0 vaultA2 5 1)) genesis) in
  exists p,
    positionsOf (storage c') alice = positionsOf (storage genesis) alice ++ [p] /\
    vault p = vaultA2 /\ shares p = 2 /\ assets p = 5 /\ active p = true.
Proof.
  apply (positions_are_append_only testExt LedgerTest.ledger alice (Deposit 0 vaultA2 5 1)
           genesis 2).
  vm_compute. reflexivity.
Defined.

Lemma closed_position_is_final_witness :
  positionAt
    (fst (transact (exec testExt LedgerTest.ledger alice (OptimizePosition 1 (noLegs vaultA1 1)))
            mixed))
    alice 0
  = Some (mkPosition vaultA2 tokenA 0 0 false).
Proof.
  apply (closed_position_is_final testExt LedgerTest.ledger alice 0
           (mkPosition vaultA2 tokenA 0 0 false) alice
           (OptimizePosition 1 (noLegs vaultA1 1)) mixed 10).
  - vm_compute. reflexivity.
  - reflexivity.
  - vm_compute. reflexivity.
Defined.

Lemma withdraw_takes_the_shares_witness :
  exists p q,
    positionAt selfHeld alice 0 = Some p /\
    positionAt (fst (transact (withdraw testExt LedgerTest.ledger alice 0 2 0) selfHeld)) alice 0
      = Some q /\
    vault q = vault p /\ asset q = asset p /\
    shares q = shares p - 2 /\ 2 <= shares p /\
    active q = negb (shares p =? 2) /\
    0 <= 4 /\
    exists ws,
      vault_redeem testExt (vault p) 2 LedgerTest.ledger alice (world selfHeld)
        = Returned
            (4, world (fst (transact (withdraw testExt LedgerTest.ledger alice 0 2 0) selfHeld)),
             ws).
Proof.
  apply (withdraw_takes_the_shares testExt LedgerTest.ledger alice 0 2 0 selfHeld 4).
  vm_compute. reflexivity.
Defined.

Lemma floors_hold_on_return_witness :
  let c' := fst (transact (exec testExt LedgerTest.ledger alice (Deposit 0 vaultA2 5 1)) genesis) in
  1 <= 2 /\ exists p, last (positionsOf (storage c') alice) = Some p /\ shares p = 2.
Proof.
  apply (floors_hold_on_return testExt LedgerTest.ledger alice (Deposit 0 vaultA2 5 1) genesis 2).
  vm_compute. reflexivity.
Defined.

Lemma returning_reallocation_used_checked_legs_witness :
  let _params := oneLeg okRouter vaultB 10 0 in
  (length (calldatas _params) = length (routers _params) /\
   length (inputTokens _params) = length (routers _params) /\
   length (outputTokens _params) = length (routers _params) /\
   length (inputAmounts _params) = length (routers _params) /\
   Forall (fun token => token <> 0) (inputTokens _params)) /\
  Forall (fun router => isWhitelisted (whitelistedRouters (storage funded)) router = true)
         (routers _params).
Proof.
  destruct (returning_reallocation_used_checked_legs quietExt LedgerTest.ledger alice 0
              (oneLeg okRouter vaultB 10 0) funded 17
              (fst (transact (optimizePosition quietExt LedgerTest.ledger alice 0
                                (oneLeg okRouter vaultB 10 0)) funded))
              ltac:(vm_compute; reflexivity)) as [Hlegs Hrouters].
  split; [apply Hlegs; discriminate | exact (Hrouters quietExt_Quiet)].
Defined.

Lemma only_the_owner_governs_witness :
  Forall (fun call => adminExec (fst call) (snd call) deployed
                      = Failed "OwnableUnauthorizedAccount")
         [(alice, SetPaused true); (bob, UpdateProtocolFee 5)] /\
  adminRun [(alice, SetPaused true); (bob, UpdateProtocolFee 5)] deployed = deployed.
Proof.
  apply (only_the_owner_governs [(alice, SetPaused true); (bob, UpdateProtocolFee 5)]
           deployed).
  repeat constructor; vm_compute; discriminate.
Defined.

Lemma governance_keeps_the_contract_well_formed_witness :
  let calls := [(admin, UpdateProtocolFee 500); (admin, AddGlueXVault vaultB);
                (admin, AddGlueXVault vaultB); (alice, SetPaused true);
                (admin, UpdateProtocolFee 30)] in
  WellFormed (adminRun calls deployed) /\
  owner (adminRun calls deployed) = admin /\
  treasury (adminRun calls deployed) = admin /\ admin <> 0 /\
  userPositions (Governance.ledger (adminRun calls deployed)) = ∅.
Proof.
  apply (governance_keeps_the_contract_well_formed admin admin).
  reflexivity.
Defined.

Lemma addGlueXVault_adds_once_witness :
  (vaultB ∈ GLUEX_VAULTS deployed ->
   addGlueXVault (owner deployed) vaultB deployed = Failed "Vault already exists") /\
  (vaultB ∉ GLUEX_VAULTS deployed ->
   exists k',
     addGlueXVault (owner deployed) vaultB deployed = Done k' /\
     GLUEX_VAULTS k' = GLUEX_VAULTS deployed ++ [vaultB] /\
     isWhitelisted (whitelistedVaults (Governance.ledger k')) vaultB = true /\
     addGlueXVault (owner k') vaultB k' = Failed "Vault already exists").
Proof.
  apply (addGlueXVault_adds_once vaultB deployed). vm_compute. discriminate.
Defined.

Lemma pause_and_unpause_witness :
  exists k1,
    setPaused (owner deployed) true deployed = Done k1 /\
    (forall sender (op : Op) (w : World),
        exec testExt LedgerTest.ledger sender op (mkChain (Governance.ledger k1) w)
          = Revert "Contract paused" (mkChain (Governance.ledger k1) w)) /\
    setPaused (owner k1) false k1 = Done deployed.
Proof.
  apply (pause_and_unpause testExt LedgerTest.ledger deployed). reflexivity.
Defined.


Lemma whitelisting_sets_one_entry_witness :
  exists k',
    whitelistVault (owner deployed) vaultB true deployed = Done k' /\
    isWhitelisted (whitelistedVaults (Governance.ledger k')) vaultB = true.
Proof.
  destruct (proj1 (whitelisting_sets_one_entry vaultB true deployed
                     ltac:(vm_compute; discriminate)))
    as (k' & Hdone & Hon & _).
  exists k'. split; [exact Hdone | exact Hon].
Defined.

Lemma delisted_vault_takes_nothing_witness :
  exists k1,
    whitelistVault (owner deployed) vaultB false deployed = Done k1 /\
    forall sender (w : World),
      (forall value a m,
          exists e,
            deposit testExt LedgerTest.ledger sender value vaultB a m (mkChain (Governance.ledger k1) w)
              = Revert e (mkChain (Governance.ledger k1) w)) /\
      (forall i (_params : OptimizeParams),
          targetVault _params = vaultB ->
          exists e,
            optimizePosition testExt LedgerTest.ledger sender i _params (mkChain (Governance.ledger k1) w)
              = Revert e (mkChain (Governance.ledger k1) w)).
Proof.
  apply (delisted_vault_takes_nothing testExt LedgerTest.ledger vaultB deployed).
  vm_compute. discriminate.
Defined.

End LedgerMore.

(* ===================================================================== *)
(** * Further properties of the services                                 *)
(* ===================================================================== *)

Module BackendMore.

Import Backend BackendRest.
Local Open Scope Q_scope.

(** ** The two HTTP clients *)

Section Clients.

Context {X : Type}.
Variable Date_now : X -> N.
Variable fetchHistoricalAPY : HistoricalAPYParams -> X -> Res (HttpAnswer RawBody) * X.
Variable fetchQuote : QuoteRequest -> X -> Res (HttpAnswer RawQuote) * X.
Variable env : Env.

Lemma orNum_falsy a b : falsyNum a = true -> orNum a b = b.
Proof. destruct a as [x |]; simpl; [intros -> |]; done. Qed.

Lemma orNum_truthy a b :
  falsyNum a = false -> exists x, a = Some x /\ orNum a b = x /\ falsy x = false.
Proof.
  destruct a as [x |]; simpl; [| done]. intros H. exists x. by rewrite H.
Qed.

Lemma isZero_falsy x : isZero x = true -> falsy x = true.
Proof. by destruct x. Qed.

Lemma falsy_not_positive x : falsy x = true -> flt (Finite 0) x = false.
Proof.
  destruct x as [| [] | q]; cbn; try done.
  intros Hq. apply Qeq_bool_iff in Hq. apply BackendFacts.Qltb_ge. rewrite Hq.
  apply Qle_refl.
Qed.

Lemma readApy_falsy d :
  falsy (readApy d) = true ->
  falsyNum (currentAPY d) = true /\ falsyNum (averageAPY d) = true.
Proof.
  unfold readApy. intros H.
  destruct (falsyNum (currentAPY d)) eqn:Hc.
  - split; [done|]. rewrite (orNum_falsy _ _ Hc) in H.
    destruct (falsyNum (averageAPY d)) eqn:Ha; [done|].
    destruct (orNum_truthy _ (Finite 0) Ha) as (x & _ & Hx & Hnz). congruence.
  - destruct (orNum_truthy _ (orNum (averageAPY d) (Finite 0)) Hc) as (x & _ & Hx & Hnz).
    congruence.
Qed.

(** In the data that [getHistoricalAPY] returns, the current and the
    average yield can only both be missing, zero or [NaN] when the series
    is empty or its average is zero or [NaN]. *)
Lemma mapResponse_settled t params data :
  let d := mapResponse t params data in
  falsy (readApy d) = true ->
  (0 <? length (historicalAPY d))%nat = true ->
  falsy (seriesAverage (historicalAPY d)) = true.
Proof.
  intros d Hzero Hlen. apply readApy_falsy in Hzero as [Hc Ha].
  subst d. unfold mapResponse in *.
  set (rd := match body_data data with Some inner => inner | None => body_top data end) in *.
  set (series := match historical_apy rd with
                 | Some points => map (mapPoint t) points
                 | None => match raw_historicalAPY rd with
                           | Some points => points
                           | None => []
                           end
                 end) in *.
  set (cur := orOptNum (current_apy rd) (orOptNum (raw_apy rd) (raw_currentAPY rd))) in *.
  set (avg := orOptNum (average_apy rd) (raw_averageAPY rd)) in *.
  destruct (falsyNum cur && falsyNum avg && (0 <? length series)%nat) eqn:Hbranch.
  - cbn [historicalAPY averageAPY currentAPY] in *. exact Ha.
  - cbn [historicalAPY averageAPY currentAPY] in *.
    rewrite Hc, Ha, Hlen in Hbranch. done.
Qed.

(** Behind the client, the yield that the loop reads off the data is
    positive exactly when the current or average yield of the reply is,
    and is then that yield. *)
Lemma usableApy_mapResponse t params data :
  let d := mapResponse t params data in
  flt (Finite 0) (usableApy d) = flt (Finite 0) (readApy d) /\
  (flt (Finite 0) (readApy d) = true -> usableApy d = readApy d).
Proof.
  intros d. unfold usableApy. fold (readApy d).
  destruct (isZero (readApy d) && (0 <? length (historicalAPY d))%nat) eqn:Hfall;
    [| done].
  apply andb_true_iff in Hfall as [Hzero Hlen]. apply isZero_falsy in Hzero.
  pose proof (mapResponse_settled t params data Hzero Hlen) as Havg. fold d in Havg.
  rewrite (falsy_not_positive _ Havg), (falsy_not_positive _ Hzero). done.
Qed.


(** X17.  Behind the real client, [getYieldOpportunities] never computes a
    yield of its own: a vault gives an opportunity exactly when the current
    or average yield of the reply is positive, and that yield is the one
    listed.  The series average taken in the loop is zero or [NaN]
    whenever it is reached. *)
Theorem loop_average_is_never_used (svc : Services X) chainID vault acc st :
  let svc' := withClients Date_now fetchHistoricalAPY fetchQuote env svc in
  let answer := fetchHistoricalAPY (vaultQuery chainID vault) (ext st) in
  exists found st',
    fetchVault svc' chainID vault acc st = (Val (acc ++ found), st') /\
    ext st' = snd answer /\
    match fst answer with
    | Val (HttpOk data) =>
        let d := mapResponse (Date_now (snd answer)) (vaultQuery chainID vault) data in
        found = (if flt (Finite 0) (readApy d)
                 then [mkYieldOpportunity vault (orStr (data_asset d) "unknown")
                         (readApy d) (orNum (currentAPY d) (readApy d))
                         (Date_now (snd answer))]
                 else []) /\
        (isZero (readApy d) && (0 <? length (historicalAPY d))%nat = true ->
         falsy (seriesAverage (historicalAPY d)) = true)
    | _ => found = []
    end.
Proof.
  intros svc' answer. subst svc' answer.
  rewrite BackendFacts.fetchVault_run.
  unfold withClients. cbn [Backend.getHistoricalAPY Backend.Date_now].
  unfold getHistoricalAPY.
  destruct (fetchHistoricalAPY (vaultQuery chainID vault) (ext st))
    as [[[status text | data] | message] x'];
    cbn [fst snd opportunityOf apy_success apy_data option_list];
    eexists _, _; (split; [reflexivity|]); (split; [done|]); try done.
  set (d := mapResponse (Date_now x') (vaultQuery chainID vault) data).
  destruct (usableApy_mapResponse (Date_now x') (vaultQuery chainID vault) data)
    as [Hsame Hval]. fold d in Hsame, Hval.
  split.
  - rewrite Hsame. destruct (flt (Finite 0) (readApy d)); [| done].
    by rewrite Hval.
  - intros Hfall. apply andb_true_iff in Hfall as [Hzero Hlen].
    apply isZero_falsy in Hzero.
    apply (mapResponse_settled _ _ _ Hzero Hlen).
Qed.

(** X18.  [getQuote] never throws.  Without the key, without the PID or with an
    empty parameter it reports a failure without making a request; it
    reports success only for a request that was made with the key and the
    PID of the environment and was answered. *)
Theorem getQuote_asks_only_when_complete params x :
  exists reply x',
    getQuote fetchQuote env params x = (Val reply, x') /\
    (unset (GLUEX_API_KEY env) || unset (PID env)
     || (isEmpty (chainID params) || isEmpty (inputToken params)
         || isEmpty (outputToken params) || isEmpty (inputAmount params)
         || isEmpty (q_userAddress params) || isEmpty (outputReceiver params)) = true ->
     reply_success reply = false /\ x' = x) /\
    (reply_success reply = true ->
     exists key pid data,
       GLUEX_API_KEY env = Some key /\ PID env = Some pid /\
       fetchQuote (mkQuoteRequest params pid key) x = (Val (HttpOk data), x') /\
       reply_data reply = Some data) /\
    (reply_success reply = false ->
     reply_data reply = None /\ exists message, reply_error reply = Some message).
Proof.
  unfold getQuote.
  destruct (unset (GLUEX_API_KEY env)) eqn:Hkey.
  { eexists _, _. split; [done|]. cbn. split; [done|]. split; [done|]. eauto. }
  destruct (unset (PID env)) eqn:Hpid.
  { eexists _, _. split; [done|]. cbn. split; [done|]. split; [done|]. eauto. }
  cbn [orb].
  destruct (isEmpty (chainID params) || isEmpty (inputToken params)
            || isEmpty (outputToken params) || isEmpty (inputAmount params)
            || isEmpty (q_userAddress params) || isEmpty (outputReceiver params))
    eqn:Hparams.
  { eexists _, _. split; [done|]. cbn. split; [done|]. split; [done|]. eauto. }
  destruct (GLUEX_API_KEY env) as [key |] eqn:Ekey; [| done].
  destruct (PID env) as [pid |] eqn:Epid; [| done].
  cbn [default from_option]. unfold id.
  destruct (fetchQuote (mkQuoteRequest params pid key) x)
    as [[[status text | data] | message] x'] eqn:Hfetch;
    eexists _, _; (split; [reflexivity|]); cbn; (split; [done|]).
  - split; [done|]. eauto.
  - split; [| done]. intros _. exists key, pid, data. done.
  - split; [done|]. eauto.
Qed.

End Clients.

(** ** The engine *)

Section Engine.

Context {X : Type}.
Variable svc : Services X.
Variable optimizerContract : string.

(** X20.  [ensureRouterWhitelisted] never throws.  When the first read answers
    that the router is listed, nothing more is done; and the answer is
    [true] only when one of the two reads of the whitelist said so or a
    whitelisting transaction was sent and confirmed as successful. *)
Theorem ensureRouterWhitelisted_is_backed routerAddress st :
  let read := readWhitelistedRouters svc routerAddress in
  exists b st',
    ensureRouterWhitelisted svc routerAddress st = (Val b, st') /\
    (fst (read (ext st)) = Val true ->
     b = true /\ ext st' = snd (read (ext st))) /\
    (b = true ->
     fst (read (ext st)) = Val true \/
     let x1 := snd (read (ext st)) in
     (fst (read x1) = Val true /\ ext st' = snd (read x1)) \/
     exists txhash x3,
       writeWhitelistRouter svc routerAddress true (snd (read x1)) = (Val txhash, x3) /\
       waitForTransactionReceipt svc txhash x3 = (Val status_success, ext st')).
Proof.
  intros read. subst read.
  unfold ensureRouterWhitelisted, whitelistRouter, isRouterWhitelisted,
    tryCatch, bind, await, ret.
  destruct (readWhitelistedRouters svc routerAddress (ext st)) as [[[] | e1] x1];
    cbn [ext fst snd].
  { eexists _, _. split; [done|]. cbn. split; [done|]. by left. }
  all: destruct (readWhitelistedRouters svc routerAddress x1) as [[[] | e2] x2];
    cbn [ext fst snd];
    [ eexists _, _; (split; [done|]); cbn; (split; [done|]); right; by left | .. ].
  all: destruct (writeWhitelistRouter svc routerAddress true x2) as [[txhash | e3] x3]
         eqn:Hwrite; cbn [ext fst snd];
    [| eexists _, _; (split; [done|]); cbn; by split ].
  all: destruct (waitForTransactionReceipt svc txhash x3) as [[[] | e4] x4] eqn:Hwait;
    cbn [ext fst snd]; eexists _, _; (split; [done|]); cbn; (split; [done|]);
    try done.
  all: intros _; right; right; by exists txhash, x3.
Qed.

(** What [prepareSwap] hands over when it returns. *)
Lemma prepareSwap_Val pos best st legs st1 :
  prepareSwap svc optimizerContract pos best st = (Val legs, st1) ->
  let '(rs, cds, its, ots, ias) := legs in
  LegsFor pos best (mkOptimizeArgs rs cds its ots ias (opp_vault best) 0).
Proof.
  unfold prepareSwap, LegsFor.
  destruct (String.eqb (toLowerCase (asset pos)) (toLowerCase (opp_asset best))) eqn:Hsame;
    cbn [negb].
  - apply String.eqb_eq in Hsame. unfold ret. intros [= <- <-]. by left.
  - apply String.eqb_neq in Hsame. unfold bind, await.
    destruct (Backend.getQuote svc _ (ext st)) as [[quote | e] x1]; [| done].
    destruct (q_success quote); [| done].
    destruct (q_result quote) as [result |]; [| done].
    destruct (ensureRouterWhitelisted svc (router result) _) as [[[] | e] st2]; [| done | done].
    cbn [negb]. unfold ret. intros [= <- <-]. right. split; [done|].
    by exists (router result), (calldata result).
Qed.

(** What [execute] sends. *)
Lemma execute_sends user index pos cur best st :
  exists r st',
    execute svc optimizerContract user index pos cur best st = (r, st') /\
    ((exists e,
         prepareSwap svc optimizerContract pos best st = (Throw e, st') /\
         r = Throw e /\ submitted st' = submitted st) \/
     (exists args,
         submitted st' = submitted st ++ [(Z.to_N index, args)] /\
         targetVault args = opp_vault best /\ minSharesOut args = 0%N /\
         LegsFor pos best args)).
Proof.
  unfold execute, bind at 1.
  pose proof (BackendFacts.ReadOnly_prepareSwap svc optimizerContract pos best st)
    as (_ & _ & Hsub & _).
  destruct (prepareSwap svc optimizerContract pos best st) as [[legs | e] st1] eqn:Hprep;
    simpl in Hsub.
  2:{ eexists _, _. split; [done|]. left. by exists e. }
  apply prepareSwap_Val in Hprep.
  destruct legs as [[[[rs cds] its] ots] ias].
  assert (Hargs : submitted st1 ++ [(Z.to_N index,
                     mkOptimizeArgs rs cds its ots ias (opp_vault best) 0)]
                  = submitted st ++ [(Z.to_N index,
                     mkOptimizeArgs rs cds its ots ias (opp_vault best) 0)] /\
                  targetVault (mkOptimizeArgs rs cds its ots ias (opp_vault best) 0)
                    = opp_vault best /\
                  minSharesOut (mkOptimizeArgs rs cds its ots ias (opp_vault best) 0)
                    = 0%N /\
                  LegsFor pos best (mkOptimizeArgs rs cds its ots ias (opp_vault best) 0)).
  { by rewrite Hsub. }
  unfold submitOptimizePosition, bind, await. cbn [ext yieldOptimizations
    optimizationThreshold submitted receipts].
  destruct (writeOptimizePosition svc _ _ (ext st1)) as [[txhash | e] x2].
  2:{ eexists _, _. split; [done|]. right. eexists. exact Hargs. }
  unfold awaitReceipt. cbn [ext yieldOptimizations optimizationThreshold
    submitted receipts].
  destruct (waitForTransactionReceipt svc txhash x2) as [[[] | e] x3].
  2,3: eexists _, _; (split; [done|]); right; eexists; exact Hargs.
  unfold now, saveYieldOptimization, tryCatch, bind, await, throw, ret.
  cbn [ext yieldOptimizations optimizationThreshold submitted receipts].
  destruct (document_save svc _ x3) as [[[] | e] x4];
    eexists _, _; (split; [done|]); right; eexists; exact Hargs.
Qed.

Lemma decide_Proceed threshold user index pos cur best p c b :
  decide threshold user index pos cur best = Proceed p c b ->
  p = pos /\ c = cur /\ b = best /\
  flt (fsub (opp_apy best) cur) threshold = false /\
  toLowerCase (opp_vault best) <> toLowerCase (vault pos).
Proof.
  intros Hd.
  assert (Hiff := proj1 (BackendFacts.decide_Proceed_iff threshold user index pos cur best)).
  destruct Hiff as [Hthr Hvault]; [by exists p, c, b|].
  rewrite BackendFacts.decide_cases in Hd.
  destruct (flt _ _); [done|]. destruct (String.eqb _ _); [done|].
  by injection Hd as <- <- <-.
Qed.

(** X21.  The engine sends at most one call for a position, and only
    when it has decided to move it: the call is for that position and for
    the vault of the best opportunity found for its asset, which is another
    vault than the one of the position, and has no floor.  When the asset
    of the position is not the empty string, the opportunity is in that
    asset and the call carries no swap leg. *)
Theorem engine_call_has_no_leg user index st :
  exists res st',
    optimizePosition svc optimizerContract user index st = (Val res, st') /\
    (submitted st' = submitted st \/
     exists positions st1 pos best st2 args,
       getUserPositions svc user st = (Val positions, st1) /\
       at_index positions index = Some pos /\
       findBestYieldOpportunity svc (Some (asset pos)) st1 = (Val (Some best), st2) /\
       submitted st' = submitted st ++ [(Z.to_N index, args)] /\
       targetVault args = opp_vault best /\
       toLowerCase (opp_vault best) <> toLowerCase (vault pos) /\
       minSharesOut args = 0%N /\
       (asset pos <> ""%string ->
        toLowerCase (opp_asset best) = toLowerCase (asset pos) /\
        routers args = [] /\ calldatas args = [] /\ inputTokens args = [] /\
        outputTokens args = [] /\ inputAmounts args = [])).
Proof.
  unfold optimizePosition, tryCatch, bind.
  pose proof (BackendFacts.ReadOnly_evaluate svc user index st) as (_ & _ & Hsub0 & _).
  destruct (evaluate svc user index st) as [[d | e] st0] eqn:Heval; cbn [snd] in Hsub0.
  2:{ eexists _, _. split; [done|]. by left. }
  destruct d as [result | pos cur best].
  { eexists _, _. split; [done|]. by left. }
  apply BackendFacts.evaluate_decides in Heval
    as (positions & st1 & pos' & best' & Hread & Hpos & _ & Hbest & Hd).
  symmetry in Hd. apply decide_Proceed in Hd as (-> & -> & -> & _ & Hvault).
  rename pos' into pos, best' into best.
  destruct (execute_sends user index pos (orNum (apy pos) (Finite 0)) best st0)
    as (r & st' & Hrun & [(e & _ & -> & Hsame) | (args & Hsub & Htarget & Hfloor & Hlegs)]).
  { rewrite Hrun. eexists _, _. split; [done|]. left. cbn. congruence. }
  rewrite Hrun.
  assert (Hout : exists res, (match r with
                              | Val a => (Val a, st')
                              | Throw e => ret (failed user index e) st'
                              end) = (Val res, st')).
  { destruct r; by eexists. }
  destruct Hout as [res ->].
  exists res, st'. split; [done|]. right.
  exists positions, st1, pos, best, st0, args.
  do 3 (split; [done|]). split; [congruence|]. do 3 (split; [done|]).
  intros Hasset.
  pose proof (BackendFacts.findBestYieldOpportunity_asset svc _ _ _ _ Hasset Hbest)
    as Hin.
  split; [done|].
  destruct Hlegs as [(_ & ? & ? & ? & ? & ?) | (Hdiff & _)]; [done | congruence].
Qed.

(** ** What reaches the store *)

Lemma Kept_refl (st : State (X := X)) : Kept st st.
Proof. split; [done|]. exists []. by rewrite app_nil_r. Qed.

Lemma Kept_trans (st1 st2 st3 : State (X := X)) :
  Kept st1 st2 -> Kept st2 st3 -> Kept st1 st3.
Proof.
  intros (Ht1 & d1 & Hd1 & Hw1) (Ht2 & d2 & Hd2 & Hw2).
  split; [congruence|]. exists (d1 ++ d2).
  split; [by rewrite Hd2, Hd1, app_assoc|].
  apply Forall_app. split; [done|]. by rewrite <- Ht1.
Qed.

Lemma ReadOnly_Kept {A} (m : M (X := X) A) st : ReadOnly m -> Kept st (snd (m st)).
Proof.
  intros Hm. destruct (Hm st) as (Hyo & Hthr & _ & _).
  split; [done|]. exists []. by rewrite app_nil_r.
Qed.

Lemma optimizePosition_Kept user index st :
  Kept st (snd (optimizePosition svc optimizerContract user index st)).
Proof.
  unfold optimizePosition, tryCatch, bind.
  pose proof (ReadOnly_Kept (evaluate svc user index) st
                (BackendFacts.ReadOnly_evaluate svc user index)) as Heval.
  destruct (evaluate svc user index st) as [[d | e] st1] eqn:Hrun; cbn [snd] in *;
    [| done].
  destruct d as [result | pos cur best]; [done|].
  apply BackendFacts.evaluate_decides in Hrun
    as (? & ? & pos' & best' & _ & _ & _ & _ & Hd).
  symmetry in Hd. apply decide_Proceed in Hd as (-> & -> & -> & Hgain & Hvault).
  eapply Kept_trans; [exact Heval|].
  destruct Heval as (Hthr & _).
  destruct (BackendFacts.execute_run svc optimizerContract user index pos'
              (orNum (apy pos') (Finite 0)) best' st1)
    as (r & st' & Hexec & Hthr' & _ & Hr).
  rewrite Hexec. destruct r as [res | e]; cbn [snd].
  - destruct Hr as (txhash & doc & _ & _ & Hdoc & Hyo).
    split; [done|]. exists [doc]. split; [done|].
    constructor; [| done]. rewrite Hdoc. split; cbn.
    + by rewrite Hthr.
    + congruence.
  - split; [done|]. exists []. by rewrite app_nil_r.
Qed.

Lemma forPositions_Kept user positions b st :
  Kept st (snd (forPositions svc optimizerContract user positions b st)).
Proof.
  revert b st. induction positions as [| position rest IH]; intros b st.
  - apply Kept_refl.
  - simpl. destruct (negb (active position)); [apply IH|].
    unfold bind.
    pose proof (optimizePosition_Kept user (Z.of_nat (positionIndex position)) st) as Hone.
    destruct (BackendFacts.optimizePosition_run svc optimizerContract user
                (Z.of_nat (positionIndex position)) st) as (res & st1 & Hrun & _).
    rewrite Hrun in *. cbn [snd] in Hone.
    eapply Kept_trans; [exact Hone | apply IH].
Qed.

Lemma forUsers_Kept users b st :
  Kept st (snd (forUsers svc optimizerContract users b st)).
Proof.
  revert b st. induction users as [| user rest IH]; intros b st.
  - apply Kept_refl.
  - simpl. unfold bind at 1.
    pose proof (ReadOnly_Kept (getUserPositions svc user) st
                  (BackendFacts.ReadOnly_getUserPositions svc user)) as Hread.
    destruct (BackendFacts.getUserPositions_run svc user st)
      as (positions & st1 & Hrun & _).
    rewrite Hrun in *. cbn [snd] in Hread.
    unfold bind.
    pose proof (forPositions_Kept user positions b st1) as Hpos.
    destruct (BackendFacts.forPositions_run svc optimizerContract user positions b st1)
      as (b' & st2 & outs & Hrun2 & _).
    rewrite Hrun2 in *. cbn [snd] in Hpos.
    eapply Kept_trans; [exact Hread|]. eapply Kept_trans; [exact Hpos | apply IH].
Qed.

Lemma optimizeAllPositions_Kept st :
  Kept st (snd (optimizeAllPositions svc optimizerContract st)).
Proof.
  destruct (BackendFacts.optimizeAllPositions_run svc optimizerContract st)
    as (users & st0 & b & st' & Husers & Hall & Hrun & _).
  rewrite Hrun. cbn [snd].
  assert (Hread : Kept st st0).
  { pose proof (ReadOnly_Kept (getUsersWithYieldPositions svc) st) as Hk.
    rewrite Husers in Hk. apply Hk.
    unfold getUsersWithYieldPositions.
    apply BackendFacts.ReadOnly_tryCatch;
      [apply BackendFacts.ReadOnly_await | intros; apply BackendFacts.ReadOnly_ret]. }
  pose proof (forUsers_Kept users (mkBatch 0 0 []) st0) as Hkept.
  rewrite Hall in Hkept. cbn [snd] in Hkept.
  eapply Kept_trans; [exact Hread | exact Hkept].
Qed.

(** X23.  Every record that the engine writes, in one reallocation or in
    a whole run over all users, is of a move whose gain, the difference of
    the new and the previous yield as the engine computes it in doubles,
    is not below the threshold of the service, and which goes from one
    vault to another. *)
Theorem every_record_is_worthwhile :
  (forall user index st,
      exists docs,
        yieldOptimizations (snd (optimizePosition svc optimizerContract user index st))
          = yieldOptimizations st ++ docs /\
        Forall (Worthwhile (optimizationThreshold st)) docs) /\
  (forall st,
      exists docs,
        yieldOptimizations (snd (optimizeAllPositions svc optimizerContract st))
          = yieldOptimizations st ++ docs /\
        Forall (Worthwhile (optimizationThreshold st)) docs).
Proof.
  split.
  - intros user index st. by destruct (optimizePosition_Kept user index st) as (_ & ?).
  - intros st. by destruct (optimizeAllPositions_Kept st) as (_ & ?).
Qed.

(** ** What the readers return *)

Lemma insertByApy_Permutation x l : insertByApy x l ≡ₚ x :: l.
Proof.
  induction l as [| y r IH]; [done|]. simpl.
  destruct (flt (opp_apy x) (opp_apy y)); [| done].
  rewrite IH. apply Permutation_swap.
Qed.

Lemma sortByApyDesc_Permutation l : sortByApyDesc l ≡ₚ l.
Proof.
  induction l as [| x r IH]; [done|]. unfold sortByApyDesc in *. simpl.
  by rewrite insertByApy_Permutation, IH.
Qed.

(** X24.  [getYieldOpportunities] never throws.  What it returns is what the
    loop gathered, reordered: sorted by descending yield, every yield
    positive, every vault one of those asked for, and no more entries than
    vaults asked for. *)
Theorem getYieldOpportunities_sorted_and_positive vaults chainID st :
  exists gathered opportunities st',
    fetchAll svc chainID vaults [] st = (Val gathered, st') /\
    getYieldOpportunities svc vaults chainID st = (Val opportunities, st') /\
    opportunities ≡ₚ gathered /\
    Descending opportunities /\
    Forall (fun o => flt (Finite 0) (opp_apy o) = true /\ opp_vault o ∈ vaults)
           opportunities /\
    (length opportunities <= length vaults)%nat.
Proof.
  pose proof (BackendFacts.gather_vaults svc chainID vaults (ext st)) as Hsub.
  pose proof (BackendFacts.gather_positive svc chainID vaults (ext st)) as Hpos.
  pose proof (BackendFacts.gather_numeric svc chainID vaults (ext st)) as Hnum.
  eexists _, _, _.
  split; [by rewrite BackendFacts.fetchAll_gather|].
  split; [by rewrite BackendFacts.getYieldOpportunities_run|].
  split; [apply sortByApyDesc_Permutation|].
  split; [by apply BackendFacts.sortByApyDesc_sorted|].
  split.
  - rewrite sortByApyDesc_Permutation.
    apply Forall_forall. intros o Ho. split.
    + by eapply Forall_forall in Hpos.
    + eapply elem_of_sublist; [| exact Hsub].
      by apply (list_elem_of_fmap_2 opp_vault).
  - rewrite sortByApyDesc_Permutation.
    apply sublist_length in Hsub. by rewrite length_map in Hsub.
Qed.

Lemma getYieldOpportunities_positive vaults chainID st :
  exists opportunities st',
    getYieldOpportunities svc vaults chainID st = (Val opportunities, st') /\
    Forall positive opportunities.
Proof.
  eexists _, _. split; [by rewrite BackendFacts.getYieldOpportunities_run|].
  rewrite sortByApyDesc_Permutation. apply BackendFacts.gather_positive.
Qed.

Lemma enrich_run user i positions st :
  exists ups st',
    enrich svc user i positions st = (Val ups, st') /\
    length ups = length positions /\
    forall k p,
      positions !! k = Some p ->
      exists a,
        ups !! k = Some (mkUserPosition user (i + k) (cp_vault p) (cp_asset p)
                                        (cp_shares p) (cp_assets p) (Some a)
                                        (cp_active p)) /\
        fle (Finite 0) a = true.
Proof.
  revert i st. induction positions as [| position rest IH]; intros i st.
  - exists [], st. split; [done|]. split; [done|]. intros k p Hk. done.
  - simpl. unfold bind at 1.
    destruct (getYieldOpportunities_positive [cp_vault position] "hyperevm" st)
      as (opportunities & st1 & Hrun & Hpos).
    rewrite Hrun. unfold bind.
    destruct (IH (S i) st1) as (others & st2 & Hrest & Hlen & Hall).
    rewrite Hrest. unfold ret.
    eexists _, _. split; [done|]. split; [by cbn; rewrite Hlen|].
    intros [| k] p Hk.
    + injection Hk as <-. eexists. split; [by rewrite Nat.add_0_r|].
      destruct Hpos as [| o ? Ho _]; [done|].
      change (fle (Finite 0) (opp_apy o) = true). apply BackendFacts.flt_fle, Ho.
    + destruct (Hall k p Hk) as (a & Hlook & Ha). exists a. split; [| done].
      replace (i + S k)%nat with (S i + k)%nat by lia. exact Hlook.
Qed.

(** X25.  [getUserPositions] never throws.  When the chain cannot be read it
    returns no position; else it returns one entry for each position of the
    contract, in the order of the contract, each with its own index, the
    fields of the contract and a yield that is not negative. *)
Theorem getUserPositions_keeps_the_index user st :
  exists ups st',
    getUserPositions svc user st = (Val ups, st') /\
    match fst (readUserPositions svc user (ext st)) with
    | Throw _ => ups = []
    | Val positions =>
        length ups = length positions /\
        forall k p,
          positions !! k = Some p ->
          exists a,
            ups !! k = Some (mkUserPosition user k (cp_vault p) (cp_asset p)
                                            (cp_shares p) (cp_assets p) (Some a)
                                            (cp_active p)) /\
            fle (Finite 0) a = true
    end.
Proof.
  unfold getUserPositions, tryCatch, bind, await.
  destruct (readUserPositions svc user (ext st)) as [[positions | e] x1]; cbn [fst].
  2:{ by eexists _, _. }
  destruct (enrich_run user 0 positions
              (mkState x1 (yieldOptimizations st) (optimizationThreshold st)
                       (submitted st) (receipts st)))
    as (ups & st' & Hrun & Hlen & Hall).
  rewrite Hrun. exists ups, st'. done.
Qed.

(** X26.  A reallocation of a position that the reader does not return,
    or returns as inactive, is reported as failed and nothing is done
    after the positions were read.  For an index from the length of the
    list on, and for an inactive position, the message is the one of the
    check; for a negative index, which the REST route lets through, it is
    the message of the [TypeError] that reading [active] of [undefined]
    throws. *)
Theorem missing_position_is_reported user index st positions st1 :
  getUserPositions svc user st = (Val positions, st1) ->
  ((Z.of_nat (length positions) <= index)%Z \/
   (exists p, at_index positions index = Some p /\ active p = false) ->
   optimizePosition svc optimizerContract user index st
     = (Val (failed user index "Invalid or inactive position"), st1)) /\
  ((index < 0)%Z ->
   optimizePosition svc optimizerContract user index st
     = (Val (failed user index "Cannot read properties of undefined (reading 'active')"),
        st1)).
Proof.
  intros Hread. split.
  - intros Hmissing.
    unfold optimizePosition, tryCatch, bind at 1, evaluate, bind at 1.
    rewrite Hread.
    destruct (_ <=? _)%Z eqn:Hout; [done|]. apply Z.leb_gt in Hout.
    destruct Hmissing as [? | (p & -> & Hinactive)]; [lia|].
    by rewrite Hinactive.
  - intros Hneg.
    unfold optimizePosition, tryCatch, bind at 1, evaluate, bind at 1.
    rewrite Hread.
    destruct (_ <=? _)%Z eqn:Hout; [apply Z.leb_le in Hout; lia|].
    unfold at_index. apply Z.ltb_lt in Hneg. by rewrite Hneg.
Qed.

(** ** The threshold *)

Lemma ExtOnly_ret {A} (a : A) : ExtOnly (ret a : M (X := X) A).
Proof. by intros st yo t sub rec. Qed.

Lemma ExtOnly_throw {A} e : ExtOnly (throw e : M (X := X) A).
Proof. by intros st yo t sub rec. Qed.

Lemma ExtOnly_await {A} (f : X -> Res A * X) : ExtOnly (await f).
Proof.
  intros st yo t sub rec. unfold await. cbn [ext]. by destruct (f (ext st)).
Qed.

Lemma ExtOnly_now : ExtOnly (now svc).
Proof. by intros st yo t sub rec. Qed.

Lemma ExtOnly_bind {A B} (m : M (X := X) A) (k : A -> M B) :
  ExtOnly m -> (forall a, ExtOnly (k a)) -> ExtOnly (bind m k).
Proof.
  intros Hm Hk st yo t sub rec. unfold bind. rewrite Hm.
  destruct (m st) as [[a | e] s1]; cbn [fst snd]; [| done].
  apply Hk.
Qed.

Lemma ExtOnly_tryCatch {A} (m : M (X := X) A) (h : string -> M A) :
  ExtOnly m -> (forall e, ExtOnly (h e)) -> ExtOnly (tryCatch m h).
Proof.
  intros Hm Hh st yo t sub rec. unfold tryCatch. rewrite Hm.
  destruct (m st) as [[a | e] s1]; cbn [fst snd]; [done|].
  apply Hh.
Qed.

Ltac ext_only :=
  repeat first
    [ apply ExtOnly_ret | apply ExtOnly_throw | apply ExtOnly_await
    | apply ExtOnly_now
    | apply ExtOnly_bind; [| intros ?]
    | apply ExtOnly_tryCatch; [| intros ?]
    | assumption
    | match goal with
      | |- ExtOnly (match ?x with _ => _ end) => destruct x
      | |- ExtOnly (if ?b then _ else _) => destruct b
      end ].

Lemma ExtOnly_fetchAll chainID vaults acc : ExtOnly (fetchAll svc chainID vaults acc).
Proof.
  revert acc. induction vaults as [| v r IH]; intros acc; simpl; [ext_only|].
  apply ExtOnly_bind; [| intros ?; apply IH].
  unfold fetchVault. ext_only.
Qed.

Lemma ExtOnly_getYieldOpportunities vaults chainID :
  ExtOnly (getYieldOpportunities svc vaults chainID).
Proof.
  unfold getYieldOpportunities.
  apply ExtOnly_bind; [apply ExtOnly_fetchAll | intros ?; ext_only].
Qed.

Lemma ExtOnly_findBestYieldOpportunity currentAsset :
  ExtOnly (findBestYieldOpportunity svc currentAsset).
Proof.
  unfold findBestYieldOpportunity, findBestYieldForAsset.
  apply ExtOnly_bind; [apply ExtOnly_getYieldOpportunities | intros ?; ext_only].
Qed.

Lemma ExtOnly_enrich user index positions : ExtOnly (enrich svc user index positions).
Proof.
  revert index. induction positions as [| p r IH]; intros index; simpl; [ext_only|].
  apply ExtOnly_bind; [apply ExtOnly_getYieldOpportunities | intros ?].
  apply ExtOnly_bind; [apply IH | intros ?; ext_only].
Qed.

Lemma ExtOnly_getUserPositions user : ExtOnly (getUserPositions svc user).
Proof.
  unfold getUserPositions.
  apply ExtOnly_tryCatch; [| intros ?; ext_only].
  apply ExtOnly_bind; [ext_only | intros ?; apply ExtOnly_enrich].
Qed.

Lemma ExtOnly_here {A} (m : M (X := X) A) st :
  ExtOnly m ->
  m st = (fst (m st),
          mkState (ext (snd (m st))) (yieldOptimizations st) (optimizationThreshold st)
                  (submitted st) (receipts st)).
Proof.
  intros Hm.
  specialize (Hm st (yieldOptimizations st) (optimizationThreshold st)
                 (submitted st) (receipts st)).
  by destruct st.
Qed.

(** What [evaluate] does with the threshold [t] of the state it starts
    in: the positions and the opportunity are read the same whatever [t]
    is, and [t] only enters the decision. *)
Lemma evaluate_at user index st :
  exists reading,
    forall t,
      fst (evaluate svc user index
             (mkState (ext st) (yieldOptimizations st) t (submitted st) (receipts st)))
      = match reading with
        | Val (pos, best) =>
            Val (decide t user index pos (orNum (apy pos) (Finite 0)) best)
        | Throw e => Throw e
        end.
Proof.
  pose proof (ExtOnly_getUserPositions user) as Hread.
  destruct (getUserPositions svc user st) as [[positions | e] st1] eqn:Hrun.
  2:{ exists (Throw e). intros t. unfold evaluate, bind. rewrite Hread, Hrun. done. }
  destruct (Z.of_nat (length positions) <=? index)%Z eqn:Hout.
  { exists (Throw "Invalid or inactive position"). intros t.
    unfold evaluate, bind. rewrite Hread, Hrun. cbn [fst snd]. by rewrite Hout. }
  destruct (at_index positions index) as [pos |] eqn:Hpos.
  2:{ exists (Throw "Cannot read properties of undefined (reading 'active')"). intros t.
      unfold evaluate, bind. rewrite Hread, Hrun. cbn [fst snd]. by rewrite Hout, Hpos. }
  destruct (active pos) eqn:Hact.
  2:{ exists (Throw "Invalid or inactive position"). intros t.
      unfold evaluate, bind. rewrite Hread, Hrun. cbn [fst snd].
      by rewrite Hout, Hpos, Hact. }
  pose proof (ExtOnly_findBestYieldOpportunity (Some (asset pos))) as Hbest.
  destruct (findBestYieldOpportunity svc (Some (asset pos)) st1)
    as [[[best |] | e] st2] eqn:Hrun2.
  - exists (Val (pos, best)). intros t.
    unfold evaluate, bind. rewrite Hread, Hrun. cbn [fst snd].
    rewrite Hout, Hpos, Hact. cbn [negb]. rewrite Hbest, Hrun2. done.
  - exists (Throw "No yield opportunities found"). intros t.
    unfold evaluate, bind. rewrite Hread, Hrun. cbn [fst snd].
    rewrite Hout, Hpos, Hact. cbn [negb]. rewrite Hbest, Hrun2. done.
  - exists (Throw e). intros t.
    unfold evaluate, bind. rewrite Hread, Hrun. cbn [fst snd].
    rewrite Hout, Hpos, Hact. cbn [negb]. rewrite Hbest, Hrun2. done.
Qed.

(** X27.  Setting a higher threshold never turns a skip into a move: with the
    same answers from outside, a position that is skipped, or whose check
    ends in an error, under the threshold of the service is skipped, or
    ends in the same error, under any higher one; and a position that is
    moved under the higher threshold is moved to the same vault under the
    lower one. *)
Theorem raising_the_threshold_only_skips user index st t' :
  fle (optimizationThreshold st) t' = true ->
  let st' := snd (setOptimizationThreshold t' st) in
  optimizationThreshold st' = t' /\
  match fst (evaluate svc user index st) with
  | Val (Skip _) => exists r', fst (evaluate svc user index st') = Val (Skip r')
  | Throw e => fst (evaluate svc user index st') = Throw e
  | Val (Proceed pos cur best) =>
      fst (evaluate svc user index st') = Val (Proceed pos cur best) \/
      fst (evaluate svc user index st')
        = Val (Skip (skipped user index pos cur best
                             (BelowThreshold (fsub (opp_apy best) cur) t')))
  end.
Proof.
  intros Hle st'. subst st'. unfold setOptimizationThreshold. cbn [snd].
  split; [done|].
  destruct (evaluate_at user index st) as [reading Hat].
  rewrite (Hat t').
  replace (evaluate svc user index st)
    with (evaluate svc user index
            (mkState (ext st) (yieldOptimizations st) (optimizationThreshold st)
                     (submitted st) (receipts st))) by (by destruct st).
  rewrite (Hat (optimizationThreshold st)).
  destruct reading as [[pos best] | e]; [| done].
  rewrite !BackendFacts.decide_cases.
  destruct (flt (fsub (opp_apy best) (orNum (apy pos) (Finite 0)))
                (optimizationThreshold st)) eqn:Hlow.
  - rewrite (BackendFacts.flt_fle_trans _ _ _ Hlow Hle). by eexists.
  - destruct (String.eqb _ _).
    + destruct (flt _ t'); by eexists.
    + destruct (flt _ t'); [by right | by left].
Qed.

End Engine.

(** ** The two reports *)

Section Reports.

Context {X : Type}.
Variable svc : Services X.
Variable optimizerContract : string.
Variable collection_find : X -> Res unit * X.

Lemma Math_max_first first rest :
  first <> NaN ->
  Forall (fun y => fle y first = true) rest ->
  Math_max (first :: rest) = first.
Proof.
  intros Hnum Hall. unfold Math_max. cbn [fold_left].
  assert (Hstart : match first with
                   | NaN => NaN
                   | _ => if flt (Infinity true) first then first else Infinity true
                   end = first).
  { by destruct first as [| [] | q]. }
  rewrite Hstart. clear Hstart.
  induction Hall as [| y r Hy _ IH]; [done|].
  cbn [fold_left].
  assert (Hkeep : match first, y with
                  | NaN, _ | _, NaN => NaN
                  | _, _ => if flt first y then y else first
                  end = first).
  { apply BackendFacts.fle_not_flt in Hy as Hlt.
    destruct first as [| [] | q], y as [| [] | q']; try done; by rewrite Hlt. }
  by rewrite Hkeep.
Qed.

(** X28.  [getYieldStatistics] never throws and changes nothing.  Its
    list is what [getYieldOpportunities] returns for the whitelisted
    vaults: sorted by descending yield, with positive yields; the highest
    yield reported is the yield of the first entry and bounds every entry;
    the average and the highest yield are zero when no vault gave a
    reading. *)
Theorem statistics_agree_with_the_list st :
  exists stats st',
    getYieldStatistics svc st = (Val stats, st') /\
    yieldOptimizations st' = yieldOptimizations st /\
    submitted st' = submitted st /\
    fst (getYieldOpportunities svc GLUEX_VAULTS "hyperevm" st) = Val (stat_vaults stats) /\
    Descending (stat_vaults stats) /\
    Forall positive (stat_vaults stats) /\
    Forall (fun o => fle (opp_apy o) (stat_highestAPY stats) = true) (stat_vaults stats) /\
    match stat_vaults stats with
    | [] => stat_averageAPY stats = Finite 0 /\ stat_highestAPY stats = Finite 0
    | first :: _ => stat_highestAPY stats = opp_apy first
    end.
Proof.
  unfold getYieldStatistics, bind, now, ret.
  rewrite BackendFacts.getYieldOpportunities_run.
  pose proof (BackendFacts.gather_positive svc "hyperevm" GLUEX_VAULTS (ext st)) as Hpos.
  pose proof (BackendFacts.gather_numeric svc "hyperevm" GLUEX_VAULTS (ext st)) as Hnum.
  pose proof (BackendFacts.sortByApyDesc_sorted _ Hnum) as Hsorted.
  apply (BackendFacts.sortByApyDesc_Forall positive) in Hpos.
  destruct (sortByApyDesc (fst (gather svc "hyperevm" GLUEX_VAULTS (ext st))))
    as [| first rest] eqn:Hlist.
  { eexists _, _. split; [done|]. cbn. done. }
  eexists _, _. split; [done|].
  cbn [stat_vaults stat_averageAPY stat_highestAPY yieldOptimizations submitted withExt
       fst].
  do 5 (split; [done|]).
  unfold Descending in Hsorted.
  apply Sorted.StronglySorted_inv in Hsorted as [_ Hrest].
  apply Forall_cons in Hpos as [Hfirst _].
  apply BackendFacts.positive_numeric in Hfirst.
  change (0 <? length (first :: rest))%nat with true. cbv iota.
  cbn [map].
  rewrite Math_max_first; [| done | by apply Forall_map].
  split; [| done].
  constructor; [by apply BackendFacts.fle_refl | done].
Qed.

(** Every position that the batch counts as optimized has left one
    document in the store, and no other document was added. *)
Lemma forPositions_records user positions b st :
  exists b' st',
    forPositions svc optimizerContract user positions b st = (Val b', st') /\
    (length (yieldOptimizations st') + optimizedCount b
     = length (yieldOptimizations st) + optimizedCount b')%nat.
Proof.
  revert b st. induction positions as [| p ps IH]; intros b st; simpl.
  - by exists b, st.
  - destruct (active p); simpl; [| apply IH].
    unfold bind.
    destruct (BackendFacts.optimizePosition_run svc optimizerContract user
                (Z.of_nat (positionIndex p)) st)
      as (res & st1 & Hrun & _ & _ & _ & Hcases).
    rewrite Hrun.
    destruct Hcases as [[Hfail Hsame] | (Hok & _ & doc & Hdoc & _)].
    + rewrite Hfail.
      destruct (IH (mkBatch (optimizedCount b) (S (skippedCount b)) (results b ++ [res]))
                   st1) as (b' & st' & Hrest & Hcount).
      exists b', st'. split; [done|]. cbn in Hcount. rewrite Hsame in Hcount. lia.
    + rewrite Hok.
      destruct (IH (mkBatch (S (optimizedCount b)) (skippedCount b) (results b ++ [res]))
                   st1) as (b' & st' & Hrest & Hcount).
      exists b', st'. split; [done|]. cbn in Hcount.
      rewrite Hdoc, length_app in Hcount. cbn in Hcount. lia.
Qed.

Lemma forUsers_records users b st :
  exists b' st',
    forUsers svc optimizerContract users b st = (Val b', st') /\
    (length (yieldOptimizations st') + optimizedCount b
     = length (yieldOptimizations st) + optimizedCount b')%nat.
Proof.
  revert b st. induction users as [| u us IH]; intros b st; simpl.
  - by exists b, st.
  - unfold bind.
    pose proof (BackendFacts.ReadOnly_getUserPositions svc u st) as (Hyo & _).
    destruct (BackendFacts.getUserPositions_run svc u st) as (positions & st1 & Hread & _).
    rewrite Hread in *. cbn [snd] in Hyo.
    destruct (forPositions_records u positions b st1) as (b1 & st2 & Hrun & Hcount1).
    rewrite Hrun.
    destruct (IH b1 st2) as (b' & st' & Hrest & Hcount2).
    exists b', st'. split; [done|]. rewrite Hyo in Hcount1. lia.
Qed.

(** X29.  The figures of [getYieldOptimizationStats]: all the records
    are counted, the successful ones are those with a transaction hash and
    are counted among all, the assets are summed up, and the average
    improvement of no record is zero.  A run of the engine over all users
    adds to the records as many as it counts optimized positions.  The
    report itself fails exactly when the collection cannot be read, and
    changes nothing. *)
Theorem store_statistics_count_the_records :
  (forall docs,
      totalOptimizations (statsOf docs) = length docs /\
      successfulOptimizations (statsOf docs) = length (List.filter hasHash docs) /\
      (successfulOptimizations (statsOf docs) <= totalOptimizations (statsOf docs))%nat /\
      (docs = [] -> averageAPYImprovement (statsOf docs) = Finite 0)) /\
  (forall st,
      exists b st',
        optimizeAllPositions svc optimizerContract st = (Val (Some b), st') /\
        totalOptimizations (statsOf (yieldOptimizations st'))
          = (totalOptimizations (statsOf (yieldOptimizations st)) + optimizedCount b)%nat) /\
  (forall st,
      let answer := collection_find (ext st) in
      getYieldOptimizationStats collection_find st
        = (match fst answer with
           | Val _ => Val (statsOf (yieldOptimizations st))
           | Throw e => Throw e
           end,
           mkState (snd answer) (yieldOptimizations st) (optimizationThreshold st)
                   (submitted st) (receipts st))).
Proof.
  split; [| split].
  - intros docs. split; [done|]. split; [done|]. split.
    { unfold statsOf. cbn. apply List.filter_length_le. }
    by intros ->.
  - intros st.
    destruct (BackendFacts.optimizeAllPositions_run svc optimizerContract st)
      as (users & st0 & b & st' & Husers & Hall & Hrun & _).
    exists b, st'. split; [done|]. cbn [statsOf totalOptimizations].
    assert (Hyo : yieldOptimizations st0 = yieldOptimizations st).
    { assert (Hro : ReadOnly (getUsersWithYieldPositions svc)).
      { unfold getUsersWithYieldPositions.
        apply BackendFacts.ReadOnly_tryCatch;
          [apply BackendFacts.ReadOnly_await | intros; apply BackendFacts.ReadOnly_ret]. }
      destruct (Hro st) as (Hyo & _). by rewrite Husers in Hyo. }
    destruct (forUsers_records users (mkBatch 0 0 []) st0) as (b' & st'' & Hrun' & Hcount).
    rewrite Hall in Hrun'. injection Hrun' as <- <-.
    cbn in Hcount. rewrite Hyo in Hcount. lia.
  - intros st answer. subst answer.
    unfold getYieldOptimizationStats, tryCatch, bind, await, throw.
    by destruct (collection_find (ext st)) as [[[] | e] x1].
Qed.

End Reports.

(** ** The hourly job *)

Section Job.

Lemma scheduleCalls_invariant calls s :
  (isRunning s = true <-> exists task, optimizationJob s = Some task) ->
  live s = match optimizationJob s with Some task => [task] | None => [] end ->
  let s' := scheduleCalls calls s in
  (isRunning s' = true <-> exists task, optimizationJob s' = Some task) /\
  live s' = match optimizationJob s' with Some task => [task] | None => [] end.
Proof.
  revert s. induction calls as [| call rest IH]; intros s Hrun Hlive; [done|].
  apply IH; destruct call; cbn [scheduleCall];
    unfold startOptimization, stopOptimization.
  - destruct (isRunning s) eqn:Hr; [by rewrite Hr|]. cbn. split; [eauto | done].
  - destruct (optimizationJob s); cbn; split; try done; by intros [? ?].
  - destruct (isRunning s) eqn:Hr; [done|]. cbn.
    destruct (optimizationJob s) as [task |] eqn:Hjob.
    + destruct Hrun as [_ Hrun]. discriminate Hrun. eauto.
    + by rewrite Hlive.
  - destruct (optimizationJob s) as [task |] eqn:Hjob; cbn; [| done].
    rewrite Hlive. cbn. by rewrite Nat.eqb_refl.
Qed.

(** X30.  Whatever sequence of [startOptimization] and [stopOptimization] is
    called on a new service, the service reports that it runs exactly when
    it holds a job, that job is the only scheduled task that was not
    stopped, and no task is left behind when it holds none.  Starting
    twice schedules one task only, and stopping leaves none. *)
Theorem at_most_one_hourly_job calls :
  let s := scheduleCalls calls idle in
  (isOptimizationRunning s = true <-> exists task, optimizationJob s = Some task) /\
  live s = match optimizationJob s with Some task => [task] | None => [] end /\
  startOptimization (startOptimization s) = startOptimization s /\
  live (stopOptimization s) = [] /\
  isOptimizationRunning (stopOptimization s) = false.
Proof.
  intros s.
  destruct (scheduleCalls_invariant calls idle) as [Hrun Hlive].
  { split; [done | by intros [? ?]]. }
  { done. }
  fold s in Hrun, Hlive.
  split; [done|]. split; [done|]. split; [| split].
  - unfold startOptimization. destruct (isRunning s) eqn:Hr; [by rewrite Hr | done].
  - unfold stopOptimization. rewrite Hlive.
    destruct (optimizationJob s); cbn; [| done]. by rewrite Nat.eqb_refl.
  - unfold stopOptimization. by destruct (optimizationJob s).
Qed.

End Job.

(** ** The properties on concrete answers *)

Import BackendTest BackendRestTest.
Local Open Scope string_scope.
Local Open Scope list_scope.

Lemma missing_position_is_reported_witness :
  let st1 := snd (getUserPositions (scripted scriptAB) "0xu1" (start defaultThreshold)) in
  optimizePosition (scripted scriptAB) "0xopt" "0xu1" 5 (start defaultThreshold)
    = (Val (failed "0xu1" 5 "Invalid or inactive position"), st1) /\
  optimizePosition (scripted scriptAB) "0xopt" "0xu1" (-1) (start defaultThreshold)
    = (Val (failed "0xu1" (-1) "Cannot read properties of undefined (reading 'active')"),
       st1).
Proof.
  split.
  - apply (proj1 (missing_position_is_reported (scripted scriptAB) "0xopt" "0xu1" 5
                    (start defaultThreshold)
                    [mkUserPosition "0xu1" 0 vaultA usdc 100 100 (Some (Finite 3)) true]
                    _ ltac:(vm_compute; reflexivity))).
    left. vm_compute. discriminate.
  - apply (proj2 (missing_position_is_reported (scripted scriptAB) "0xopt" "0xu1" (-1)
                    (start defaultThreshold)
                    [mkUserPosition "0xu1" 0 vaultA usdc 100 100 (Some (Finite 3)) true]
                    _ ltac:(vm_compute; reflexivity))).
    reflexivity.
Defined.

Lemma raising_the_threshold_only_skips_witness :
  exists r',
    fst (evaluate (scripted scriptAB) "0xu1" 0
           (snd (setOptimizationThreshold (Finite 3) (start (Finite 2)))))
      = Val (Skip r').
Proof.
  pose proof (raising_the_threshold_only_skips (scripted scriptAB) "0xu1" 0
                (start (Finite 2)) (Finite 3))
    as Hraise.
  destruct Hraise as [_ Hskip].
  - vm_compute. reflexivity.
  - vm_compute in Hskip. vm_compute. exact Hskip.
Defined.

(** The series of vault A ends at 4% and averages 3%: the reply carries
    both, and the opportunity is listed with the last yield. *)
Example series_gives_current_and_average :
  let reply := fst (getHistoricalAPY clock yieldApi (vaultQuery "hyperevm" vaultA) 0%nat) in
  exists d,
    reply = Val (mkHistoricalAPYResponse true (Some d) None) /\
    currentAPY d = Some (Finite 4) /\
    averageAPY d = Some (Finite 3) /\
    map pt_timestamp (historicalAPY d) = [10; 1; 30]%N /\
    map opp_apy (match fst (getYieldOpportunities (wired fullEnv) [vaultA; vaultB]
                              "hyperevm" (start (Finite 0))) with
                 | Val l => l
                 | Throw _ => []
                 end) = [Finite 4].
Proof. vm_compute. eexists. repeat split. Qed.

(** With the key set, the quote is asked for and its router is read. *)
Example quote_is_read :
  Backend.getQuote (wired fullEnv) usdcToWeth 0%nat
    = (Val (mkQuoteResponse true (Some (mkQuoteResult "0xrouter" "0xcafe"))), 1%nat).
Proof. reflexivity. Qed.

(** Vault A at 3% and vault B at 4.2%. *)
Example statistics_of_two_vaults :
  exists stats,
    fst (getYieldStatistics (scripted scriptAB) (start (Finite 0))) = Val stats /\
    map opp_vault (stat_vaults stats) = [vaultB; vaultA] /\
    stat_highestAPY stats = literal 42 10 /\
    stat_averageAPY stats = literal 36 10.
Proof. vm_compute. eexists. repeat split. Qed.

(** Three vaults at 0.1%: the average that is reported, a sum and a
    quotient in doubles, is 0.10000000000000002 and exceeds the highest
    yield. *)
Example average_can_exceed_highest :
  exists stats,
    fst (getYieldStatistics (scripted scriptTenth) (start defaultThreshold)) = Val stats /\
    map opp_apy (stat_vaults stats) = [literal 1 10; literal 1 10; literal 1 10] /\
    stat_highestAPY stats = literal 1 10 /\
    stat_averageAPY stats = Finite (7205759403792795 # 72057594037927936) /\
    flt (stat_highestAPY stats) (stat_averageAPY stats) = true.
Proof. vm_compute. eexists. repeat split. Qed.

(** A run of the engine on an empty store, then the report. *)
Example report_after_a_run :
  let st' := snd (optimizeAllPositions (scripted scriptAB) "0xopt"
                    (start defaultThreshold)) in
  exists stats,
    fst (getYieldOptimizationStats (fun n => (Val tt, n)) st') = Val stats /\
    totalOptimizations stats = 3%nat /\
    successfulOptimizations stats = 3%nat /\
    totalAssetsReallocated stats = 300%N /\
    averageAPYImprovement stats = fsub (literal 42 10) (Finite 3).
Proof. vm_compute. eexists. repeat split. Qed.

(** Three moves from no yield to 0.7% at the threshold 0.7: every record
    has passed the gate, and their average improvement as it is reported,
    0.6999999999999998, is below the threshold. *)
Example average_improvement_below_threshold :
  let st' := snd (optimizeAllPositions (scripted scriptOnlyB) "0xopt"
                    (start (literal 7 10))) in
  length (yieldOptimizations st') = 3%nat /\
  Forall (Worthwhile (literal 7 10)) (yieldOptimizations st') /\
  averageAPYImprovement (statsOf (yieldOptimizations st'))
    = Finite (6305039478318693 # 9007199254740992) /\
  flt (averageAPYImprovement (statsOf (yieldOptimizations st'))) (literal 7 10) = true.
Proof.
  split; [by vm_compute|]. split; [| split; by vm_compute].
  destruct (optimizeAllPositions_Kept (scripted scriptOnlyB) "0xopt" (start (literal 7 10)))
    as (_ & docs & Hdocs & Hall).
  rewrite Hdocs. exact Hall.
Qed.

Example start_twice_stop_start :
  let s := scheduleCalls [Start; Start; Stop; Start] idle in
  BackendRest.live s = [1%nat] /\ optimizationJob s = Some 1%nat /\
  isOptimizationRunning s = true /\ scheduledSoFar s = 2%nat.
Proof. by vm_compute. Qed.

End BackendMore.
